(** * mbox locking: a shallow embedding of [src/lib-storage/index/mbox/mbox-lock.c]

    The file models the composite mbox lock manager: the parsing and
    validation of the lock method lists, the four lock backends, the ordered
    walk over the configured backends ([mbox_lock_list]), the promotion and
    demotion protocol ([mbox_update_locking]) and the reference counted
    caller interface ([mbox_lock], [mbox_unlock]).

    Conventions.
    - The C functions thread an [index_mailbox], a [mbox_lock_context] and
      the operating system through every call; the model passes them
      explicitly and returns them next to the C return value.
    - [i_fatal], a failed [i_assert], a read past the end of a static
      array and a call through a [NULL] function pointer end the
      computation; with the exhausted fuel of a loop they are the
      non-[Ok] constructors of [result].
    - System calls and the functions of other translation units
      ([file_lock_dotlock], [mbox_file_open], ...) are the fields of a
      record [os_ops] the development is parametric in; they act on an
      abstract state of the operating system.
    - Loops that wait for a lock take fuel; the callback of the dotlock
      calls back into [mbox_lock_list], which the same fuel bounds. *)

From Stdlib Require Import ZArith Bool String Ascii List Lia.
Import ListNotations.
Local Open Scope Z_scope.

(** ** Results of a computation *)

Inductive fatal_error : Type :=
| FatalInvalidValue (env value : string)
| FatalNotCompiled (env value : string)
| FatalDuplicated (env value : string)
| FatalLockOrder.

Inductive assertion : Type :=
| AssertLockTypeArg
| AssertNoUpgrade
| AssertLockId
| AssertExclLocks
| AssertSharedLocks.

Inductive result (A : Type) : Type :=
| Ok (a : A)
| Fatal (e : fatal_error)
| Panic (a : assertion)
| OutOfBounds
| NullFunction
| OutOfFuel.

Arguments Ok {A} a.
Arguments Fatal {A} e.
Arguments Panic {A} a.
Arguments OutOfBounds {A}.
Arguments NullFunction {A}.
Arguments OutOfFuel {A}.

Definition bind {A B : Type} (m : result A) (k : A -> result B) : result B :=
  match m with
  | Ok a => k a
  | Fatal e => Fatal e
  | Panic a => Panic a
  | OutOfBounds => OutOfBounds
  | NullFunction => NullFunction
  | OutOfFuel => OutOfFuel
  end.

Notation "x <- m ;; k" := (bind m (fun x => k))
  (at level 61, m at next level, right associativity).
Notation "' pat <- m ;; k" := (bind m (fun x => match x with pat => k end))
  (at level 61, pat pattern, m at next level, right associativity).

Definition i_assert (b : bool) (a : assertion) : result unit :=
  if b then Ok tt else Panic a.

(** ** Lock kinds and lock methods *)

(** The [fcntl.h] lock types the interface is written with. *)
Inductive lock_kind : Type := F_RDLCK | F_WRLCK | F_UNLCK.

Definition lock_kind_eqb (a b : lock_kind) : bool :=
  match a, b with
  | F_RDLCK, F_RDLCK | F_WRLCK, F_WRLCK | F_UNLCK, F_UNLCK => true
  | _, _ => false
  end.

(** [enum mbox_lock_type], named [mbox_lock_method] here because the
    mailbox has a field of the same name; [MBOX_LOCK_COUNT] is 4. *)
Inductive mbox_lock_method : Type :=
| MBOX_LOCK_DOTLOCK
| MBOX_LOCK_FCNTL
| MBOX_LOCK_FLOCK
| MBOX_LOCK_LOCKF.

Definition MBOX_LOCK_COUNT : nat := 4.

Definition type_eqb (a b : mbox_lock_method) : bool :=
  match a, b with
  | MBOX_LOCK_DOTLOCK, MBOX_LOCK_DOTLOCK
  | MBOX_LOCK_FCNTL, MBOX_LOCK_FCNTL
  | MBOX_LOCK_FLOCK, MBOX_LOCK_FLOCK
  | MBOX_LOCK_LOCKF, MBOX_LOCK_LOCKF => true
  | _, _ => false
  end.

Definition type_eq_dec (a b : mbox_lock_method) : {a = b} + {a <> b}.
Proof. decide equality. Defined.

(** The ordinal of a lock type, its index in [lock_status]. *)
Definition ordinal (t : mbox_lock_method) : nat :=
  match t with
  | MBOX_LOCK_DOTLOCK => 0
  | MBOX_LOCK_FCNTL => 1
  | MBOX_LOCK_FLOCK => 2
  | MBOX_LOCK_LOCKF => 3
  end%nat.

Definition of_ordinal (n : nat) : option mbox_lock_method :=
  match n with
  | 0 => Some MBOX_LOCK_DOTLOCK
  | 1 => Some MBOX_LOCK_FCNTL
  | 2 => Some MBOX_LOCK_FLOCK
  | 3 => Some MBOX_LOCK_LOCKF
  | _ => None
  end%nat.

(** An entry of [read_locks] or [write_locks]: a lock type, or the
    terminator [(enum mbox_lock_type)-1], written [None]. *)
Definition slot : Type := option mbox_lock_method.

Definition slot_eqb (a b : slot) : bool :=
  match a, b with
  | Some x, Some y => type_eqb x y
  | None, None => true
  | _, _ => false
  end.

(** A static array of [MBOX_LOCK_COUNT+1] entries, zero when the program
    starts: every entry is the enumerator of value 0. *)
Definition zero_locks : list slot := repeat (Some MBOX_LOCK_DOTLOCK) 5.

(** [a[i] = v]; [None] when [i] is outside the array. *)
Fixpoint array_set {A : Type} (a : list A) (i : nat) (v : A) : option (list A) :=
  match a, i with
  | [], _ => None
  | _ :: r, O => Some (v :: r)
  | x :: r, S j => option_map (cons x) (array_set r j v)
  end.

(** ** Configuration *)

Module Config.

(** What the build provides: [HAVE_FLOCK] and [HAVE_LOCKF]. *)
Record build : Type := { have_flock : bool; have_lockf : bool }.

(** [lock_data[]] without its functions: the enumerator, the name, and
    whether the function pointer is not [NULL]. *)
Definition lock_data (b : build) : list (mbox_lock_method * string * bool) :=
  [ (MBOX_LOCK_DOTLOCK, "dotlock"%string, true);
    (MBOX_LOCK_FCNTL, "fcntl"%string, true);
    (MBOX_LOCK_FLOCK, "flock"%string, have_flock b);
    (MBOX_LOCK_LOCKF, "lockf"%string, have_lockf b) ].

Definition to_lower (c : ascii) : ascii :=
  let n := nat_of_ascii c in
  if (Nat.leb 65 n && Nat.leb n 90)%bool then ascii_of_nat (n + 32) else c.

(** [strcasecmp(a, b) == 0] *)
Fixpoint strcaseeq (a b : string) : bool :=
  match a, b with
  | EmptyString, EmptyString => true
  | String x a', String y b' =>
      (Ascii.eqb (to_lower x) (to_lower y) && strcaseeq a' b')%bool
  | _, _ => false
  end.

(** The search loop of [mbox_read_lock_methods] over [lock_data]: the entry
    whose name matches, if there is one. *)
Fixpoint find_lock_data (tbl : list (mbox_lock_method * string * bool))
    (name : string) : option (mbox_lock_method * bool) :=
  match tbl with
  | [] => None
  | (ty, n, f) :: r =>
      if strcaseeq name n then Some (ty, f) else find_lock_data r name
  end.

(** [for (i = 0; i < dest; i++) if (locks[i] == type)] *)
Fixpoint seen_before (locks : list slot) (dest : nat) (ty : mbox_lock_method) : bool :=
  match dest, locks with
  | S d, x :: r => (slot_eqb x (Some ty) || seen_before r d ty)%bool
  | _, _ => false
  end.

(** The body of the token loop of [mbox_read_lock_methods], [toks] being
    what [t_strsplit(str, " ")] returned. *)
Fixpoint read_lock_methods_loop (b : build) (env : string) (toks : list string)
    (locks : list slot) (dest : nat) : result (list slot) :=
  match toks with
  | [] =>
      match array_set locks dest None with
      | Some a => Ok a
      | None => OutOfBounds
      end
  | tok :: rest =>
      match find_lock_data (lock_data b) tok with
      | None => Fatal (FatalInvalidValue env tok)
      | Some (ty, false) => Fatal (FatalNotCompiled env tok)
      | Some (ty, true) =>
          if seen_before locks dest ty then Fatal (FatalDuplicated env tok)
          else
            match array_set locks dest (Some ty) with
            | Some a => read_lock_methods_loop b env rest a (S dest)
            | None => OutOfBounds
            end
      end
  end.

Definition mbox_read_lock_methods (b : build) (toks : list string)
    (env : string) (locks : list slot) : result (list slot) :=
  read_lock_methods_loop b env toks locks 0.

(** The settings the file keeps in static variables. *)
Record settings : Type := {
  read_locks : list slot;
  write_locks : list slot;
  lock_timeout : Z;
  dotlock_change_timeout : Z
}.

(** The environment as [getenv] shows it, the two lists already split by
    [t_strsplit] and the two numbers already read by [atoi]. *)
Record environment : Type := {
  MBOX_READ_LOCKS : option (list string);
  MBOX_WRITE_LOCKS : option (list string);
  MBOX_LOCK_TIMEOUT : option Z;
  MBOX_DOTLOCK_CHANGE_TIMEOUT : option Z
}.

Definition DEFAULT_READ_LOCK_METHODS : list string := ["fcntl"%string].
Definition DEFAULT_WRITE_LOCK_METHODS : list string :=
  ["dotlock"%string; "fcntl"%string].
Definition DEFAULT_LOCK_TIMEOUT : Z := 10 * 60.
Definition DEFAULT_DOTLOCK_CHANGE_TIMEOUT : Z := 5 * 60.

(** The order check of [mbox_init_lock_settings]: [rl] and [wl] are the
    arrays from [r] and from [w] on; the result is [read_locks[r]] after the
    loop, or nothing when the loop left one of the arrays. *)
Fixpoint order_loop (rl wl : list slot) : option slot :=
  match wl with
  | [] => None
  | None :: _ => hd_error rl
  | Some wt :: wl' =>
      match rl with
      | [] => None
      | None :: _ => Some None
      | Some rt :: rl' =>
          if type_eqb rt wt then order_loop rl' wl' else order_loop rl wl'
      end
  end.

Definition mbox_init_lock_settings (b : build) (e : environment) : result settings :=
  let str := match MBOX_READ_LOCKS e with
             | Some s => s | None => DEFAULT_READ_LOCK_METHODS end in
  rl <- mbox_read_lock_methods b str "MBOX_READ_LOCKS" zero_locks ;;
  let str := match MBOX_WRITE_LOCKS e with
             | Some s => s | None => DEFAULT_WRITE_LOCK_METHODS end in
  wl <- mbox_read_lock_methods b str "MBOX_WRITE_LOCKS" zero_locks ;;
  match order_loop rl wl with
  | None => OutOfBounds
  | Some (Some _) => Fatal FatalLockOrder
  | Some None =>
      Ok {| read_locks := rl;
            write_locks := wl;
            lock_timeout := match MBOX_LOCK_TIMEOUT e with
                            | Some n => n | None => DEFAULT_LOCK_TIMEOUT end;
            dotlock_change_timeout :=
              match MBOX_DOTLOCK_CHANGE_TIMEOUT e with
              | Some n => n | None => DEFAULT_DOTLOCK_CHANGE_TIMEOUT end |}
  end.

End Config.

(** ** The mailbox, the lock context and the operating system *)

(** The fields of [struct index_mailbox] (declared in [mbox-storage.h])
    the file reads or writes.  The counters and the lock id are C
    [unsigned int]s: values below [2^32], with wrap-around. *)
Record index_mailbox : Type := {
  mbox_fd : Z;
  mbox_ino : Z;
  mbox_dev : Z;
  mbox_dotlock_ino : Z;
  mbox_lock_type : lock_kind;
  mbox_lock_id : Z;
  mbox_shared_locks : Z;
  mbox_excl_locks : Z
}.

Definition UINT_MOD : Z := 2 ^ 32.
Definition uint (z : Z) : Z := z mod UINT_MOD.

(** [struct mbox_lock_context], without its pointer to the mailbox.
    [lock_status] holds 0 or 1 for each lock type. *)
Record mbox_lock_context : Type := {
  lock_status : mbox_lock_method -> bool;
  checked_file : bool;
  lock_type : lock_kind;
  dotlock_last_stale : Z
}.

Definition set_status (f : mbox_lock_method -> bool) (t : mbox_lock_method)
    (v : bool) : mbox_lock_method -> bool :=
  fun x => if type_eqb x t then v else f x.

(** [memset(&ctx, 0, sizeof(ctx))]; the lock type is assigned by
    [mbox_lock_list] before it is read. *)
Definition ctx_zero : mbox_lock_context :=
  {| lock_status := fun _ => false;
     checked_file := false;
     lock_type := F_RDLCK;
     dotlock_last_stale := 0 |}.

Inductive notify_type : Type :=
| MAILBOX_LOCK_NOTIFY_MAILBOX_OVERRIDE
| MAILBOX_LOCK_NOTIFY_MAILBOX_ABORT.

(** What the code tells its collaborators, in the order it happens.
    [EvBackend] records a call of [lock_data[type].func]. *)
Inductive event : Type :=
| EvBackend (t : mbox_lock_method) (k : lock_kind) (max_wait_time : Z)
| EvNotify (n : notify_type) (secs_left : Z)
| EvNotifyReset
| EvSyscallError (function : string)
| EvStorageError (message : string)
| EvCloseStream.

(** A system call returns, or fails with an [errno]. *)
Inductive sysret : Type := Success | Failure (errno : Z).

Inductive flock_op : Type := LOCK_SH | LOCK_EX | LOCK_UN.
Inductive lockf_cmd : Type := F_TLOCK | F_ULOCK.
Inductive fcntl_cmd : Type := F_SETLK | F_SETLKW.

(** One call of [file_lock_dotlock], seen from this file: it returns a
    value and what it stored in [ibox->mbox_dotlock], or it calls the
    callback and goes on with the callback's answer. *)
Inductive dotlock_run (OS : Type) : Type :=
| DotlockReturn (ret : Z) (ino : Z) (os : OS)
| DotlockCallback (secs_left : Z) (stale : Z) (os : OS)
    (k : Z -> OS -> dotlock_run OS).

Arguments DotlockReturn {OS} ret ino os.
Arguments DotlockCallback {OS} secs_left stale os k.

(** The system calls and the functions of other files, as functions of the
    state of the operating system. *)
Record os_ops (OS : Type) : Type := {
  EWOULDBLOCK : Z;
  EAGAIN : Z;
  EACCES : Z;
  EINTR : Z;
  sys_time : OS -> Z * OS;
  sys_stat : OS -> option (Z * Z) * OS;
  sys_flock : Z -> flock_op -> OS -> sysret * OS;
  sys_lockf : Z -> lockf_cmd -> OS -> sysret * OS;
  sys_fcntl : Z -> fcntl_cmd -> lock_kind -> OS -> sysret * OS;
  sys_alarm : Z -> OS -> OS;
  sys_usleep : OS -> OS;
  file_open : OS -> option (Z * Z * Z) * OS;
  file_close : Z -> OS -> OS;
  file_close_stream : OS -> OS;
  file_unlock_dotlock : Z -> OS -> Z * OS;
  file_lock_dotlock : Z -> Z -> Z -> OS -> dotlock_run OS
}.

Arguments EWOULDBLOCK {OS} _.
Arguments EAGAIN {OS} _.
Arguments EACCES {OS} _.
Arguments EINTR {OS} _.
Arguments sys_time {OS} _ _.
Arguments sys_stat {OS} _ _.
Arguments sys_flock {OS} _ _ _ _.
Arguments sys_lockf {OS} _ _ _ _.
Arguments sys_fcntl {OS} _ _ _ _ _.
Arguments sys_alarm {OS} _ _ _.
Arguments sys_usleep {OS} _ _.
Arguments file_open {OS} _ _.
Arguments file_close {OS} _ _ _.
Arguments file_close_stream {OS} _ _.
Arguments file_unlock_dotlock {OS} _ _ _.
Arguments file_lock_dotlock {OS} _ _ _ _ _.

(** Everything a call can change outside the lock context. *)
Record state (OS : Type) : Type := {
  ibox : index_mailbox;
  os : OS;
  log : list event
}.

Arguments ibox {OS} _.
Arguments os {OS} _.
Arguments log {OS} _.
Arguments Build_state {OS} _ _ _.

Definition set_file (i : index_mailbox) (fd ino dev : Z) : index_mailbox :=
  {| mbox_fd := fd; mbox_ino := ino; mbox_dev := dev;
     mbox_dotlock_ino := mbox_dotlock_ino i;
     mbox_lock_type := mbox_lock_type i;
     mbox_lock_id := mbox_lock_id i;
     mbox_shared_locks := mbox_shared_locks i;
     mbox_excl_locks := mbox_excl_locks i |}.

Definition set_dotlock_ino (i : index_mailbox) (ino : Z) : index_mailbox :=
  {| mbox_fd := mbox_fd i; mbox_ino := mbox_ino i; mbox_dev := mbox_dev i;
     mbox_dotlock_ino := ino;
     mbox_lock_type := mbox_lock_type i;
     mbox_lock_id := mbox_lock_id i;
     mbox_shared_locks := mbox_shared_locks i;
     mbox_excl_locks := mbox_excl_locks i |}.

Definition set_lock_type (i : index_mailbox) (k : lock_kind) : index_mailbox :=
  {| mbox_fd := mbox_fd i; mbox_ino := mbox_ino i; mbox_dev := mbox_dev i;
     mbox_dotlock_ino := mbox_dotlock_ino i;
     mbox_lock_type := k;
     mbox_lock_id := mbox_lock_id i;
     mbox_shared_locks := mbox_shared_locks i;
     mbox_excl_locks := mbox_excl_locks i |}.

Definition set_lock_id (i : index_mailbox) (id : Z) : index_mailbox :=
  {| mbox_fd := mbox_fd i; mbox_ino := mbox_ino i; mbox_dev := mbox_dev i;
     mbox_dotlock_ino := mbox_dotlock_ino i;
     mbox_lock_type := mbox_lock_type i;
     mbox_lock_id := id;
     mbox_shared_locks := mbox_shared_locks i;
     mbox_excl_locks := mbox_excl_locks i |}.

Definition set_shared_locks (i : index_mailbox) (n : Z) : index_mailbox :=
  {| mbox_fd := mbox_fd i; mbox_ino := mbox_ino i; mbox_dev := mbox_dev i;
     mbox_dotlock_ino := mbox_dotlock_ino i;
     mbox_lock_type := mbox_lock_type i;
     mbox_lock_id := mbox_lock_id i;
     mbox_shared_locks := n;
     mbox_excl_locks := mbox_excl_locks i |}.

Definition set_excl_locks (i : index_mailbox) (n : Z) : index_mailbox :=
  {| mbox_fd := mbox_fd i; mbox_ino := mbox_ino i; mbox_dev := mbox_dev i;
     mbox_dotlock_ino := mbox_dotlock_ino i;
     mbox_lock_type := mbox_lock_type i;
     mbox_lock_id := mbox_lock_id i;
     mbox_shared_locks := mbox_shared_locks i;
     mbox_excl_locks := n |}.

Definition set_lock_status (c : mbox_lock_context)
    (f : mbox_lock_method -> bool) : mbox_lock_context :=
  {| lock_status := f; checked_file := checked_file c;
     lock_type := lock_type c; dotlock_last_stale := dotlock_last_stale c |}.

Definition set_checked_file (c : mbox_lock_context) (b : bool) : mbox_lock_context :=
  {| lock_status := lock_status c; checked_file := b;
     lock_type := lock_type c; dotlock_last_stale := dotlock_last_stale c |}.

Definition set_ctx_lock_type (c : mbox_lock_context) (k : lock_kind) : mbox_lock_context :=
  {| lock_status := lock_status c; checked_file := checked_file c;
     lock_type := k; dotlock_last_stale := dotlock_last_stale c |}.

Definition set_last_stale (c : mbox_lock_context) (v : Z) : mbox_lock_context :=
  {| lock_status := lock_status c; checked_file := checked_file c;
     lock_type := lock_type c; dotlock_last_stale := v |}.

Definition with_ibox {OS} (st : state OS) (i : index_mailbox) : state OS :=
  Build_state i (os st) (log st).

Definition with_os {OS} (st : state OS) (o : OS) : state OS :=
  Build_state (ibox st) o (log st).

Definition emit {OS} (e : event) (st : state OS) : state OS :=
  Build_state (ibox st) (os st) (log st ++ [e]).

Definition mbox_set_syscall_error {OS} (function : string) (st : state OS) : state OS :=
  emit (EvSyscallError function) st.

Definition mail_storage_set_error {OS} (message : string) (st : state OS) : state OS :=
  emit (EvStorageError message) st.

Definition index_storage_lock_notify {OS} (n : notify_type) (secs_left : Z)
    (st : state OS) : state OS :=
  emit (EvNotify n secs_left) st.

(** ** The lock backends *)

Section Model.

Context {OS : Type}.
Variable M : os_ops OS.
Variable build : Config.build.
Variable cfg : Config.settings.

Definition mbox_file_close (st : state OS) : state OS :=
  Build_state (set_file (ibox st) (-1) (mbox_ino (ibox st)) (mbox_dev (ibox st)))
              (file_close M (mbox_fd (ibox st)) (os st)) (log st).

Definition mbox_file_open (st : state OS) : Z * state OS :=
  let (r, o) := file_open M (os st) in
  match r with
  | Some (fd, ino, dev) => (0, Build_state (set_file (ibox st) fd ino dev) o (log st))
  | None => (-1, with_os st o)
  end.

Definition mbox_file_close_stream (st : state OS) : state OS :=
  emit EvCloseStream (with_os st (file_close_stream M (os st))).

Definition mbox_file_open_latest (ctx : mbox_lock_context) (lt : lock_kind)
    (st : state OS) : Z * mbox_lock_context * state OS :=
  if (checked_file ctx || lock_kind_eqb lt F_UNLCK)%bool then (0, ctx, st)
  else
    (* [inr]: the function returns -1 here *)
    let checked : state OS + state OS :=
      if negb (mbox_fd (ibox st) =? -1) then
        let (r, o) := sys_stat M (os st) in
        match r with
        | None => inr (mbox_set_syscall_error "stat()" (with_os st o))
        | Some (ino, dev) =>
            if (negb (ino =? mbox_ino (ibox st)) || negb (dev =? mbox_dev (ibox st)))%bool
            then inl (mbox_file_close (with_os st o))
            else inl (with_os st o)
        end
      else inl st in
    match checked with
    | inr st1 => (-1, ctx, st1)
    | inl st1 =>
        if mbox_fd (ibox st1) =? -1 then
          let (r, st2) := mbox_file_open st1 in
          if r <? 0 then (-1, ctx, st2)
          else (0, set_checked_file ctx true, st2)
        else (0, set_checked_file ctx true, st1)
    end.

(** The loop of [dotlock_callback] that finds the index to probe from. *)
Fixpoint next_index (status : mbox_lock_method -> bool) (idx : nat) : nat :=
  match idx with
  | O => O
  | S j =>
      match of_ordinal j with
      | Some t => if status t then idx else next_index status j
      | None => next_index status j
      end
  end.

Section Level.

(** [mbox_lock_list] as the callback of the dotlock calls it. *)
Variable lock_list :
  mbox_lock_context -> lock_kind -> Z -> nat -> state OS ->
  result (Z * mbox_lock_context * state OS).

(** The fuel of the retry loops of the backends. *)
Variable fuel : nat.

Definition dotlock_callback (secs_left stale : Z) (ctx : mbox_lock_context)
    (st : state OS) : result (Z * mbox_lock_context * state OS) :=
  '(go_on, ctx1, st1) <-
    (if (negb (stale =? 0) && (dotlock_last_stale ctx =? 0))%bool then
       let idx := next_index (lock_status ctx) MBOX_LOCK_COUNT in
       '(r, ctx1, st1) <- lock_list ctx (lock_type ctx) 0 idx st ;;
       if r <=? 0 then Ok (false, set_last_stale ctx1 1, st1)
       else
         '(_, ctx2, st2) <- lock_list ctx1 F_UNLCK 0 idx st1 ;;
         Ok (true, ctx2, st2)
     else Ok (true, ctx, st)) ;;
  if go_on : bool then
    Ok (1, set_last_stale ctx1 stale,
        index_storage_lock_notify
          (if negb (stale =? 0) then MAILBOX_LOCK_NOTIFY_MAILBOX_OVERRIDE
           else MAILBOX_LOCK_NOTIFY_MAILBOX_ABORT) secs_left st1)
  else Ok (0, ctx1, st1).

(** [file_lock_dotlock] with [dotlock_callback] as its callback. *)
Fixpoint run_dotlock (t : dotlock_run OS) (ctx : mbox_lock_context)
    (st : state OS) : result (Z * mbox_lock_context * state OS) :=
  match t with
  | DotlockReturn ret ino o =>
      Ok (ret, ctx, Build_state (set_dotlock_ino (ibox st) ino) o (log st))
  | DotlockCallback secs_left stale o k =>
      '(r, ctx1, st1) <- dotlock_callback secs_left stale ctx (with_os st o) ;;
      run_dotlock (k r (os st1)) ctx1 st1
  end.

Definition mbox_lock_dotlock (ctx : mbox_lock_context) (lt : lock_kind)
    (max_wait_time : Z) (st : state OS)
    : result (Z * mbox_lock_context * state OS) :=
  if lock_kind_eqb lt F_UNLCK then
    if mbox_dotlock_ino (ibox st) =? 0 then Ok (1, ctx, st)
    else
      let (r, o) := file_unlock_dotlock M (mbox_dotlock_ino (ibox st)) (os st) in
      let st1 := with_os st o in
      let st2 := if r <=? 0
                 then mbox_set_syscall_error "file_unlock_dotlock()" st1
                 else st1 in
      Ok (1, ctx, with_ibox st2 (set_dotlock_ino (ibox st2) 0))
  else if negb (mbox_dotlock_ino (ibox st) =? 0) then Ok (1, ctx, st)
  else
    let ctx0 := set_last_stale ctx (-1) in
    (* both timeouts are [int] here and [unsigned int] parameters there *)
    '(ret, ctx1, st1) <-
      run_dotlock (file_lock_dotlock M (uint (Config.lock_timeout cfg))
                     (uint (Config.dotlock_change_timeout cfg))
                     (mbox_dotlock_ino (ibox st)) (os st)) ctx0 st ;;
    if ret <? 0 then
      Ok (-1, ctx1, mbox_set_syscall_error "file_lock_dotlock()" st1)
    else if ret =? 0 then
      Ok (0, ctx1, mail_storage_set_error "Timeout while waiting for lock" st1)
    else
      let '(r, ctx2, st2) := mbox_file_open_latest ctx1 lt st1 in
      if r <? 0 then Ok (-1, ctx2, st2) else Ok (1, ctx2, st2).

Fixpoint flock_loop (n : nat) (op : flock_op) (max_wait_time : Z)
    (st : state OS) : result (Z * state OS) :=
  match n with
  | O => OutOfFuel
  | S n' =>
      let (r, o) := sys_flock M (mbox_fd (ibox st)) op (os st) in
      let st1 := with_os st o in
      match r with
      | Success => Ok (1, st1)
      | Failure errno =>
          if negb (errno =? EWOULDBLOCK M) then
            Ok (-1, mbox_set_syscall_error "flock()" st1)
          else if max_wait_time =? 0 then Ok (0, st1)
          else
            let (now, o2) := sys_time M (os st1) in
            let st2 := with_os st1 o2 in
            if now >=? max_wait_time then Ok (0, st2)
            else
              let st3 := if negb (now =? 0)
                         then index_storage_lock_notify
                                MAILBOX_LOCK_NOTIFY_MAILBOX_ABORT
                                (uint (max_wait_time - now)) st2
                         else st2 in
              flock_loop n' op max_wait_time (with_os st3 (sys_usleep M (os st3)))
      end
  end.

(** The [flock] operation for a lock type; [LOCK_NB] is always added. *)
Definition flock_op_of (lt : lock_kind) : flock_op :=
  match lt with
  | F_WRLCK => LOCK_EX
  | F_RDLCK => LOCK_SH
  | F_UNLCK => LOCK_UN
  end.

Definition mbox_lock_flock (ctx : mbox_lock_context) (lt : lock_kind)
    (max_wait_time : Z) (st : state OS)
    : result (Z * mbox_lock_context * state OS) :=
  let '(r, ctx1, st1) := mbox_file_open_latest ctx lt st in
  if r <? 0 then Ok (-1, ctx1, st1)
  else if (lock_kind_eqb lt F_UNLCK && (mbox_fd (ibox st1) =? -1))%bool
  then Ok (1, ctx1, st1)
  else
    '(ret, st2) <- flock_loop fuel (flock_op_of lt) max_wait_time st1 ;;
    Ok (ret, ctx1, st2).

Fixpoint lockf_loop (n : nat) (cmd : lockf_cmd) (max_wait_time : Z)
    (st : state OS) : result (Z * state OS) :=
  match n with
  | O => OutOfFuel
  | S n' =>
      let (r, o) := sys_lockf M (mbox_fd (ibox st)) cmd (os st) in
      let st1 := with_os st o in
      match r with
      | Success => Ok (1, st1)
      | Failure errno =>
          if negb (errno =? EAGAIN M) then
            Ok (-1, mbox_set_syscall_error "lockf()" st1)
          else if max_wait_time =? 0 then Ok (0, st1)
          else
            let (now, o2) := sys_time M (os st1) in
            let st2 := with_os st1 o2 in
            if now >=? max_wait_time then Ok (0, st2)
            else
              let st3 := if negb (now =? 0)
                         then index_storage_lock_notify
                                MAILBOX_LOCK_NOTIFY_MAILBOX_ABORT
                                (uint (max_wait_time - now)) st2
                         else st2 in
              lockf_loop n' cmd max_wait_time (with_os st3 (sys_usleep M (os st3)))
      end
  end.

Definition mbox_lock_lockf (ctx : mbox_lock_context) (lt : lock_kind)
    (max_wait_time : Z) (st : state OS)
    : result (Z * mbox_lock_context * state OS) :=
  let '(r, ctx1, st1) := mbox_file_open_latest ctx lt st in
  if r <? 0 then Ok (-1, ctx1, st1)
  else if (lock_kind_eqb lt F_UNLCK && (mbox_fd (ibox st1) =? -1))%bool
  then Ok (1, ctx1, st1)
  else
    let cmd := if negb (lock_kind_eqb lt F_UNLCK) then F_TLOCK else F_ULOCK in
    '(ret, st2) <- lockf_loop fuel cmd max_wait_time st1 ;;
    Ok (ret, ctx1, st2).

Definition alarm (secs : Z) (st : state OS) : state OS :=
  with_os st (sys_alarm M secs (os st)).

Fixpoint fcntl_loop (n : nat) (wait_type : fcntl_cmd) (lt : lock_kind)
    (max_wait_time : Z) (st : state OS) : result (Z * state OS) :=
  match n with
  | O => OutOfFuel
  | S n' =>
      let (r, o) := sys_fcntl M (mbox_fd (ibox st)) wait_type lt (os st) in
      let st1 := with_os st o in
      match r with
      | Success => Ok (1, alarm 0 st1)
      | Failure errno =>
          if negb (errno =? EINTR M) then
            let st2 := if (negb (errno =? EAGAIN M) && negb (errno =? EACCES M))%bool
                       then mbox_set_syscall_error "fcntl()" st1
                       else st1 in
            Ok (-1, alarm 0 st2)
          else
            let (now, o2) := sys_time M (os st1) in
            let st2 := with_os st1 o2 in
            if (negb (max_wait_time =? 0) && (now >=? max_wait_time))%bool
            then Ok (0, alarm 0 st2)
            else
              let next_alarm := uint (Z.rem (max_wait_time - now) 5) in
              let next_alarm := if next_alarm =? 0 then 5 else next_alarm in
              let st3 := alarm next_alarm st2 in
              fcntl_loop n' wait_type lt max_wait_time
                (index_storage_lock_notify MAILBOX_LOCK_NOTIFY_MAILBOX_ABORT
                   (uint (max_wait_time - now)) st3)
      end
  end.

Definition mbox_lock_fcntl (ctx : mbox_lock_context) (lt : lock_kind)
    (max_wait_time : Z) (st : state OS)
    : result (Z * mbox_lock_context * state OS) :=
  let '(r, ctx1, st1) := mbox_file_open_latest ctx lt st in
  if r <? 0 then Ok (-1, ctx1, st1)
  else if (lock_kind_eqb lt F_UNLCK && (mbox_fd (ibox st1) =? -1))%bool
  then Ok (1, ctx1, st1)
  else
    let '(wait_type, st2) :=
      if max_wait_time =? 0 then (F_SETLK, st1)
      else (F_SETLKW, alarm (uint (Z.min max_wait_time 5)) st1) in
    '(ret, st3) <- fcntl_loop fuel wait_type lt max_wait_time st2 ;;
    Ok (ret, ctx1, st3).

(** [lock_data[type].func]; the pointer is [NULL] for a method that is not
    compiled in. *)
Definition lock_data_func (t : mbox_lock_method) (ctx : mbox_lock_context)
    (lt : lock_kind) (max_wait_time : Z) (st : state OS)
    : result (Z * mbox_lock_context * state OS) :=
  match t with
  | MBOX_LOCK_DOTLOCK => mbox_lock_dotlock ctx lt max_wait_time st
  | MBOX_LOCK_FCNTL => mbox_lock_fcntl ctx lt max_wait_time st
  | MBOX_LOCK_FLOCK =>
      if Config.have_flock build then mbox_lock_flock ctx lt max_wait_time st
      else NullFunction
  | MBOX_LOCK_LOCKF =>
      if Config.have_lockf build then mbox_lock_lockf ctx lt max_wait_time st
      else NullFunction
  end.

(** ** The ordered walk *)

(** The call [lock_data[type].func(ctx, lock_type, max_wait_time)] of the
    loop, put on record. *)
Definition invoke (t : mbox_lock_method) (ctx : mbox_lock_context)
    (lt : lock_kind) (max_wait_time : Z) (st : state OS)
    : result (Z * mbox_lock_context * state OS) :=
  lock_data_func t ctx lt max_wait_time (emit (EvBackend t lt max_wait_time) st).

(** The loop of [mbox_lock_list]; [lock_types] is the array from index [i]
    on, [ret] the value of the variable of that name. *)
Fixpoint lock_list_loop (lock_types : list slot) (lt : lock_kind)
    (max_wait_time : Z) (ret : Z) (ctx : mbox_lock_context) (st : state OS)
    : result (Z * mbox_lock_context * state OS) :=
  match lock_types with
  | [] => OutOfBounds
  | None :: _ => Ok (ret, ctx, st)
  | Some type :: rest =>
      let status := negb (lock_kind_eqb lt F_UNLCK) in
      if Bool.eqb (lock_status ctx type) status then
        lock_list_loop rest lt max_wait_time ret ctx st
      else
        let ctx1 := set_lock_status ctx (set_status (lock_status ctx) type status) in
        '(r, ctx2, st2) <- invoke type ctx1 lt max_wait_time st ;;
        if r <=? 0 then Ok (r, ctx2, st2)
        else lock_list_loop rest lt max_wait_time r ctx2 st2
  end.

Definition select_locks (lt : lock_kind) (i : index_mailbox) : list slot :=
  if (lock_kind_eqb lt F_WRLCK
      || (lock_kind_eqb lt F_UNLCK && lock_kind_eqb (mbox_lock_type i) F_WRLCK))%bool
  then Config.write_locks cfg else Config.read_locks cfg.

Definition mbox_lock_list_body (ctx : mbox_lock_context) (lt : lock_kind)
    (max_wait_time : Z) (idx : nat) (st : state OS)
    : result (Z * mbox_lock_context * state OS) :=
  let ctx0 := set_ctx_lock_type ctx lt in
  let lock_types := select_locks lt (ibox st) in
  lock_list_loop (skipn idx lock_types) lt max_wait_time 0 ctx0 st.

End Level.

(** [mbox_lock_list]; [n] bounds the retries of a backend and how deep the
    callback of the dotlock calls back into the walk. *)
Fixpoint mbox_lock_list (n : nat) (ctx : mbox_lock_context) (lt : lock_kind)
    (max_wait_time : Z) (idx : nat) (st : state OS)
    : result (Z * mbox_lock_context * state OS) :=
  match n with
  | O => OutOfFuel
  | S n' => mbox_lock_list_body (mbox_lock_list n') n ctx lt max_wait_time idx st
  end.

(** ** Promotion, demotion and full release *)

Definition mbox_unlock_files (n : nat) (ctx : mbox_lock_context) (st : state OS)
    : result (Z * mbox_lock_context * state OS) :=
  '(r, ctx1, st1) <- mbox_lock_list n ctx F_UNLCK 0 0 st ;;
  let ret := if r <? 0 then -1 else 0 in
  let st2 := mbox_file_close_stream st1 in
  let st3 := with_ibox st2 (set_lock_id (ibox st2) (uint (mbox_lock_id (ibox st2) + 2))) in
  let st4 := with_ibox st3 (set_lock_type (ibox st3) F_UNLCK) in
  Ok (ret, ctx1, st4).

(** [for (i = 0; locks[i] != -1; i++) ctx.lock_status[locks[i]] = v] *)
Fixpoint mark_listed (locks : list slot) (v : bool)
    (status : mbox_lock_method -> bool) : result (mbox_lock_method -> bool) :=
  match locks with
  | [] => OutOfBounds
  | None :: _ => Ok status
  | Some t :: rest => mark_listed rest v (set_status status t v)
  end.

(** [mbox_update_locking] once the settings are there. *)
Definition update_locking (n : nat) (lt : lock_kind) (st : state OS)
    : result (Z * state OS) :=
  let (now, o) := sys_time M (os st) in
  let st := with_os st o in
  let max_wait_time := now + Config.lock_timeout cfg in
  let ctx := ctx_zero in
  '(ctx, drop_locks) <-
    (if lock_kind_eqb (mbox_lock_type (ibox st)) F_WRLCK then
       status <- mark_listed (Config.read_locks cfg) false (fun _ => true) ;;
       Ok (set_lock_status ctx status, true)
     else Ok (ctx, false)) ;;
  let st := with_ibox st (set_lock_type (ibox st) lt) in
  '(ret, ctx, st) <- mbox_lock_list n ctx lt max_wait_time 0 st ;;
  if ret <=? 0 then
    st <- (if negb drop_locks
           then '(_, _, st') <- mbox_unlock_files n ctx st ;; Ok st'
           else Ok st) ;;
    let st := if ret =? 0
              then mail_storage_set_error "Timeout while waiting for lock" st
              else st in
    Ok (ret, st)
  else if drop_locks : bool then
    status <- mark_listed (Config.write_locks cfg) true (fun _ => false) ;;
    status <- mark_listed (Config.read_locks cfg) false status ;;
    let ctx := set_lock_status ctx status in
    let st := with_ibox st (set_lock_type (ibox st) F_WRLCK) in
    '(_, _, st) <- mbox_lock_list n ctx F_UNLCK 0 0 st ;;
    let st := with_ibox st (set_lock_type (ibox st) F_RDLCK) in
    Ok (1, st)
  else Ok (1, st).

End Model.

(** ** The caller's interface *)

(** The static variables of the file. *)
Record globals : Type := {
  lock_settings_initialized : bool;
  lock_settings : Config.settings
}.

Definition globals_zero : globals :=
  {| lock_settings_initialized := false;
     lock_settings := {| Config.read_locks := zero_locks;
                         Config.write_locks := zero_locks;
                         Config.lock_timeout := 0;
                         Config.dotlock_change_timeout := 0 |} |}.

Section Api.

Context {OS : Type}.
Variable M : os_ops OS.
Variable build : Config.build.
Variable env : Config.environment.

Definition mbox_update_locking (n : nat) (g : globals) (lt : lock_kind)
    (st : state OS) : result (Z * globals * state OS) :=
  let st := emit EvNotifyReset st in
  g <- (if negb (lock_settings_initialized g) then
          cfg <- Config.mbox_init_lock_settings build env ;;
          Ok {| lock_settings_initialized := true; lock_settings := cfg |}
        else Ok g) ;;
  '(ret, st) <- update_locking M build (lock_settings g) n lt st ;;
  Ok (ret, g, st).

(** [mbox_lock]; the second component is what was stored in [*lock_id_r],
    if anything. *)
Definition mbox_lock (n : nat) (g : globals) (lt : lock_kind) (st : state OS)
    : result (Z * option Z * globals * state OS) :=
  _ <- i_assert (lock_kind_eqb lt F_RDLCK || lock_kind_eqb lt F_WRLCK)
         AssertLockTypeArg ;;
  _ <- i_assert (lock_kind_eqb lt F_RDLCK
                 || negb (lock_kind_eqb (mbox_lock_type (ibox st)) F_RDLCK))
         AssertNoUpgrade ;;
  '(acquired, g, st) <-
    (if lock_kind_eqb (mbox_lock_type (ibox st)) F_UNLCK then
       '(ret, g, st) <- mbox_update_locking n g lt st ;;
       if ret <=? 0 then Ok (inl ret, g, st)
       else Ok (inr tt, g,
                with_ibox st (set_lock_id (ibox st) (uint (mbox_lock_id (ibox st) + 2))))
     else Ok (inr tt, g, st)) ;;
  match acquired with
  | inl ret => Ok (ret, None, g, st)
  | inr _ =>
      if lock_kind_eqb lt F_RDLCK then
        Ok (1, Some (mbox_lock_id (ibox st)), g,
            with_ibox st (set_shared_locks (ibox st)
                            (uint (mbox_shared_locks (ibox st) + 1))))
      else
        Ok (1, Some (uint (mbox_lock_id (ibox st) + 1)), g,
            with_ibox st (set_excl_locks (ibox st)
                            (uint (mbox_excl_locks (ibox st) + 1))))
  end.

Definition all_gone (n : nat) (g : globals) (st : state OS)
    : result (Z * globals * state OS) :=
  let ctx := set_lock_status ctx_zero (fun _ => true) in
  '(ret, _, st) <- mbox_unlock_files M build (lock_settings g) n ctx st ;;
  Ok (ret, g, st).

Definition mbox_unlock (n : nat) (g : globals) (lock_id : Z) (st : state OS)
    : result (Z * globals * state OS) :=
  _ <- i_assert (mbox_lock_id (ibox st) =? Z.land lock_id (uint (Z.lnot 1)))
         AssertLockId ;;
  if negb (Z.land lock_id 1 =? 0) then
    _ <- i_assert (mbox_excl_locks (ibox st) >? 0) AssertExclLocks ;;
    let st := with_ibox st (set_excl_locks (ibox st)
                              (uint (mbox_excl_locks (ibox st) - 1))) in
    if mbox_excl_locks (ibox st) >? 0 then Ok (0, g, st)
    else if mbox_shared_locks (ibox st) >? 0 then
      '(ret, g, st) <- mbox_update_locking n g F_RDLCK st ;;
      if ret <? 0 then Ok (-1, g, st) else Ok (0, g, st)
    else all_gone n g st
  else
    _ <- i_assert (mbox_shared_locks (ibox st) >? 0) AssertSharedLocks ;;
    let st := with_ibox st (set_shared_locks (ibox st)
                              (uint (mbox_shared_locks (ibox st) - 1))) in
    if mbox_shared_locks (ibox st) >? 0 then Ok (0, g, st)
    else if mbox_excl_locks (ibox st) >? 0 then Ok (0, g, st)
    else all_gone n g st.

End Api.

(** ** Notions the statements are written with *)

(** [l1] is an ordered subsequence of [l2]. *)
Inductive Subseq {A : Type} : list A -> list A -> Prop :=
| Subseq_nil l : Subseq [] l
| Subseq_take x l1 l2 : Subseq l1 l2 -> Subseq (x :: l1) (x :: l2)
| Subseq_skip x l1 l2 : Subseq l1 l2 -> Subseq l1 (x :: l2).

(** The names [toks] are known, compiled in and pairwise different, and [l]
    is the list of the lock methods they name. *)
Definition valid_methods (b : Config.build) (toks : list string)
    (l : list mbox_lock_method) : Prop :=
  Forall2 (fun tok t =>
             Config.find_lock_data (Config.lock_data b) tok = Some (t, true))
          toks l
  /\ NoDup l.

(** A static array holding the list [l]: its entries, the terminator and
    whatever follows. *)
Definition holds_list (a : list slot) (l : list mbox_lock_method) : Prop :=
  exists pad, a = map Some l ++ None :: pad.

(** The names a process reads its two lists from. *)
Definition read_tokens (e : Config.environment) : list string :=
  match Config.MBOX_READ_LOCKS e with
  | Some s => s | None => Config.DEFAULT_READ_LOCK_METHODS end.

Definition write_tokens (e : Config.environment) : list string :=
  match Config.MBOX_WRITE_LOCKS e with
  | Some s => s | None => Config.DEFAULT_WRITE_LOCK_METHODS end.

(** What [mbox_lock] and [mbox_unlock] keep about the locks of a mailbox:
    the lock type held, the lock id and the two counters. *)
Definition handle (i : index_mailbox) : lock_kind * Z * Z * Z :=
  (mbox_lock_type i, mbox_lock_id i, mbox_shared_locks i, mbox_excl_locks i).

(** The invariant of the handle: no lock type exactly when both counters
    are zero, and [F_WRLCK] only while the exclusive counter is positive. *)
Definition handle_invariant (i : index_mailbox) : Prop :=
  (mbox_lock_type i = F_UNLCK <->
   mbox_shared_locks i = 0 /\ mbox_excl_locks i = 0)
  /\ (mbox_lock_type i = F_WRLCK -> mbox_excl_locks i > 0).

(** A mailbox nobody has locked yet. *)
Definition fresh (i : index_mailbox) : Prop :=
  mbox_lock_type i = F_UNLCK /\ mbox_shared_locks i = 0 /\ mbox_excl_locks i = 0.

(** The calls a user of the interface makes. *)
Inductive op : Type :=
| OpLock (lt : lock_kind)
| OpUnlock (lock_id : Z).

Section Runs.

Context {OS : Type}.
Variable M : os_ops OS.
Variable build : Config.build.
Variable env : Config.environment.

(** One call; its return value and the lock id it stored, if any. *)
Definition call (n : nat) (o : op) (g : globals) (st : state OS)
    : result (Z * option Z * globals * state OS) :=
  match o with
  | OpLock lt => mbox_lock M build env n g lt st
  | OpUnlock lock_id =>
      '(r, g', st') <- mbox_unlock M build env n g lock_id st ;;
      Ok (r, None, g', st')
  end.

(** A sequence of calls, each one returning. *)
Fixpoint run (n : nat) (ops : list op) (g : globals) (st : state OS)
    : result (globals * state OS) :=
  match ops with
  | [] => Ok (g, st)
  | o :: rest =>
      '(_, _, g', st') <- call n o g st ;;
      run n rest g' st'
  end.


End Runs.


(** The invariant the interface keeps, with a bound [k] on the counters:
    it also tells that the exclusive counter is positive only under
    [F_WRLCK]. *)
Definition counted_invariant (k : Z) (i : index_mailbox) : Prop :=
  0 <= mbox_shared_locks i <= k
  /\ 0 <= mbox_excl_locks i <= k
  /\ (mbox_lock_type i = F_UNLCK <->
      mbox_shared_locks i = 0 /\ mbox_excl_locks i = 0)
  /\ (mbox_lock_type i = F_WRLCK <-> mbox_excl_locks i > 0).

(** *** The ordered walk as the specification words it

    Section 4.3 of the specification, over the two orders as plain lists
    and an [apply] for the backends: choose the write order when the
    request is exclusive, or a release while the last level of the handle
    was exclusive, and the read order otherwise; from [start_index] on,
    skip a backend whose recorded held-state is already the wanted one,
    otherwise record the new held-state and invoke the backend; stop at the
    first result that is not a success and hand it on. *)

Section SpecWalk.

Context {OS : Type}.
Variable apply :
  mbox_lock_method -> mbox_lock_context -> lock_kind -> Z -> state OS ->
  result (Z * mbox_lock_context * state OS).

Fixpoint spec_walk (order : list mbox_lock_method) (requested : lock_kind)
    (deadline : Z) (last : Z) (session : mbox_lock_context) (st : state OS)
    : result (Z * mbox_lock_context * state OS) :=
  match order with
  | [] => Ok (last, session, st)
  | id :: rest =>
      let should_be_held := negb (lock_kind_eqb requested F_UNLCK) in
      if Bool.eqb (lock_status session id) should_be_held then
        spec_walk rest requested deadline last session st
      else
        let session1 :=
          set_lock_status session
            (set_status (lock_status session) id should_be_held) in
        '(r, session2, st2) <- apply id session1 requested deadline st ;;
        if r <=? 0 then Ok (r, session2, st2)
        else spec_walk rest requested deadline r session2 st2
  end.

Definition spec_order (read_order write_order : list mbox_lock_method)
    (requested last_level : lock_kind) : list mbox_lock_method :=
  match requested, last_level with
  | F_WRLCK, _ => write_order
  | F_UNLCK, F_WRLCK => write_order
  | _, _ => read_order
  end.

Definition spec_acquire_or_release (read_order write_order : list mbox_lock_method)
    (session : mbox_lock_context) (requested : lock_kind) (deadline : Z)
    (start_index : nat) (st : state OS)
    : result (Z * mbox_lock_context * state OS) :=
  spec_walk
    (skipn start_index
       (spec_order read_order write_order requested (mbox_lock_type (ibox st))))
    requested deadline 0 (set_ctx_lock_type session requested) st.

End SpecWalk.

(** The backend calls on record in a log. *)
Fixpoint backend_calls (l : list event) : list (mbox_lock_method * lock_kind * Z) :=
  match l with
  | [] => []
  | EvBackend t k m :: r => (t, k, m) :: backend_calls r
  | _ :: r => backend_calls r
  end.

(** The backends of [l] a walk has to call to bring every status to
    [wanted], in the order of the calls. *)
Fixpoint pending (wanted : bool) (status : mbox_lock_method -> bool)
    (l : list mbox_lock_method) : list mbox_lock_method :=
  match l with
  | [] => []
  | t :: r =>
      if Bool.eqb (status t) wanted then pending wanted status r
      else t :: pending wanted (set_status status t wanted) r
  end.

(** [st'] comes after [st] without a backend call on record and with the
    same dotlock. *)
Definition quiet {OS} (st st' : state OS) : Prop :=
  mbox_dotlock_ino (ibox st') = mbox_dotlock_ino (ibox st)
  /\ exists evs, log st' = log st ++ evs /\ backend_calls evs = [].

Definition all_methods : list mbox_lock_method :=
  [MBOX_LOCK_DOTLOCK; MBOX_LOCK_FCNTL; MBOX_LOCK_FLOCK; MBOX_LOCK_LOCKF].

(** The three results of a backend and of a pass: locked or released (1),
    timed out (0), failed (-1). *)
Definition is_lock_result (r : Z) : Prop := r = 1 \/ r = 0 \/ r = -1.

(** A run that fails no assertion. *)
Definition no_panic {A : Type} (m : result A) : Prop := forall a, m <> Panic a.

(** ** Concrete configurations and systems, for examples *)

Definition full_build : Config.build :=
  {| Config.have_flock := true; Config.have_lockf := true |}.

Definition env_of (r w : list string) : Config.environment :=
  {| Config.MBOX_READ_LOCKS := Some r;
     Config.MBOX_WRITE_LOCKS := Some w;
     Config.MBOX_LOCK_TIMEOUT := None;
     Config.MBOX_DOTLOCK_CHANGE_TIMEOUT := None |}.

Definition env_default : Config.environment :=
  {| Config.MBOX_READ_LOCKS := None;
     Config.MBOX_WRITE_LOCKS := None;
     Config.MBOX_LOCK_TIMEOUT := None;
     Config.MBOX_DOTLOCK_CHANGE_TIMEOUT := None |}.

(** A system whose lock calls answer from a script, the head first, and
    succeed once the script is used up; the [errno] values are those of
    Linux.  Its clock shows 1000, the mailbox file is inode 1 of device 1
    and opens as descriptor 3, and the dotlock is created at once, as inode
    7, without a callback. *)
Definition script : Type := list sysret.

Definition pop (s : script) : sysret * script :=
  match s with
  | [] => (Success, [])
  | r :: s' => (r, s')
  end.

Definition script_ops : os_ops script :=
  {| EWOULDBLOCK := 11;
     EAGAIN := 11;
     EACCES := 13;
     EINTR := 4;
     sys_time := fun s => (1000, s);
     sys_stat := fun s => (Some (1, 1), s);
     sys_flock := fun _ _ s => pop s;
     sys_lockf := fun _ _ s => pop s;
     sys_fcntl := fun _ _ _ s => pop s;
     sys_alarm := fun _ s => s;
     sys_usleep := fun s => s;
     file_open := fun s => (Some (3, 1, 1), s);
     file_close := fun _ s => s;
     file_close_stream := fun s => s;
     file_unlock_dotlock := fun _ s => (1, s);
     file_lock_dotlock := fun _ _ _ s => DotlockReturn 1 7 s |}.

(** A mailbox whose file is open and which holds no lock. *)
Definition ibox_unlocked : index_mailbox :=
  {| mbox_fd := 3; mbox_ino := 1; mbox_dev := 1;
     mbox_dotlock_ino := 0;
     mbox_lock_type := F_UNLCK;
     mbox_lock_id := 0;
     mbox_shared_locks := 0;
     mbox_excl_locks := 0 |}.

Definition start (s : script) : state script :=
  Build_state ibox_unlocked s [].

(** The settings of a process that sets neither list. *)
Definition default_settings : Config.settings :=
  {| Config.read_locks := [Some MBOX_LOCK_FCNTL; None; Some MBOX_LOCK_DOTLOCK;
                           Some MBOX_LOCK_DOTLOCK; Some MBOX_LOCK_DOTLOCK];
     Config.write_locks := [Some MBOX_LOCK_DOTLOCK; Some MBOX_LOCK_FCNTL; None;
                            Some MBOX_LOCK_DOTLOCK; Some MBOX_LOCK_DOTLOCK];
     Config.lock_timeout := 600;
     Config.dotlock_change_timeout := 300 |}.

(** Settings with three methods in the write list. *)
Definition env_three : Config.environment :=
  env_of ["fcntl"%string] ["fcntl"%string; "flock"%string; "lockf"%string].

Definition initialized (cfg : Config.settings) : globals :=
  {| lock_settings_initialized := true; lock_settings := cfg |}.


(** The scripted system with a dotlock file that is there and looks stale
    at once: [file_lock_dotlock] calls the callback with [stale] set,
    overrides the file when the callback agrees and gives up otherwise. *)
Definition stale_ops : os_ops script :=
  {| EWOULDBLOCK := 11;
     EAGAIN := 11;
     EACCES := 13;
     EINTR := 4;
     sys_time := fun s => (1000, s);
     sys_stat := fun s => (Some (1, 1), s);
     sys_flock := fun _ _ s => pop s;
     sys_lockf := fun _ _ s => pop s;
     sys_fcntl := fun _ _ _ s => pop s;
     sys_alarm := fun _ s => s;
     sys_usleep := fun s => s;
     file_open := fun s => (Some (3, 1, 1), s);
     file_close := fun _ s => s;
     file_close_stream := fun s => s;
     file_unlock_dotlock := fun _ s => (1, s);
     file_lock_dotlock := fun _ _ _ s =>
       DotlockCallback 10 1 s
         (fun r s' => if r =? 0 then DotlockReturn 0 0 s'
                      else DotlockReturn 1 7 s') |}.

(** The scripted system with a dotlock file that another process keeps:
    [file_lock_dotlock] gives up at once when its timeout is 0, and
    otherwise reports the wait to the callback, with the whole timeout
    left, before it gives up. *)
Definition contended_dotlock_ops : os_ops script :=
  {| EWOULDBLOCK := 11;
     EAGAIN := 11;
     EACCES := 13;
     EINTR := 4;
     sys_time := fun s => (1000, s);
     sys_stat := fun s => (Some (1, 1), s);
     sys_flock := fun _ _ s => pop s;
     sys_lockf := fun _ _ s => pop s;
     sys_fcntl := fun _ _ _ s => pop s;
     sys_alarm := fun _ s => s;
     sys_usleep := fun s => s;
     file_open := fun s => (Some (3, 1, 1), s);
     file_close := fun _ s => s;
     file_close_stream := fun s => s;
     file_unlock_dotlock := fun _ s => (1, s);
     file_lock_dotlock := fun timeout _ _ s =>
       if timeout =? 0 then DotlockReturn 0 0 s
       else DotlockCallback timeout 0 s (fun _ s' => DotlockReturn 0 0 s') |}.

(** A mailbox with one shared lock, taken under lock id 2. *)
Definition ibox_shared : index_mailbox :=
  set_shared_locks (set_lock_id (set_lock_type ibox_unlocked F_RDLCK) 2) 1.

(** Settings whose write list is [first dotlock]: the array as
    [mbox_read_lock_methods] leaves it in zero-initialised memory. *)
Definition settings_before_dotlock (first : mbox_lock_method) : Config.settings :=
  {| Config.read_locks := [Some first; None; Some MBOX_LOCK_DOTLOCK;
                           Some MBOX_LOCK_DOTLOCK; Some MBOX_LOCK_DOTLOCK];
     Config.write_locks := [Some first; Some MBOX_LOCK_DOTLOCK; None;
                            Some MBOX_LOCK_DOTLOCK; Some MBOX_LOCK_DOTLOCK];
     Config.lock_timeout := 600;
     Config.dotlock_change_timeout := 300 |}.

(** The lock context inside the dotlock backend during an exclusive lock
    with such settings: the status of [first] and of the dotlock are set. *)
Definition ctx_before_dotlock (first : mbox_lock_method) (last_stale : Z)
    : mbox_lock_context :=
  {| lock_status := set_status (set_status (fun _ => false) first true)
                      MBOX_LOCK_DOTLOCK true;
     checked_file := true;
     lock_type := F_WRLCK;
     dotlock_last_stale := last_stale |}.

(** The scripted system with a dotlock file that another process holds and
    that goes stale while [file_lock_dotlock] waits: the callback is told
    not stale first and stale then; the file is overridden when the callback
    agrees. *)
Definition going_stale_ops : os_ops script :=
  {| EWOULDBLOCK := 11;
     EAGAIN := 11;
     EACCES := 13;
     EINTR := 4;
     sys_time := fun s => (1000, s);
     sys_stat := fun s => (Some (1, 1), s);
     sys_flock := fun _ _ s => pop s;
     sys_lockf := fun _ _ s => pop s;
     sys_fcntl := fun _ _ _ s => pop s;
     sys_alarm := fun _ s => s;
     sys_usleep := fun s => s;
     file_open := fun s => (Some (3, 1, 1), s);
     file_close := fun _ s => s;
     file_close_stream := fun s => s;
     file_unlock_dotlock := fun _ s => (1, s);
     file_lock_dotlock := fun _ _ _ s =>
       DotlockCallback 20 0 s
         (fun _ s1 =>
            DotlockCallback 10 1 s1
              (fun r s2 => if r =? 0 then DotlockReturn 0 0 s2
                           else DotlockReturn 1 7 s2)) |}.




(** ** Properties *)

Lemma lock_kind_eqb_eq a b : lock_kind_eqb a b = true <-> a = b.
Proof. destruct a, b; simpl; split; congruence. Qed.

Lemma type_eqb_eq a b : type_eqb a b = true <-> a = b.
Proof. destruct a, b; simpl; split; congruence. Qed.

Lemma type_eqb_refl a : type_eqb a a = true.
Proof. now destruct a. Qed.

Lemma type_eqb_neq a b : type_eqb a b = false <-> a <> b.
Proof. destruct a, b; simpl; split; congruence. Qed.

(** *** Configuration *)

Section ConfigFacts.

Import Config.

Lemma all_methods_complete (t : mbox_lock_method) : In t all_methods.
Proof. destruct t; simpl; auto. Qed.

Lemma NoDup_methods_length (l : list mbox_lock_method) :
  NoDup l -> (length l <= 4)%nat.
Proof.
  intros H.
  apply (NoDup_incl_length H (l' := all_methods)).
  intros t _. apply all_methods_complete.
Qed.

Lemma array_set_app {A : Type} (pre : list A) (x v : A) (pad : list A) :
  array_set (pre ++ x :: pad) (length pre) v = Some (pre ++ v :: pad).
Proof.
  induction pre as [|y pre IH]; simpl; [reflexivity|].
  now rewrite IH.
Qed.

Lemma array_set_map_app (pre : list mbox_lock_method) (x v : slot) pad :
  array_set (map Some pre ++ x :: pad) (length pre) v
  = Some (map Some pre ++ v :: pad).
Proof. rewrite <- (length_map Some pre). apply array_set_app. Qed.

Lemma seen_before_In (pre : list mbox_lock_method) (pad : list slot) ty :
  seen_before (map Some pre ++ pad) (length pre) ty = true <-> In ty pre.
Proof.
  induction pre as [|y pre IH]; simpl.
  - destruct pad; simpl; split; (discriminate || tauto).
  - rewrite Bool.orb_true_iff, IH, type_eqb_eq. tauto.
Qed.

(** The token loop writes the methods after the ones it has written, then
    the terminator; it fails exactly when the names are not valid, and
    never leaves the array. *)
Lemma read_lock_methods_loop_spec b env toks :
  forall (pre : list mbox_lock_method) (pad : list slot),
    NoDup pre -> length (map Some pre ++ pad) = 5%nat ->
    match read_lock_methods_loop b env toks (map Some pre ++ pad) (length pre) with
    | Ok a => exists l, Forall2 (fun tok t =>
                          find_lock_data (lock_data b) tok = Some (t, true)) toks l
                        /\ NoDup (pre ++ l) /\ holds_list a (pre ++ l)
    | Fatal _ => ~ exists l, Forall2 (fun tok t =>
                          find_lock_data (lock_data b) tok = Some (t, true)) toks l
                        /\ NoDup (pre ++ l)
    | _ => False
    end.
Proof.
  induction toks as [|tok rest IH]; intros pre pad Hnd Hlen;
    cbn [read_lock_methods_loop].
  - assert (Hpad : pad <> []).
    { intros Hp; subst pad. rewrite app_nil_r, length_map in Hlen.
      apply NoDup_methods_length in Hnd. lia. }
    destruct pad as [|x pad]; [congruence|].
    rewrite array_set_map_app.
    exists []. rewrite app_nil_r. repeat split; auto.
    now exists pad.
  - destruct (find_lock_data (lock_data b) tok) as [[ty [|]]|] eqn:Hfind.
    + destruct (seen_before (map Some pre ++ pad) (length pre) ty) eqn:Hseen.
      * apply seen_before_In in Hseen.
        intros (l & HF & Hnd').
        inversion HF as [|? t ? l' Ht HF']; subst.
        rewrite Hfind in Ht. injection Ht as <-.
        apply NoDup_remove_2 in Hnd'. apply Hnd'.
        apply in_or_app; auto.
      * assert (Hnin : ~ In ty pre).
        { intros Hin. apply seen_before_In with (pad := pad) in Hin. congruence. }
        assert (Hnd1 : NoDup (pre ++ [ty])).
        { apply NoDup_app; auto.
          - constructor; [intros []| constructor].
          - intros x Hx [<-|[]]. auto. }
        assert (Hpad : pad <> []).
        { intros Hp; subst pad. rewrite app_nil_r, length_map in Hlen.
          apply NoDup_methods_length in Hnd. lia. }
        destruct pad as [|x pad]; [congruence|].
        rewrite array_set_map_app.
        assert (Harr : map Some (pre ++ [ty]) ++ pad
                       = map Some pre ++ Some ty :: pad).
        { rewrite map_app, <- app_assoc. reflexivity. }
        assert (Hl : length (pre ++ [ty]) = S (length pre)).
        { rewrite length_app. cbn [length]. lia. }
        assert (Hlen' : length (map Some pre ++ Some ty :: pad) = 5%nat).
        { rewrite length_app in Hlen |- *. cbn [length] in Hlen |- *. exact Hlen. }
        specialize (IH (pre ++ [ty]) pad Hnd1).
        rewrite Harr, Hl in IH. specialize (IH Hlen').
        cbv beta iota.
        match type of IH with
        | match ?X with _ => _ end =>
            match goal with
            | |- match ?Y with _ => _ end => change Y with X; destruct X; auto
            end
        end.
        -- destruct IH as (l & HF & Hnd' & Hh).
           rewrite <- app_assoc in Hnd', Hh. cbn [app] in Hnd', Hh.
           exists (ty :: l). repeat split; auto.
        -- intros (l & HF & Hnd'). apply IH.
           inversion HF as [|? t ? l' Ht HF']; subst.
           rewrite Hfind in Ht. injection Ht as <-.
           exists l'. rewrite <- app_assoc. auto.
    + intros (l & HF & _).
      inversion HF as [|? t ? l' Ht HF']; subst. congruence.
    + intros (l & HF & _).
      inversion HF as [|? t ? l' Ht HF']; subst. congruence.
Qed.

Lemma Subseq_drop_head {A} (x : A) l1 l2 : Subseq (x :: l1) l2 -> Subseq l1 l2.
Proof.
  intros H. remember (x :: l1) as l eqn:E. revert x l1 E.
  induction H as [l|y l1' l2' H IH|y l1' l2' H IH]; intros x l1 E.
  - discriminate.
  - injection E as -> ->. now apply Subseq_skip.
  - apply Subseq_skip. eapply IH; eauto.
Qed.

Lemma Subseq_cons_inv {A} (x : A) l1 l2 :
  Subseq (x :: l1) (x :: l2) -> Subseq l1 l2.
Proof.
  inversion 1; subst; auto. eapply Subseq_drop_head; eauto.
Qed.

Lemma Subseq_nil_r {A} (l : list A) : Subseq l [] -> l = [].
Proof. now inversion 1. Qed.

(** The order check walks both arrays greedily: it ends on the terminator
    of the read array exactly when the read list is an ordered subsequence
    of the write list, and never leaves an array. *)
Lemma order_loop_spec (wl : list mbox_lock_method) :
  forall (rl : list mbox_lock_method) (pr pw : list slot),
    (order_loop (map Some rl ++ None :: pr) (map Some wl ++ None :: pw) = Some None
     /\ Subseq rl wl)
    \/ (exists t, order_loop (map Some rl ++ None :: pr)
                    (map Some wl ++ None :: pw) = Some (Some t)
                 /\ ~ Subseq rl wl).
Proof.
  induction wl as [|w wl IH]; intros rl pr pw.
  - destruct rl as [|r rl]; cbn.
    + left. split; [reflexivity | constructor].
    + right. exists r. split; [reflexivity|].
      intros H. apply Subseq_nil_r in H. discriminate.
  - destruct rl as [|r rl].
    + left. split; [reflexivity | constructor].
    + cbn [map app order_loop].
      destruct (type_eqb r w) eqn:E.
      * apply type_eqb_eq in E. subst w.
        destruct (IH rl pr pw) as [[H1 H2]|(t & H1 & H2)].
        -- left. split; [exact H1 | now constructor].
        -- right. exists t. split; [exact H1|].
           intros H. apply H2. eapply Subseq_cons_inv; eauto.
      * apply type_eqb_neq in E.
        destruct (IH (r :: rl) pr pw) as [[H1 H2]|(t & H1 & H2)].
        -- left. split; [exact H1 | now constructor].
        -- right. exists t. split; [exact H1|].
           intros H. inversion H; subst; congruence.
Qed.

Lemma Forall2_functional (b : build) toks l l' :
  Forall2 (fun tok t => find_lock_data (lock_data b) tok = Some (t, true)) toks l ->
  Forall2 (fun tok t => find_lock_data (lock_data b) tok = Some (t, true)) toks l' ->
  l = l'.
Proof.
  intros H. revert l'.
  induction H as [|tok t toks l Ht H IH]; intros l2 H'; inversion H'; subst; auto.
  f_equal; auto. congruence.
Qed.

(** What [mbox_read_lock_methods] does with a zero array. *)
Lemma mbox_read_lock_methods_spec b toks env :
  match mbox_read_lock_methods b toks env zero_locks with
  | Ok a => exists l, valid_methods b toks l /\ holds_list a l
  | Fatal _ => ~ exists l, valid_methods b toks l
  | _ => False
  end.
Proof.
  unfold mbox_read_lock_methods.
  pose proof (read_lock_methods_loop_spec b env toks [] zero_locks
                (NoDup_nil _) eq_refl) as H.
  cbn [map app length] in H.
  destruct (read_lock_methods_loop b env toks zero_locks 0); auto.
  destruct H as (l & HF & Hnd & Hh). exists l. repeat split; auto.
Qed.

(** Initialisation ends in settings or in a fatal error, and what its
    settings hold. *)
Lemma mbox_init_lock_settings_spec b e :
  match mbox_init_lock_settings b e with
  | Ok cfg =>
      exists rl wl,
        valid_methods b (read_tokens e) rl /\ valid_methods b (write_tokens e) wl
        /\ Subseq rl wl
        /\ holds_list (read_locks cfg) rl /\ holds_list (write_locks cfg) wl
  | Fatal _ =>
      ~ exists rl wl,
          valid_methods b (read_tokens e) rl /\ valid_methods b (write_tokens e) wl
          /\ Subseq rl wl
  | _ => False
  end.
Proof.
  unfold mbox_init_lock_settings. fold (read_tokens e) (write_tokens e).
  pose proof (mbox_read_lock_methods_spec b (read_tokens e)
                "MBOX_READ_LOCKS" ) as Hr.
  destruct (mbox_read_lock_methods b (read_tokens e) "MBOX_READ_LOCKS" zero_locks)
    as [ra| | | | |]; cbn [bind]; try tauto.
  2:{ intros (rl & wl & H & _). apply Hr. eauto. }
  pose proof (mbox_read_lock_methods_spec b (write_tokens e)
                "MBOX_WRITE_LOCKS" ) as Hw.
  destruct (mbox_read_lock_methods b (write_tokens e) "MBOX_WRITE_LOCKS" zero_locks)
    as [wa| | | | |]; cbn [bind]; try tauto.
  2:{ intros (rl & wl & _ & H & _). apply Hw. eauto. }
  destruct Hr as (rl & Hrv & pr & ->). destruct Hw as (wl & Hwv & pw & ->).
  destruct (order_loop_spec wl rl pr pw) as [[H1 H2]|(t & H1 & H2)]; rewrite H1.
  - exists rl, wl. cbn [read_locks write_locks].
    split; [exact Hrv|split; [exact Hwv|split; [exact H2|split; eexists; reflexivity]]].
  - intros (rl' & wl' & [Hr' _] & [Hw' _] & Hs).
    destruct Hrv as [Hrv _], Hwv as [Hwv _].
    rewrite (Forall2_functional _ _ _ _ Hr' Hrv) in Hs.
    rewrite (Forall2_functional _ _ _ _ Hw' Hwv) in Hs. auto.
Qed.

End ConfigFacts.

(** C4.  [mbox_init_lock_settings] accepts the two lists of names exactly
    when both are lists of known, compiled-in, pairwise different methods
    and the read list is an ordered subsequence of the write list; every
    other outcome is [i_fatal], which the first [mbox_update_locking] of the
    process runs into instead of returning.  Read [fcntl flock] with write
    [flock fcntl dotlock] is refused, with write [fcntl flock dotlock] it is
    accepted. *)
Theorem C4_lock_order_validation :
  (forall b e,
      ((exists cfg, Config.mbox_init_lock_settings b e = Ok cfg) <->
       (exists rl wl,
           valid_methods b (read_tokens e) rl
           /\ valid_methods b (write_tokens e) wl
           /\ Subseq rl wl))
      /\ ((exists cfg, Config.mbox_init_lock_settings b e = Ok cfg)
          \/ (exists err, Config.mbox_init_lock_settings b e = Fatal err)))
  /\ (forall OS (M : os_ops OS) b e n g lt st err,
         lock_settings_initialized g = false ->
         Config.mbox_init_lock_settings b e = Fatal err ->
         mbox_update_locking M b e n g lt st = Fatal err)
  /\ Config.mbox_init_lock_settings full_build
       (env_of ["fcntl"; "flock"] ["flock"; "fcntl"; "dotlock"])%string
     = Fatal FatalLockOrder
  /\ (exists cfg,
         Config.mbox_init_lock_settings full_build
           (env_of ["fcntl"; "flock"] ["fcntl"; "flock"; "dotlock"])%string
         = Ok cfg).
Proof.
  split; [|split; [|split]].
  - intros b e.
    pose proof (mbox_init_lock_settings_spec b e) as H.
    destruct (Config.mbox_init_lock_settings b e) as [cfg|err| | | |];
      try contradiction.
    + split; [split|left; eauto].
      * intros _. destruct H as (rl & wl & H1 & H2 & H3 & _). eauto.
      * eauto.
    + split; [split|right; eauto].
      * intros [cfg Hc]. discriminate.
      * intros Hex. contradiction.
  - intros OS M b e n g lt st err Hg Hinit.
    unfold mbox_update_locking. rewrite Hg, Hinit. reflexivity.
  - reflexivity.
  - eexists. reflexivity.
Qed.

Example default_settings_init :
  Config.mbox_init_lock_settings full_build env_default = Ok default_settings.
Proof. reflexivity. Qed.

(** *** The backends without a deadline *)

Lemma flock_loop_no_deadline {OS} (M : os_ops OS) n op st :
  flock_loop M (S n) op 0 st =
  let (r, o) := sys_flock M (mbox_fd (ibox st)) op (os st) in
  match r with
  | Success => Ok (1, with_os st o)
  | Failure errno =>
      if negb (errno =? EWOULDBLOCK M)
      then Ok (-1, mbox_set_syscall_error "flock()" (with_os st o))
      else Ok (0, with_os st o)
  end.
Proof.
  cbn [flock_loop]. destruct (sys_flock M (mbox_fd (ibox st)) op (os st)) as [[|e] o];
    [reflexivity|].
  destruct (negb (e =? EWOULDBLOCK M)); reflexivity.
Qed.

Lemma lockf_loop_no_deadline {OS} (M : os_ops OS) n cmd st :
  lockf_loop M (S n) cmd 0 st =
  let (r, o) := sys_lockf M (mbox_fd (ibox st)) cmd (os st) in
  match r with
  | Success => Ok (1, with_os st o)
  | Failure errno =>
      if negb (errno =? EAGAIN M)
      then Ok (-1, mbox_set_syscall_error "lockf()" (with_os st o))
      else Ok (0, with_os st o)
  end.
Proof.
  cbn [lockf_loop]. destruct (sys_lockf M (mbox_fd (ibox st)) cmd (os st)) as [[|e] o];
    [reflexivity|].
  destruct (negb (e =? EAGAIN M)); reflexivity.
Qed.

(** C3, as the code has it.  Asked to acquire with [max_wait_time = 0], the
    flock and the lockf backend make one attempt and return: 0 when the
    call fails with [EWOULDBLOCK] (flock) or [EAGAIN] (lockf).  The dotlock
    backend does not look at [max_wait_time]: whatever it is, the
    acquisition of a dotlock that is not held yet is one call of
    [file_lock_dotlock] with [lock_timeout], as the [unsigned int] it is
    converted to, for its timeout, and the result of that call decides. *)
Theorem C3_no_deadline_flock_lockf :
  forall OS (M : os_ops OS) n ctx lt st,
    lt <> F_UNLCK ->
    (exists res, mbox_lock_flock M (S n) ctx lt 0 st = Ok res)
    /\ (forall ctx1 st1 o,
           mbox_file_open_latest M ctx lt st = (0, ctx1, st1) ->
           sys_flock M (mbox_fd (ibox st1)) (flock_op_of lt) (os st1)
           = (Failure (EWOULDBLOCK M), o) ->
           mbox_lock_flock M (S n) ctx lt 0 st = Ok (0, ctx1, with_os st1 o))
    /\ (exists res, mbox_lock_lockf M (S n) ctx lt 0 st = Ok res)
    /\ (forall ctx1 st1 o,
           mbox_file_open_latest M ctx lt st = (0, ctx1, st1) ->
           sys_lockf M (mbox_fd (ibox st1)) F_TLOCK (os st1)
           = (Failure (EAGAIN M), o) ->
           mbox_lock_lockf M (S n) ctx lt 0 st = Ok (0, ctx1, with_os st1 o))
    /\ (forall cfg lock_list max_wait_time,
           mbox_lock_dotlock M cfg lock_list ctx lt max_wait_time st
           = mbox_lock_dotlock M cfg lock_list ctx lt 0 st)
    /\ (forall cfg lock_list max_wait_time,
           mbox_dotlock_ino (ibox st) = 0 ->
           mbox_lock_dotlock M cfg lock_list ctx lt max_wait_time st
           = ('(ret, ctx1, st1) <-
                run_dotlock lock_list
                  (file_lock_dotlock M (uint (Config.lock_timeout cfg))
                     (uint (Config.dotlock_change_timeout cfg)) 0 (os st))
                  (set_last_stale ctx (-1)) st ;;
              if ret <? 0 then
                Ok (-1, ctx1, mbox_set_syscall_error "file_lock_dotlock()" st1)
              else if ret =? 0 then
                Ok (0, ctx1,
                    mail_storage_set_error "Timeout while waiting for lock" st1)
              else
                let '(r, ctx2, st2) := mbox_file_open_latest M ctx1 lt st1 in
                if r <? 0 then Ok (-1, ctx2, st2) else Ok (1, ctx2, st2))).
Proof.
  intros OS M n ctx lt st Hlt.
  assert (Hk : lock_kind_eqb lt F_UNLCK = false) by (destruct lt; simpl; congruence).
  unfold mbox_lock_flock, mbox_lock_lockf.
  rewrite Hk. cbn [andb negb].
  destruct (mbox_file_open_latest M ctx lt st) as [[r ctx1] st1].
  rewrite flock_loop_no_deadline, lockf_loop_no_deadline.
  repeat split.
  - destruct (r <? 0); [eauto|].
    destruct (sys_flock M (mbox_fd (ibox st1)) (flock_op_of lt) (os st1)) as [[|e] o];
      cbn [bind]; [eauto|].
    destruct (negb (e =? EWOULDBLOCK M)); cbn [bind]; eauto.
  - intros ctx2 st2 o E Hsys. injection E as -> -> ->.
    cbn. rewrite Hsys, Z.eqb_refl. reflexivity.
  - destruct (r <? 0); [eauto|].
    destruct (sys_lockf M (mbox_fd (ibox st1)) F_TLOCK (os st1)) as [[|e] o];
      cbn [bind]; [eauto|].
    destruct (negb (e =? EAGAIN M)); cbn [bind]; eauto.
  - intros ctx2 st2 o E Hsys. injection E as -> -> ->.
    cbn. rewrite Hsys, Z.eqb_refl. reflexivity.
  - intros cfg lock_list mwt Hino. unfold mbox_lock_dotlock.
    rewrite Hk, Hino. reflexivity.
Qed.

Lemma C3_no_deadline_flock_lockf_witness :
  F_WRLCK <> F_UNLCK
  /\ mbox_lock_flock script_ops 1 ctx_zero F_WRLCK 0 (start [Failure 11])
     = Ok (0, set_checked_file ctx_zero true, start []).
Proof.
  split; [discriminate|].
  apply (proj1 (proj2 (C3_no_deadline_flock_lockf script script_ops 0 ctx_zero
                         F_WRLCK (start [Failure 11]) ltac:(discriminate)))
           (set_checked_file ctx_zero true) (start [Failure 11]) []);
    reflexivity.
Defined.

(** C3 as stated fails for two backends.  The dotlock backend called with
    [max_wait_time = 0] still gives [lock_timeout] to [file_lock_dotlock]:
    on a dotlock file kept by another process it waits, and the wait is
    reported with 600 seconds left.  The fcntl backend called with
    [max_wait_time = 0] on a lock held elsewhere ([F_SETLK] fails with
    [EAGAIN]) returns -1. *)
Lemma C3_dotlock_waits_fcntl_fails :
  (exists c,
      mbox_lock_dotlock contended_dotlock_ops default_settings
        (mbox_lock_list contended_dotlock_ops full_build default_settings 1)
        ctx_zero F_WRLCK 0 (start [])
      = Ok (0, c,
            Build_state ibox_unlocked []
              [EvNotify MAILBOX_LOCK_NOTIFY_MAILBOX_ABORT 600;
               EvStorageError "Timeout while waiting for lock"]))
  /\ sys_fcntl script_ops (mbox_fd ibox_unlocked) F_SETLK F_WRLCK [Failure 11]
     = (Failure (EAGAIN script_ops), [])
  /\ forall n,
      mbox_lock_fcntl script_ops (S n) ctx_zero F_WRLCK 0 (start [Failure 11])
      = Ok (-1, set_checked_file ctx_zero true, start []).
Proof.
  split; [eexists; vm_compute; reflexivity|].
  split; [reflexivity | intros n; reflexivity].
Qed.

(** The timeout reaches [file_lock_dotlock] as an [unsigned int]: with
    [MBOX_LOCK_TIMEOUT=-1] the wait for a dotlock that another process
    keeps is reported with 4294967295 seconds left. *)
Example dotlock_timeout_is_unsigned :
  exists c,
    mbox_lock_dotlock contended_dotlock_ops
      {| Config.read_locks := Config.read_locks default_settings;
         Config.write_locks := Config.write_locks default_settings;
         Config.lock_timeout := -1;
         Config.dotlock_change_timeout := 300 |}
      (mbox_lock_list contended_dotlock_ops full_build default_settings 1)
      ctx_zero F_WRLCK 0 (start [])
    = Ok (0, c,
          Build_state ibox_unlocked []
            [EvNotify MAILBOX_LOCK_NOTIFY_MAILBOX_ABORT 4294967295;
             EvStorageError "Timeout while waiting for lock"]).
Proof. eexists. vm_compute. reflexivity. Qed.

(** *** The backends leave the handle alone *)

Section Frame.

Context {OS : Type}.
Variable M : os_ops OS.
Variable build : Config.build.
Variable cfg : Config.settings.

Lemma mbox_file_open_latest_handle ctx lt st r ctx' st' :
  mbox_file_open_latest M ctx lt st = (r, ctx', st') ->
  handle (ibox st') = handle (ibox st).
Proof.
  unfold mbox_file_open_latest.
  destruct (checked_file ctx || lock_kind_eqb lt F_UNLCK)%bool.
  { intros E; injection E as <- <- <-; reflexivity. }
  match goal with
  | |- context [match ?c with inl _ => _ | inr _ => _ end] =>
      assert (Hc : match c with
                   | inl s | inr s => handle (ibox s) = handle (ibox st)
                   end);
        [| destruct c as [st1|st1]]
  end.
  { destruct (negb (mbox_fd (ibox st) =? -1)); [|reflexivity].
    destruct (sys_stat M (os st)) as [[[ino dev]|] o]; [|reflexivity].
    destruct (negb (ino =? mbox_ino (ibox st)) || negb (dev =? mbox_dev (ibox st)))%bool;
      reflexivity. }
  - unfold mbox_file_open.
    destruct (mbox_fd (ibox st1) =? -1).
    + destruct (file_open M (os st1)) as [[[[fd ino] dev]|] o]; cbn;
        intros E; injection E as <- <- <-; exact Hc.
    + intros E; injection E as <- <- <-; exact Hc.
  - intros E; injection E as <- <- <-; exact Hc.
Qed.

Lemma flock_loop_handle n op mwt st r st' :
  flock_loop M n op mwt st = Ok (r, st') ->
  handle (ibox st') = handle (ibox st).
Proof.
  revert st. induction n as [|n IH]; intros st; cbn [flock_loop]; [discriminate|].
  destruct (sys_flock M (mbox_fd (ibox st)) op (os st)) as [[|e] o].
  - intros E; injection E as <- <-; reflexivity.
  - destruct (negb (e =? EWOULDBLOCK M)); [intros E; injection E as <- <-; reflexivity|].
    destruct (mwt =? 0); [intros E; injection E as <- <-; reflexivity|].
    cbn [os with_os].
    destruct (sys_time M o) as [now o2].
    destruct (now >=? mwt); [intros E; injection E as <- <-; reflexivity|].
    intros E. apply IH in E. rewrite E.
    destruct (negb (now =? 0)); reflexivity.
Qed.

Lemma lockf_loop_handle n cmd mwt st r st' :
  lockf_loop M n cmd mwt st = Ok (r, st') ->
  handle (ibox st') = handle (ibox st).
Proof.
  revert st. induction n as [|n IH]; intros st; cbn [lockf_loop]; [discriminate|].
  destruct (sys_lockf M (mbox_fd (ibox st)) cmd (os st)) as [[|e] o].
  - intros E; injection E as <- <-; reflexivity.
  - destruct (negb (e =? EAGAIN M)); [intros E; injection E as <- <-; reflexivity|].
    destruct (mwt =? 0); [intros E; injection E as <- <-; reflexivity|].
    cbn [os with_os].
    destruct (sys_time M o) as [now o2].
    destruct (now >=? mwt); [intros E; injection E as <- <-; reflexivity|].
    intros E. apply IH in E. rewrite E.
    destruct (negb (now =? 0)); reflexivity.
Qed.

Lemma fcntl_loop_handle n wt lt mwt st r st' :
  fcntl_loop M n wt lt mwt st = Ok (r, st') ->
  handle (ibox st') = handle (ibox st).
Proof.
  revert st. induction n as [|n IH]; intros st; cbn [fcntl_loop]; [discriminate|].
  destruct (sys_fcntl M (mbox_fd (ibox st)) wt lt (os st)) as [[|e] o].
  - intros E; injection E as <- <-; reflexivity.
  - destruct (negb (e =? EINTR M)).
    + destruct (negb (e =? EAGAIN M) && negb (e =? EACCES M))%bool;
        intros E; injection E as <- <-; reflexivity.
    + cbn [os with_os].
      destruct (sys_time M o) as [now o2].
      destruct (negb (mwt =? 0) && (now >=? mwt))%bool;
        [intros E; injection E as <- <-; reflexivity|].
      intros E. apply IH in E. rewrite E. reflexivity.
Qed.

Lemma bind_Ok {A B} (m : result A) (k : A -> result B) b :
  bind m k = Ok b -> exists a, m = Ok a /\ k a = Ok b.
Proof. destruct m; cbn; try discriminate. eauto. Qed.

Lemma mbox_lock_flock_handle n ctx lt mwt st r ctx' st' :
  mbox_lock_flock M n ctx lt mwt st = Ok (r, ctx', st') ->
  handle (ibox st') = handle (ibox st).
Proof.
  unfold mbox_lock_flock.
  destruct (mbox_file_open_latest M ctx lt st) as [[r1 ctx1] st1] eqn:E1.
  apply mbox_file_open_latest_handle in E1. rewrite <- E1.
  destruct (r1 <? 0); [intros E; injection E as <- <- <-; reflexivity|].
  destruct (lock_kind_eqb lt F_UNLCK && (mbox_fd (ibox st1) =? -1))%bool;
    [intros E; injection E as <- <- <-; reflexivity|].
  intros E. apply bind_Ok in E. destruct E as ([r2 st2] & E2 & E).
  injection E as <- <- <-. eapply flock_loop_handle; eauto.
Qed.

Lemma mbox_lock_lockf_handle n ctx lt mwt st r ctx' st' :
  mbox_lock_lockf M n ctx lt mwt st = Ok (r, ctx', st') ->
  handle (ibox st') = handle (ibox st).
Proof.
  unfold mbox_lock_lockf.
  destruct (mbox_file_open_latest M ctx lt st) as [[r1 ctx1] st1] eqn:E1.
  apply mbox_file_open_latest_handle in E1. rewrite <- E1.
  destruct (r1 <? 0); [intros E; injection E as <- <- <-; reflexivity|].
  destruct (lock_kind_eqb lt F_UNLCK && (mbox_fd (ibox st1) =? -1))%bool;
    [intros E; injection E as <- <- <-; reflexivity|].
  intros E. apply bind_Ok in E. destruct E as ([r2 st2] & E2 & E).
  injection E as <- <- <-. eapply lockf_loop_handle; eauto.
Qed.

Lemma mbox_lock_fcntl_handle n ctx lt mwt st r ctx' st' :
  mbox_lock_fcntl M n ctx lt mwt st = Ok (r, ctx', st') ->
  handle (ibox st') = handle (ibox st).
Proof.
  unfold mbox_lock_fcntl.
  destruct (mbox_file_open_latest M ctx lt st) as [[r1 ctx1] st1] eqn:E1.
  apply mbox_file_open_latest_handle in E1. rewrite <- E1.
  destruct (r1 <? 0); [intros E; injection E as <- <- <-; reflexivity|].
  destruct (lock_kind_eqb lt F_UNLCK && (mbox_fd (ibox st1) =? -1))%bool;
    [intros E; injection E as <- <- <-; reflexivity|].
  destruct (mwt =? 0);
    intros E; apply bind_Ok in E; destruct E as ([r2 st2] & E2 & E);
    injection E as <- <- <-; apply fcntl_loop_handle in E2; exact E2.
Qed.

Section FrameLevel.

Variable lock_list :
  mbox_lock_context -> lock_kind -> Z -> nat -> state OS ->
  result (Z * mbox_lock_context * state OS).
Variable fuel : nat.

Hypothesis lock_list_handle :
  forall ctx lt mwt idx st r ctx' st',
    lock_list ctx lt mwt idx st = Ok (r, ctx', st') ->
    handle (ibox st') = handle (ibox st).

Lemma dotlock_callback_handle secs stale ctx st r ctx' st' :
  dotlock_callback lock_list secs stale ctx st = Ok (r, ctx', st') ->
  handle (ibox st') = handle (ibox st).
Proof.
  unfold dotlock_callback. intros E.
  apply bind_Ok in E. destruct E as ([[go ctx1] st1] & E1 & E).
  assert (H1 : handle (ibox st1) = handle (ibox st)).
  { destruct (negb (stale =? 0) && (dotlock_last_stale ctx =? 0))%bool.
    - apply bind_Ok in E1. destruct E1 as ([[r1 c1] s1] & Ea & E1).
      apply lock_list_handle in Ea.
      destruct (r1 <=? 0).
      + injection E1 as <- <- <-. exact Ea.
      + apply bind_Ok in E1. destruct E1 as ([[r2 c2] s2] & Eb & E1).
        apply lock_list_handle in Eb. injection E1 as <- <- <-. congruence.
    - injection E1 as <- <- <-. reflexivity. }
  destruct go; injection E as <- <- <-; exact H1.
Qed.

Lemma run_dotlock_handle t : forall ctx st r ctx' st',
  run_dotlock lock_list t ctx st = Ok (r, ctx', st') ->
  handle (ibox st') = handle (ibox st).
Proof.
  induction t as [ret ino o|secs stale o k IH]; intros ctx st r ctx' st' E;
    cbn [run_dotlock] in E.
  - injection E as <- <- <-. reflexivity.
  - apply bind_Ok in E. destruct E as ([[r1 c1] s1] & Ea & E).
    apply dotlock_callback_handle in Ea. apply IH in E. rewrite E. exact Ea.
Qed.

Lemma mbox_lock_dotlock_handle ctx lt mwt st r ctx' st' :
  mbox_lock_dotlock M cfg lock_list ctx lt mwt st = Ok (r, ctx', st') ->
  handle (ibox st') = handle (ibox st).
Proof.
  unfold mbox_lock_dotlock.
  destruct (lock_kind_eqb lt F_UNLCK).
  { destruct (mbox_dotlock_ino (ibox st) =? 0);
      [intros E; injection E as <- <- <-; reflexivity|].
    destruct (file_unlock_dotlock M (mbox_dotlock_ino (ibox st)) (os st)) as [r1 o].
    destruct (r1 <=? 0); intros E; injection E as <- <- <-; reflexivity. }
  destruct (negb (mbox_dotlock_ino (ibox st) =? 0));
    [intros E; injection E as <- <- <-; reflexivity|].
  intros E. apply bind_Ok in E. destruct E as ([[r1 c1] s1] & Ea & E).
  apply run_dotlock_handle in Ea. rewrite <- Ea.
  destruct (r1 <? 0); [injection E as <- <- <-; reflexivity|].
  destruct (r1 =? 0); [injection E as <- <- <-; reflexivity|].
  destruct (mbox_file_open_latest M c1 lt s1) as [[r2 c2] s2] eqn:E2.
  apply mbox_file_open_latest_handle in E2.
  destruct (r2 <? 0); injection E as <- <- <-; exact E2.
Qed.

Lemma lock_data_func_handle t ctx lt mwt st r ctx' st' :
  lock_data_func M build cfg lock_list fuel t ctx lt mwt st = Ok (r, ctx', st') ->
  handle (ibox st') = handle (ibox st).
Proof.
  destruct t; cbn [lock_data_func].
  - apply mbox_lock_dotlock_handle.
  - apply mbox_lock_fcntl_handle.
  - destruct (Config.have_flock build); [apply mbox_lock_flock_handle|discriminate].
  - destruct (Config.have_lockf build); [apply mbox_lock_lockf_handle|discriminate].
Qed.

Lemma lock_list_loop_handle lock_types lt mwt : forall ret ctx st r ctx' st',
  lock_list_loop M build cfg lock_list fuel lock_types lt mwt ret ctx st
  = Ok (r, ctx', st') ->
  handle (ibox st') = handle (ibox st).
Proof.
  induction lock_types as [|[t|] rest IH]; intros ret ctx st r ctx' st';
    cbn [lock_list_loop].
  - discriminate.
  - destruct (Bool.eqb (lock_status ctx t) (negb (lock_kind_eqb lt F_UNLCK))).
    + apply IH.
    + intros E. apply bind_Ok in E. destruct E as ([[r1 c1] s1] & Ea & E).
      apply lock_data_func_handle in Ea. cbn in Ea.
      destruct (r1 <=? 0).
      * injection E as <- <- <-. exact Ea.
      * apply IH in E. congruence.
  - intros E; injection E as <- <- <-; reflexivity.
Qed.

Lemma mbox_lock_list_body_handle ctx lt mwt idx st r ctx' st' :
  mbox_lock_list_body M build cfg lock_list fuel ctx lt mwt idx st = Ok (r, ctx', st') ->
  handle (ibox st') = handle (ibox st).
Proof. apply lock_list_loop_handle. Qed.

End FrameLevel.

(** No pass over the backends changes the lock type, the lock id or the
    counters of the mailbox. *)
Lemma mbox_lock_list_handle n : forall ctx lt mwt idx st r ctx' st',
  mbox_lock_list M build cfg n ctx lt mwt idx st = Ok (r, ctx', st') ->
  handle (ibox st') = handle (ibox st).
Proof.
  induction n as [|n IH]; intros ctx lt mwt idx st r ctx' st'; cbn [mbox_lock_list].
  - discriminate.
  - apply mbox_lock_list_body_handle. exact IH.
Qed.

(** A full release sets the lock type to [F_UNLCK] and adds 2 to the lock
    id, whatever the backends answered. *)
Lemma mbox_unlock_files_handle n ctx st r ctx' st' :
  mbox_unlock_files M build cfg n ctx st = Ok (r, ctx', st') ->
  handle (ibox st')
  = (F_UNLCK, uint (mbox_lock_id (ibox st) + 2),
     mbox_shared_locks (ibox st), mbox_excl_locks (ibox st))
  /\ (r = 0 \/ r = -1).
Proof.
  unfold mbox_unlock_files. intros E.
  apply bind_Ok in E. destruct E as ([[r1 c1] s1] & Ea & E).
  apply mbox_lock_list_handle in Ea.
  injection E as <- <- <-. unfold handle in *. cbn.
  injection Ea as _ -> -> ->.
  split; [reflexivity|]. destruct (r1 <? 0); auto.
Qed.

(** What [update_locking] does to the handle: a failed attempt from an
    unlocked or shared state ends in a full release; a failed demotion
    leaves the requested lock type; a demotion that went through leaves
    [F_RDLCK]; any other success leaves the requested lock type. *)
Lemma update_locking_handle n lt st ret st' :
  update_locking M build cfg n lt st = Ok (ret, st') ->
  let i := ibox st in
  if lock_kind_eqb (mbox_lock_type i) F_WRLCK then
    (ret <= 0 /\ handle (ibox st')
                 = (lt, mbox_lock_id i, mbox_shared_locks i, mbox_excl_locks i))
    \/ (ret = 1 /\ handle (ibox st')
                   = (F_RDLCK, mbox_lock_id i, mbox_shared_locks i, mbox_excl_locks i))
  else
    (ret <= 0 /\ handle (ibox st')
                 = (F_UNLCK, uint (mbox_lock_id i + 2),
                    mbox_shared_locks i, mbox_excl_locks i))
    \/ (ret = 1 /\ handle (ibox st')
                   = (lt, mbox_lock_id i, mbox_shared_locks i, mbox_excl_locks i)).
Proof.
  unfold update_locking.
  destruct (sys_time M (os st)) as [now o]. cbn [ibox with_os os].
  intros E.
  destruct (lock_kind_eqb (mbox_lock_type (ibox st)) F_WRLCK) eqn:Ety;
    apply bind_Ok in E; destruct E as ([ctx drop] & Ea & E).
  - apply bind_Ok in Ea. destruct Ea as (status & _ & Ea). injection Ea as <- <-.
    apply bind_Ok in E. destruct E as ([[r1 c1] s1] & Eb & E).
    apply mbox_lock_list_handle in Eb. cbn in Eb.
    destruct (r1 <=? 0) eqn:Er.
    + cbn in E. left. apply Z.leb_le in Er.
      destruct (r1 =? 0); injection E as <- <-; (split; [exact Er|exact Eb]).
    + right.
      apply bind_Ok in E. destruct E as (status1 & _ & E).
      apply bind_Ok in E. destruct E as (status2 & _ & E).
      apply bind_Ok in E. destruct E as ([[r2 c2] s2] & Ec & E).
      apply mbox_lock_list_handle in Ec. cbn in Ec.
      injection E as <- <-. split; [reflexivity|].
      unfold handle in *. cbn.
      injection Ec as _ -> -> ->. injection Eb as _ -> -> ->. reflexivity.
  - injection Ea as <- <-.
    apply bind_Ok in E. destruct E as ([[r1 c1] s1] & Eb & E).
    apply mbox_lock_list_handle in Eb. cbn in Eb.
    destruct (r1 <=? 0) eqn:Er.
    + left. apply Z.leb_le in Er.
      apply bind_Ok in E. destruct E as (s2 & Ec & E). cbn in Ec.
      apply bind_Ok in Ec. destruct Ec as ([[r3 c3] s3] & Ed & Ec).
      injection Ec as ->.
      apply mbox_unlock_files_handle in Ed. destruct Ed as [Ed _].
      assert (Hid : handle (ibox s2)
                    = (F_UNLCK, uint (mbox_lock_id (ibox st) + 2),
                       mbox_shared_locks (ibox st), mbox_excl_locks (ibox st))).
      { rewrite Ed. unfold handle in Eb. cbn in Eb.
        injection Eb as _ -> -> ->. reflexivity. }
      destruct (r1 =? 0); injection E as <- <-; (split; [exact Er|exact Hid]).
    + right. injection E as <- <-. split; [reflexivity|exact Eb].
Qed.

End Frame.

(** *** The handle under [mbox_lock] and [mbox_unlock] *)

Lemma uint_small z : 0 <= z < UINT_MOD -> uint z = z.
Proof. intros H. unfold uint. now apply Z.mod_small. Qed.

Lemma UINT_MOD_value : UINT_MOD = 4294967296.
Proof. reflexivity. Qed.

Lemma handle_fields i ty id sh ex :
  handle i = (ty, id, sh, ex) ->
  mbox_lock_type i = ty /\ mbox_lock_id i = id
  /\ mbox_shared_locks i = sh /\ mbox_excl_locks i = ex.
Proof. unfold handle. intros E. injection E as -> -> -> ->. auto. Qed.

Ltac handle_fields H :=
  apply handle_fields in H;
  let T := fresh "T" in let I := fresh "I" in
  let S := fresh "S" in let X := fresh "X" in
  destruct H as (T & I & S & X).

Section HandleFacts.

Context {OS : Type}.
Variable M : os_ops OS.
Variable build : Config.build.
Variable env : Config.environment.

Lemma mbox_update_locking_handle n g lt st ret g' st' :
  mbox_update_locking M build env n g lt st = Ok (ret, g', st') ->
  let i := ibox st in
  if lock_kind_eqb (mbox_lock_type i) F_WRLCK then
    (ret <= 0 /\ handle (ibox st')
                 = (lt, mbox_lock_id i, mbox_shared_locks i, mbox_excl_locks i))
    \/ (ret = 1 /\ handle (ibox st')
                   = (F_RDLCK, mbox_lock_id i, mbox_shared_locks i, mbox_excl_locks i))
  else
    (ret <= 0 /\ handle (ibox st')
                 = (F_UNLCK, uint (mbox_lock_id i + 2),
                    mbox_shared_locks i, mbox_excl_locks i))
    \/ (ret = 1 /\ handle (ibox st')
                   = (lt, mbox_lock_id i, mbox_shared_locks i, mbox_excl_locks i)).
Proof.
  unfold mbox_update_locking. intros E.
  apply bind_Ok in E. destruct E as (g1 & _ & E).
  apply bind_Ok in E. destruct E as ([r1 s1] & Ea & E).
  injection E as <- <- <-.
  apply update_locking_handle in Ea. exact Ea.
Qed.

Lemma i_assert_Ok b a u : i_assert b a = Ok u -> b = true.
Proof. destruct b; cbn; congruence. Qed.

(** [mbox_lock], seen on the handle. *)
Lemma mbox_lock_handle n g lt st ret tok g' st' :
  mbox_lock M build env n g lt st = Ok (ret, tok, g', st') ->
  let i := ibox st in
  (lt = F_RDLCK \/ lt = F_WRLCK)
  /\ (lt = F_RDLCK \/ mbox_lock_type i <> F_RDLCK)
  /\ ((mbox_lock_type i = F_UNLCK /\ ret <= 0 /\ tok = None
       /\ handle (ibox st')
          = (F_UNLCK, uint (mbox_lock_id i + 2),
             mbox_shared_locks i, mbox_excl_locks i))
      \/ (ret = 1
          /\ let ty' := if lock_kind_eqb (mbox_lock_type i) F_UNLCK
                        then lt else mbox_lock_type i in
             let id' := if lock_kind_eqb (mbox_lock_type i) F_UNLCK
                        then uint (mbox_lock_id i + 2) else mbox_lock_id i in
             (lt = F_RDLCK /\ tok = Some id'
              /\ handle (ibox st')
                 = (ty', id', uint (mbox_shared_locks i + 1), mbox_excl_locks i))
             \/ (lt = F_WRLCK /\ tok = Some (uint (id' + 1))
                 /\ handle (ibox st')
                    = (ty', id', mbox_shared_locks i, uint (mbox_excl_locks i + 1))))).
Proof.
  unfold mbox_lock. intros E.
  apply bind_Ok in E. destruct E as (u1 & A1 & E). apply i_assert_Ok in A1.
  apply bind_Ok in E. destruct E as (u2 & A2 & E). apply i_assert_Ok in A2.
  assert (H1 : lt = F_RDLCK \/ lt = F_WRLCK).
  { destruct lt; cbn in A1; auto; discriminate. }
  assert (H2 : lt = F_RDLCK \/ mbox_lock_type (ibox st) <> F_RDLCK).
  { destruct lt; cbn in A2; auto; right;
      destruct (mbox_lock_type (ibox st)); cbn in A2; congruence. }
  split; [exact H1|]. split; [exact H2|].
  apply bind_Ok in E. destruct E as ([[acq g1] s1] & Ea & E).
  destruct (lock_kind_eqb (mbox_lock_type (ibox st)) F_UNLCK) eqn:Ety.
  - apply lock_kind_eqb_eq in Ety.
    apply bind_Ok in Ea. destruct Ea as ([[r1 g2] s2] & Eb & Ea).
    apply mbox_update_locking_handle in Eb. cbn zeta in Eb.
    rewrite Ety in Eb. cbn [lock_kind_eqb] in Eb.
    destruct (r1 <=? 0) eqn:Er.
    + injection Ea as <- <- <-. injection E as <- <- <- <-.
      left. apply Z.leb_le in Er.
      destruct Eb as [[_ Eb]|[Eb _]]; [|lia]. auto.
    + injection Ea as <- <- <-. right.
      apply Z.leb_gt in Er.
      destruct Eb as [[Eb _]|[_ Eb]]; [lia|].
      unfold handle in Eb. injection Eb as T I S X.
      destruct H1 as [-> | ->]; cbn [lock_kind_eqb] in E;
        injection E as <- <- <- <-; (split; [reflexivity|]); [left|right];
        (split; [reflexivity|]); unfold handle; cbn; rewrite ?T, ?I, ?S, ?X; auto.
  - injection Ea as <- <- <-. right.
    destruct H1 as [-> | ->]; cbn [lock_kind_eqb] in E;
      injection E as <- <- <- <-; (split; [reflexivity|]); [left|right];
      (split; [reflexivity|]); unfold handle; cbn; auto.
Qed.

Lemma all_gone_handle n g st ret g' st' :
  all_gone M build n g st = Ok (ret, g', st') ->
  g' = g
  /\ handle (ibox st')
     = (F_UNLCK, uint (mbox_lock_id (ibox st) + 2),
        mbox_shared_locks (ibox st), mbox_excl_locks (ibox st))
  /\ (ret = 0 \/ ret = -1).
Proof.
  unfold all_gone. intros E.
  apply bind_Ok in E. destruct E as ([[r1 c1] s1] & Ea & E).
  injection E as <- <- <-.
  apply mbox_unlock_files_handle in Ea. tauto.
Qed.

(** [mbox_unlock], seen on the handle. *)
Lemma mbox_unlock_handle n g lock_id st ret g' st' :
  mbox_unlock M build env n g lock_id st = Ok (ret, g', st') ->
  let i := ibox st in
  mbox_lock_id i = Z.land lock_id (uint (Z.lnot 1))
  /\ if negb (Z.land lock_id 1 =? 0) then
       mbox_excl_locks i > 0
       /\ let ex' := uint (mbox_excl_locks i - 1) in
          (ex' > 0 /\ ret = 0 /\ g' = g
           /\ st' = with_ibox st (set_excl_locks i ex'))
          \/ (ex' <= 0 /\ mbox_shared_locks i > 0
              /\ if lock_kind_eqb (mbox_lock_type i) F_WRLCK then
                   handle (ibox st')
                   = (F_RDLCK, mbox_lock_id i, mbox_shared_locks i, ex')
                 else
                   handle (ibox st')
                   = (F_UNLCK, uint (mbox_lock_id i + 2), mbox_shared_locks i, ex')
                   \/ handle (ibox st')
                      = (F_RDLCK, mbox_lock_id i, mbox_shared_locks i, ex'))
          \/ (ex' <= 0 /\ mbox_shared_locks i <= 0
              /\ handle (ibox st')
                 = (F_UNLCK, uint (mbox_lock_id i + 2), mbox_shared_locks i, ex'))
     else
       mbox_shared_locks i > 0
       /\ let sh' := uint (mbox_shared_locks i - 1) in
          ((sh' > 0 \/ mbox_excl_locks i > 0) /\ ret = 0 /\ g' = g
           /\ st' = with_ibox st (set_shared_locks i sh'))
          \/ (sh' <= 0 /\ mbox_excl_locks i <= 0
              /\ handle (ibox st')
                 = (F_UNLCK, uint (mbox_lock_id i + 2), sh', mbox_excl_locks i)).
Proof.
  unfold mbox_unlock. intros E.
  apply bind_Ok in E. destruct E as (u1 & A1 & E). apply i_assert_Ok in A1.
  apply Z.eqb_eq in A1. split; [exact A1|].
  destruct (negb (Z.land lock_id 1 =? 0)).
  - apply bind_Ok in E. destruct E as (u2 & A2 & E). apply i_assert_Ok in A2.
    apply Z.gtb_lt in A2. split; [lia|].
    cbn [ibox with_ibox set_excl_locks mbox_excl_locks mbox_shared_locks] in E.
    cbn zeta.
    destruct (Z.gtb_spec (uint (mbox_excl_locks (ibox st) - 1)) 0) as [Hx|Hx].
    + left. injection E as <- <- <-. repeat split; auto. lia.
    + right.
      destruct (Z.gtb_spec (mbox_shared_locks (ibox st)) 0) as [Hs|Hs].
      * left. split; [lia|]. split; [lia|].
        apply bind_Ok in E. destruct E as ([[r1 g1] s1] & Ea & E).
        apply mbox_update_locking_handle in Ea. cbn in Ea.
        assert (E' : st' = s1) by (destruct (r1 <? 0); congruence).
        subst s1.
        destruct (lock_kind_eqb (mbox_lock_type (ibox st)) F_WRLCK);
          destruct Ea as [[_ Ea]|[_ Ea]]; auto.
      * right. split; [lia|]. split; [lia|].
        apply all_gone_handle in E. destruct E as (_ & E & _). exact E.
  - apply bind_Ok in E. destruct E as (u2 & A2 & E). apply i_assert_Ok in A2.
    apply Z.gtb_lt in A2. split; [lia|].
    cbn [ibox with_ibox set_shared_locks mbox_excl_locks mbox_shared_locks] in E.
    cbn zeta.
    destruct (Z.gtb_spec (uint (mbox_shared_locks (ibox st) - 1)) 0) as [Hx|Hx].
    + left. injection E as <- <- <-. repeat split; auto. lia.
    + destruct (Z.gtb_spec (mbox_excl_locks (ibox st)) 0) as [Hs|Hs].
      * left. injection E as <- <- <-. repeat split; auto. lia.
      * right. split; [lia|]. split; [lia|].
        apply all_gone_handle in E. destruct E as (_ & E & _). exact E.
Qed.

(** One call keeps the invariant as long as the counters stay below
    [UINT_MOD]. *)
Lemma call_counted_invariant n o g st r tok g' st' k :
  counted_invariant k (ibox st) -> k + 1 < UINT_MOD ->
  call M build env n o g st = Ok (r, tok, g', st') ->
  counted_invariant (k + 1) (ibox st').
Proof.
  intros Hinv Hk E. rewrite UINT_MOD_value in Hk.
  destruct o as [lt|lock_id]; cbn [call] in E.
  - apply mbox_lock_handle in E. cbn zeta in E.
    destruct E as (H1 & H2 & [(Ty & Hr & _ & Hh)|(_ & Hh)]).
    + handle_fields Hh.
      unfold counted_invariant in *.
      destruct Hinv as (A & B & C & D). rewrite T, S, X.
      destruct C as [C1 C2]. destruct (C1 Ty) as [S0 X0]. rewrite S0, X0.
      repeat split; intros; try lia; try congruence; try discriminate; auto.
    + unfold counted_invariant in Hinv. destruct Hinv as (A & B & C & D).
      assert (Us : uint (mbox_shared_locks (ibox st) + 1)
                   = mbox_shared_locks (ibox st) + 1)
        by (apply uint_small; rewrite UINT_MOD_value; lia).
      assert (Ux : uint (mbox_excl_locks (ibox st) + 1)
                   = mbox_excl_locks (ibox st) + 1)
        by (apply uint_small; rewrite UINT_MOD_value; lia).
      destruct Hh as [(-> & _ & Hh)|(-> & _ & Hh)]; handle_fields Hh;
        unfold counted_invariant; rewrite T, S, X, ?Us, ?Ux;
        destruct (mbox_lock_type (ibox st)) eqn:Ety; cbn [lock_kind_eqb];
        repeat split; intros; try lia; try congruence; try tauto;
        try (destruct H2; congruence);
        try (destruct C as [C1 C2]; destruct D as [D1 D2];
             first [ specialize (C1 eq_refl); lia
                   | specialize (D1 eq_refl); lia
                   | assert (F_RDLCK = F_WRLCK) by (apply D2; lia); discriminate
                   | assert (F_WRLCK = F_UNLCK) by (apply C2; lia); discriminate
                   | assert (F_RDLCK = F_UNLCK) by (apply C2; lia); discriminate ]).
  - apply bind_Ok in E. destruct E as ([[r1 g1] s1] & E & E1).
    injection E1 as <- <- <- <-.
    apply mbox_unlock_handle in E. cbn zeta in E. destruct E as [_ E].
    unfold counted_invariant in Hinv. destruct Hinv as (A & B & C & D).
    destruct (negb (Z.land lock_id 1 =? 0)).
    + destruct E as [Hx E].
      assert (Ux : uint (mbox_excl_locks (ibox st) - 1)
                   = mbox_excl_locks (ibox st) - 1)
        by (apply uint_small; rewrite UINT_MOD_value; lia).
      rewrite Ux in E.
      assert (Ty : mbox_lock_type (ibox st) = F_WRLCK) by (apply D; lia).
      rewrite Ty in E. cbn [lock_kind_eqb] in E.
      destruct E as [(Hp & _ & _ & ->)|[(Hp & Hs & Hh)|(Hp & Hs & Hh)]].
      * unfold counted_invariant. cbn. rewrite Ty.
        repeat split; intros; try lia; try congruence.
      * handle_fields Hh. unfold counted_invariant. rewrite T, S, X.
        repeat split; intros; try lia; try congruence.
      * handle_fields Hh. unfold counted_invariant. rewrite T, S, X.
        repeat split; intros; try lia; try congruence.
    + destruct E as [Hs E].
      assert (Us : uint (mbox_shared_locks (ibox st) - 1)
                   = mbox_shared_locks (ibox st) - 1)
        by (apply uint_small; rewrite UINT_MOD_value; lia).
      rewrite Us in E.
      destruct E as [(Hp & _ & _ & ->)|(Hp & Hx & Hh)].
      * unfold counted_invariant. cbn.
        destruct (mbox_lock_type (ibox st)) eqn:Ety;
          repeat split; intros; try lia; try congruence; try tauto;
          try (destruct C as [C1 C2]; destruct D as [D1 D2];
               first [ specialize (C1 eq_refl); lia
                     | specialize (D1 eq_refl); lia
                     | assert (F_RDLCK = F_WRLCK) by (apply D2; lia); discriminate
                     | apply D2; lia ]).
      * handle_fields Hh. unfold counted_invariant. rewrite T, S, X.
        repeat split; intros; try lia; try congruence.
Qed.

Lemma run_counted_invariant n ops : forall k g st g' st',
  counted_invariant k (ibox st) ->
  k + Z.of_nat (length ops) < UINT_MOD ->
  run M build env n ops g st = Ok (g', st') ->
  counted_invariant (k + Z.of_nat (length ops)) (ibox st').
Proof.
  induction ops as [|o ops IH]; intros k g st g' st' Hinv Hk E; cbn [run] in E.
  - injection E as <- <-. cbn. now rewrite Z.add_0_r.
  - apply bind_Ok in E. destruct E as ([[[r tok] g1] s1] & Ea & E).
    cbn [length] in Hk |- *. rewrite Nat2Z.inj_succ in Hk |- *.
    apply call_counted_invariant with (k := k) in Ea; [|exact Hinv|lia].
    apply IH with (k := k + 1) in E; [|exact Ea|lia].
    replace (k + Z.succ (Z.of_nat (length ops)))
      with (k + 1 + Z.of_nat (length ops)) by lia.
    exact E.
Qed.

Lemma fresh_counted i : fresh i -> counted_invariant 0 i.
Proof.
  intros (T & S & X). unfold counted_invariant. rewrite T, S, X.
  repeat split; intros; try lia; try congruence; try discriminate.
Qed.

Lemma counted_handle_invariant k i : counted_invariant k i -> handle_invariant i.
Proof.
  intros (A & B & C & D). split; [exact C|]. intros T. now apply D.
Qed.

End HandleFacts.

(** C8.  After every sequence of [mbox_lock] and [mbox_unlock] calls on a
    mailbox that started without a lock, the lock type is [F_UNLCK] exactly
    when both counters are zero, and it is [F_WRLCK] only while the
    exclusive counter is positive.  The sequence is shorter than [2^32]
    calls, so that no counter wraps around. *)
Theorem C8_handle_invariant :
  forall OS (M : os_ops OS) build env n ops g st g' st',
    fresh (ibox st) ->
    Z.of_nat (length ops) < UINT_MOD ->
    run M build env n ops g st = Ok (g', st') ->
    handle_invariant (ibox st').
Proof.
  intros OS M build env n ops g st g' st' Hf Hlen E.
  apply counted_handle_invariant with (k := 0 + Z.of_nat (length ops)).
  eapply run_counted_invariant; eauto. now apply fresh_counted.
Qed.

Lemma C8_handle_invariant_witness :
  exists g' st',
    run script_ops full_build env_default 2
      [OpLock F_WRLCK; OpLock F_RDLCK; OpUnlock 3; OpLock F_RDLCK; OpUnlock 2]
      globals_zero (start []) = Ok (g', st')
    /\ handle_invariant (ibox st').
Proof.
  eexists. eexists. split; [vm_compute; reflexivity|].
  eapply (C8_handle_invariant script script_ops full_build env_default 2
            [OpLock F_WRLCK; OpLock F_RDLCK; OpUnlock 3; OpLock F_RDLCK; OpUnlock 2]
            globals_zero (start [])).
  - repeat split.
  - vm_compute. reflexivity.
  - vm_compute. reflexivity.
Defined.

Lemma uint_add_2_2 z : uint (uint (z + 2) + 2) = uint (z + 4).
Proof.
  unfold uint. rewrite Z.add_mod_idemp_l by (rewrite UINT_MOD_value; lia).
  f_equal. lia.
Qed.

(** C10.  A full release ([mbox_unlock_files]) that returns has added 2 to
    the lock id (modulo [2^32]) and set the lock type to [F_UNLCK]; this
    includes the release that follows a failed attempt, so that a
    [mbox_lock] that fails on a mailbox without a lock adds 2 to the lock id
    and stores no lock id for the caller; a [mbox_lock] that succeeds on a
    mailbox without locks followed by the [mbox_unlock] of its lock id adds
    4 in all, 2 each. *)
Theorem C10_epoch_advance :
  forall OS (M : os_ops OS) build env n,
    (forall cfg ctx st r ctx' st',
        mbox_unlock_files M build cfg n ctx st = Ok (r, ctx', st') ->
        mbox_lock_id (ibox st') = uint (mbox_lock_id (ibox st) + 2)
        /\ mbox_lock_type (ibox st') = F_UNLCK)
    /\ (forall g lt st ret tok g' st',
           mbox_lock_type (ibox st) = F_UNLCK ->
           mbox_lock M build env n g lt st = Ok (ret, tok, g', st') ->
           ret <= 0 ->
           tok = None
           /\ mbox_lock_id (ibox st') = uint (mbox_lock_id (ibox st) + 2)
           /\ mbox_lock_type (ibox st') = F_UNLCK)
    /\ (forall g lt st tok g1 s1 r g2 s2,
           fresh (ibox st) ->
           mbox_lock M build env n g lt st = Ok (1, Some tok, g1, s1) ->
           mbox_unlock M build env n g1 tok s1 = Ok (r, g2, s2) ->
           mbox_lock_id (ibox s1) = uint (mbox_lock_id (ibox st) + 2)
           /\ mbox_lock_id (ibox s2) = uint (mbox_lock_id (ibox st) + 4)
           /\ mbox_lock_type (ibox s2) = F_UNLCK).
Proof.
  intros OS M build env n. split; [|split].
  - intros cfg ctx st r ctx' st' E.
    apply mbox_unlock_files_handle in E. destruct E as [E _].
    handle_fields E. auto.
  - intros g lt st ret tok g' st' Ty E Hret.
    apply mbox_lock_handle in E. cbn zeta in E.
    destruct E as (_ & _ & [(_ & _ & Htok & Hh)|(Hr & _)]); [|lia].
    handle_fields Hh. auto.
  - intros g lt st tok g1 s1 r g2 s2 (Ty & Sh & Ex) E1 E2.
    apply mbox_lock_handle in E1. cbn zeta in E1.
    rewrite Ty, Sh, Ex in E1. cbn [lock_kind_eqb] in E1.
    destruct E1 as (_ & _ & [(_ & Hr & _)|(_ & E1)]); [lia|].
    apply mbox_unlock_handle in E2. cbn zeta in E2. destruct E2 as [_ E2].
    change (uint (0 + 1)) with 1 in E1.
    destruct E1 as [(-> & _ & Hh)|(-> & _ & Hh)]; handle_fields Hh;
      rewrite T, I, S, X in E2; change (uint (1 - 1)) with 0 in E2;
      cbn [lock_kind_eqb] in E2;
      (split; [exact I|]);
      destruct (negb (Z.land tok 1 =? 0));
      destruct E2 as [Hpos E2]; try lia;
      repeat match goal with
             | H : _ \/ _ |- _ => destruct H
             | H : _ /\ _ |- _ => destruct H
             end; try lia;
      match goal with
      | H : handle (ibox s2) = _ |- _ => handle_fields H
      end;
      rewrite uint_add_2_2 in *; auto.
Qed.

Lemma C10_epoch_advance_witness :
  exists tok g1 s1 r g2 s2,
    mbox_lock script_ops full_build env_default 2 globals_zero F_RDLCK (start [])
    = Ok (1, Some tok, g1, s1)
    /\ mbox_unlock script_ops full_build env_default 2 g1 tok s1 = Ok (r, g2, s2)
    /\ mbox_lock_id (ibox s1) = 2
    /\ mbox_lock_id (ibox s2) = 4
    /\ mbox_lock_type (ibox s2) = F_UNLCK.
Proof.
  do 6 eexists.
  split; [vm_compute; reflexivity|].
  split; [vm_compute; reflexivity|].
  eapply (proj2 (proj2 (C10_epoch_advance script script_ops full_build
                          env_default 2))
            globals_zero F_RDLCK (start [])).
  - repeat split.
  - vm_compute. reflexivity.
  - vm_compute. reflexivity.
Defined.

(** *** The lock id *)

Section Epoch.

Context {OS : Type}.
Variable M : os_ops OS.
Variable build : Config.build.
Variable env : Config.environment.

Lemma call_epoch n o g st r tok g' st' :
  call M build env n o g st = Ok (r, tok, g', st') ->
  mbox_lock_id (ibox st') = mbox_lock_id (ibox st)
  \/ mbox_lock_id (ibox st') = uint (mbox_lock_id (ibox st) + 2).
Proof.
  destruct o as [lt|lock_id]; cbn [call]; intros E.
  - apply mbox_lock_handle in E. cbn zeta in E.
    destruct E as (_ & _ & [(_ & _ & _ & Hh)|(_ & Hh)]).
    + handle_fields Hh. auto.
    + destruct (lock_kind_eqb (mbox_lock_type (ibox st)) F_UNLCK);
        destruct Hh as [(_ & _ & Hh)|(_ & _ & Hh)]; handle_fields Hh; auto.
  - apply bind_Ok in E. destruct E as ([[r1 g1] s1] & E & E1).
    injection E1 as <- <- <- <-.
    apply mbox_unlock_handle in E. cbn zeta in E. destruct E as [_ E].
    destruct (negb (Z.land lock_id 1 =? 0)); destruct E as [_ E].
    + destruct E as [(_ & _ & _ & ->)|[(_ & _ & Hh)|(_ & _ & Hh)]].
      * left. reflexivity.
      * destruct (lock_kind_eqb (mbox_lock_type (ibox st)) F_WRLCK);
          [|destruct Hh as [Hh|Hh]]; handle_fields Hh; auto.
      * handle_fields Hh. auto.
    + destruct E as [(_ & _ & _ & ->)|(_ & _ & Hh)].
      * left. reflexivity.
      * handle_fields Hh. auto.
Qed.

(** Calls only ever add 2 to the lock id. *)
Lemma run_epoch n ops : forall g st g' st',
  0 <= mbox_lock_id (ibox st) < UINT_MOD ->
  run M build env n ops g st = Ok (g', st') ->
  exists j, 0 <= j <= Z.of_nat (length ops)
            /\ mbox_lock_id (ibox st') = uint (mbox_lock_id (ibox st) + 2 * j).
Proof.
  induction ops as [|o ops IH]; intros g st g' st' Hid E; cbn [run] in E.
  - injection E as <- <-. exists 0. split; [cbn; lia|].
    rewrite Z.add_0_r. symmetry. now apply uint_small.
  - apply bind_Ok in E. destruct E as ([[[r tok] g1] s1] & Ea & E).
    apply call_epoch in Ea.
    assert (Hid1 : 0 <= mbox_lock_id (ibox s1) < UINT_MOD).
    { destruct Ea as [-> | ->]; [exact Hid|].
      apply Z.mod_pos_bound. rewrite UINT_MOD_value. lia. }
    destruct (IH _ _ _ _ Hid1 E) as (j & Hj & Hst).
    cbn [length]. rewrite Nat2Z.inj_succ.
    destruct Ea as [Ea|Ea]; rewrite Ea in Hst.
    + exists j. split; [lia|exact Hst].
    + exists (j + 1). split; [lia|]. rewrite Hst.
      unfold uint. rewrite Z.add_mod_idemp_l by (rewrite UINT_MOD_value; lia).
      f_equal. lia.
Qed.

Lemma uint_add_neq z d :
  0 <= z < UINT_MOD -> 0 < d < UINT_MOD -> uint (z + d) <> z.
Proof.
  intros Hz Hd. unfold uint. rewrite UINT_MOD_value in *.
  destruct (Z_lt_ge_dec (z + d) 4294967296) as [Hlt|Hge].
  - rewrite Z.mod_small by lia. lia.
  - replace (z + d) with ((z + d - 4294967296) + 1 * 4294967296) by lia.
    rewrite Z_mod_plus_full. rewrite Z.mod_small by lia. lia.
Qed.

Lemma mbox_unlock_stale n g tok st :
  mbox_lock_id (ibox st) <> Z.land tok (uint (Z.lnot 1)) ->
  mbox_unlock M build env n g tok st = Panic AssertLockId.
Proof.
  intros H. unfold mbox_unlock.
  apply Z.eqb_neq in H. rewrite H. reflexivity.
Qed.

End Epoch.

(** C6.  [mbox_unlock] goes on only when the lock id of the mailbox is the
    given lock id without its lowest bit, and stops in a failed assertion
    otherwise.  After a full release a lock id that was good before it is
    refused, at once and after any further calls (fewer than [2^31 - 1] of
    them, the lock id being a 32-bit counter that moves in steps of 2). *)
Theorem C6_stale_lock_id_refused :
  forall OS (M : os_ops OS) build env n g tok st,
    (mbox_lock_id (ibox st) <> Z.land tok (uint (Z.lnot 1)) ->
     mbox_unlock M build env n g tok st = Panic AssertLockId)
    /\ (forall r g' st',
           mbox_unlock M build env n g tok st = Ok (r, g', st') ->
           mbox_lock_id (ibox st) = Z.land tok (uint (Z.lnot 1)))
    /\ (forall cfg ctx r ctx' st1 ops g1 g2 st2 g3,
           0 <= mbox_lock_id (ibox st) < UINT_MOD ->
           mbox_lock_id (ibox st) = Z.land tok (uint (Z.lnot 1)) ->
           mbox_unlock_files M build cfg n ctx st = Ok (r, ctx', st1) ->
           Z.of_nat (length ops) < 2 ^ 31 - 1 ->
           run M build env n ops g1 st1 = Ok (g2, st2) ->
           mbox_unlock M build env n g3 tok st2 = Panic AssertLockId).
Proof.
  intros OS M build env n g tok st. split; [|split].
  - apply mbox_unlock_stale.
  - intros r g' st' E. apply mbox_unlock_handle in E. apply E.
  - intros cfg ctx r ctx' st1 ops g1 g2 st2 g3 Hid Hgood Ef Hlen Erun.
    apply mbox_unlock_stale. rewrite <- Hgood.
    apply mbox_unlock_files_handle in Ef. destruct Ef as [Ef _].
    handle_fields Ef.
    apply run_epoch in Erun.
    2:{ rewrite I. apply Z.mod_pos_bound. rewrite UINT_MOD_value. lia. }
    destruct Erun as (j & Hj & ->). rewrite I.
    replace (uint (uint (mbox_lock_id (ibox st) + 2) + 2 * j))
      with (uint (mbox_lock_id (ibox st) + (2 + 2 * j))).
    + apply uint_add_neq; [exact Hid|].
      rewrite UINT_MOD_value. change (2 ^ 31 - 1) with 2147483647 in Hlen. lia.
    + unfold uint. rewrite Z.add_mod_idemp_l by (rewrite UINT_MOD_value; lia).
      f_equal. lia.
Qed.

Lemma C6_stale_lock_id_refused_witness :
  exists r ctx' st1 g2 st2,
    mbox_unlock_files script_ops full_build default_settings 2
      (set_lock_status ctx_zero (fun _ => true)) (start []) = Ok (r, ctx', st1)
    /\ run script_ops full_build env_default 2 [OpLock F_RDLCK; OpUnlock 4]
         globals_zero st1 = Ok (g2, st2)
    /\ mbox_unlock script_ops full_build env_default 2 g2 0 st2
       = Panic AssertLockId.
Proof.
  do 5 eexists.
  split; [vm_compute; reflexivity|].
  split; [vm_compute; reflexivity|].
  eapply (proj2 (proj2 (C6_stale_lock_id_refused script script_ops full_build
                          env_default 2 globals_zero 0 (start [])))
            default_settings (set_lock_status ctx_zero (fun _ => true))
            _ _ _ [OpLock F_RDLCK; OpUnlock 4] globals_zero).
  - vm_compute. split; [discriminate | reflexivity].
  - reflexivity.
  - vm_compute. reflexivity.
  - vm_compute. reflexivity.
  - vm_compute. reflexivity.
Defined.

(** *** Nested shared locks *)

Lemma testbit_1_high n : 0 < n -> Z.testbit 1 n = false.
Proof. intros H. change 1 with (Z.ones 1). apply Z.ones_spec_high. lia. Qed.

Lemma land_mask_even x :
  0 <= x < UINT_MOD -> Z.even x = true -> Z.land x (uint (Z.lnot 1)) = x.
Proof.
  intros Hx He.
  change (uint (Z.lnot 1)) with (Z.land (Z.lnot 1) (Z.ones 32)).
  rewrite (Z.land_comm (Z.lnot 1)), Z.land_assoc.
  rewrite Z.land_ones by lia. change (2 ^ 32) with UINT_MOD.
  rewrite Z.mod_small by lia.
  rewrite <- Z.ldiff_land.
  apply Z.bits_inj'. intros n Hn. rewrite Z.ldiff_spec.
  destruct (Z.eq_dec n 0) as [->|Hn0].
  - rewrite Z.bit0_odd, <- Z.negb_even, He. reflexivity.
  - rewrite testbit_1_high by lia. apply Bool.andb_true_r.
Qed.

Lemma land_1_even x : Z.even x = true -> Z.land x 1 = 0.
Proof.
  intros He. change 1 with (Z.ones 1). rewrite Z.land_ones by lia.
  change (2 ^ 1) with 2. apply Zeven_bool_iff in He.
  apply Zeven_ex in He. destruct He as [m ->].
  rewrite Z.mul_comm. apply Z_mod_mult.
Qed.

Lemma uint_even z : Z.even z = true -> Z.even (uint z) = true.
Proof.
  intros He. unfold uint.
  rewrite (Z.div_mod z UINT_MOD) in He by (rewrite UINT_MOD_value; lia).
  rewrite Z.even_add, Z.even_mul in He.
  change (Z.even UINT_MOD) with true in He. cbn in He.
  rewrite UINT_MOD_value.
  destruct (Z.even (z mod 4294967296)); [reflexivity | discriminate].
Qed.

Section NestedShared.

Context {OS : Type}.
Variable M : os_ops OS.
Variable build : Config.build.
Variable env : Config.environment.
Variable n : nat.
Variable g1 : globals.
Variable s1 : state OS.

Hypothesis s1_shared : mbox_lock_type (ibox s1) = F_RDLCK.
Hypothesis s1_no_excl : mbox_excl_locks (ibox s1) = 0.
Hypothesis s1_id_range : 0 <= mbox_lock_id (ibox s1) < UINT_MOD.
Hypothesis s1_id_even : Z.even (mbox_lock_id (ibox s1)) = true.

Variable tok : Z.
Hypothesis tok_is_id : tok = mbox_lock_id (ibox s1).






End NestedShared.




(** *** The ordered walk *)

Section Walk.

Context {OS : Type}.
Variable M : os_ops OS.
Variable build : Config.build.
Variable cfg : Config.settings.
Variable lock_list :
  mbox_lock_context -> lock_kind -> Z -> nat -> state OS ->
  result (Z * mbox_lock_context * state OS).
Variable fuel : nat.

Lemma lock_list_loop_spec_walk l pad lt mwt : forall ret ctx st,
  lock_list_loop M build cfg lock_list fuel (map Some l ++ None :: pad)
    lt mwt ret ctx st
  = spec_walk (invoke M build cfg lock_list fuel) l lt mwt ret ctx st.
Proof.
  induction l as [|t l IH]; intros ret ctx st; cbn [map app lock_list_loop spec_walk].
  - reflexivity.
  - destruct (Bool.eqb (lock_status ctx t) (negb (lock_kind_eqb lt F_UNLCK))).
    + apply IH.
    + destruct (invoke M build cfg lock_list fuel t
                  (set_lock_status ctx
                     (set_status (lock_status ctx) t
                        (negb (lock_kind_eqb lt F_UNLCK))))
                  lt mwt st)
        as [[[r c] s]| | | | |]; cbn [bind]; try reflexivity.
      destruct (r <=? 0); [reflexivity | apply IH].
Qed.

Lemma skipn_holds_list (l : list mbox_lock_method) pad idx :
  (idx <= length l)%nat ->
  skipn idx (map Some l ++ None :: pad) = map Some (skipn idx l) ++ None :: pad.
Proof.
  revert idx. induction l as [|t l IH]; intros idx Hidx.
  - destruct idx; [reflexivity | cbn in Hidx; lia].
  - destruct idx; [reflexivity|]. cbn [length] in Hidx.
    cbn [map app skipn]. apply IH. lia.
Qed.

Lemma select_locks_spec_order R W lt i :
  holds_list (Config.read_locks cfg) R ->
  holds_list (Config.write_locks cfg) W ->
  holds_list (select_locks cfg lt i) (spec_order R W lt (mbox_lock_type i)).
Proof.
  intros HR HW. unfold select_locks, spec_order.
  destruct lt, (mbox_lock_type i); cbn; assumption.
Qed.

Lemma mbox_lock_list_body_spec R W ctx lt mwt idx st :
  holds_list (Config.read_locks cfg) R ->
  holds_list (Config.write_locks cfg) W ->
  (idx <= length (spec_order R W lt (mbox_lock_type (ibox st))))%nat ->
  mbox_lock_list_body M build cfg lock_list fuel ctx lt mwt idx st
  = spec_acquire_or_release (invoke M build cfg lock_list fuel) R W ctx lt mwt idx st.
Proof.
  intros HR HW Hidx.
  unfold mbox_lock_list_body, spec_acquire_or_release.
  destruct (select_locks_spec_order R W lt (ibox st) HR HW) as [pad ->].
  rewrite skipn_holds_list by exact Hidx.
  apply lock_list_loop_spec_walk.
Qed.

End Walk.

Lemma skipn_nth_error {A} (l : list A) idx x :
  nth_error l idx = Some x -> skipn idx l = x :: skipn (S idx) l.
Proof.
  revert idx. induction l as [|y l IH]; intros [|idx] H; cbn in H; try discriminate.
  - injection H as ->. reflexivity.
  - cbn [skipn]. rewrite (IH _ H). reflexivity.
Qed.

Lemma nth_error_length {A} (l : list A) idx x :
  nth_error l idx = Some x -> (S idx <= length l)%nat.
Proof.
  intros H. assert (nth_error l idx <> None) by congruence.
  apply nth_error_Some in H0. lia.
Qed.

(** C5.  With both arrays holding their lists and the start index inside
    the chosen list, [mbox_lock_list] is the walk of section 4.3: over the
    write list for [F_WRLCK], and for [F_UNLCK] while the mailbox is at
    [F_WRLCK], over the read list otherwise.  In particular a backend whose
    status already is the wanted one is stepped over without a call, and
    when the backend at the start index is called and returns 0 or less,
    that is the result and nothing after it is touched. *)
Theorem C5_ordered_walk :
  forall OS (M : os_ops OS) build cfg R W n ctx lt mwt idx st,
    holds_list (Config.read_locks cfg) R ->
    holds_list (Config.write_locks cfg) W ->
    let order := spec_order R W lt (mbox_lock_type (ibox st)) in
    let apply := invoke M build cfg (mbox_lock_list M build cfg n) (S n) in
    let wanted := negb (lock_kind_eqb lt F_UNLCK) in
    (idx <= length order)%nat ->
    mbox_lock_list M build cfg (S n) ctx lt mwt idx st
    = spec_acquire_or_release apply R W ctx lt mwt idx st
    /\ (forall t,
           nth_error order idx = Some t ->
           lock_status ctx t = wanted ->
           mbox_lock_list M build cfg (S n) ctx lt mwt idx st
           = mbox_lock_list M build cfg (S n) ctx lt mwt (S idx) st)
    /\ (forall t r ctx' st',
           nth_error order idx = Some t ->
           lock_status ctx t <> wanted ->
           apply t (set_lock_status (set_ctx_lock_type ctx lt)
                      (set_status (lock_status ctx) t wanted)) lt mwt st
           = Ok (r, ctx', st') ->
           r <= 0 ->
           mbox_lock_list M build cfg (S n) ctx lt mwt idx st = Ok (r, ctx', st')).
Proof.
  intros OS M build cfg R W n ctx lt mwt idx st HR HW order apply wanted Hidx.
  assert (Hbody : forall i, (i <= length order)%nat ->
            mbox_lock_list M build cfg (S n) ctx lt mwt i st
            = spec_acquire_or_release apply R W ctx lt mwt i st).
  { intros i Hi. cbn [mbox_lock_list].
    apply mbox_lock_list_body_spec; assumption. }
  split; [apply Hbody; exact Hidx|]. split.
  - intros t Hnth Hst.
    rewrite !Hbody by (try apply (nth_error_length _ _ _ Hnth); exact Hidx).
    unfold spec_acquire_or_release. fold order.
    rewrite (skipn_nth_error _ _ _ Hnth). cbn [spec_walk].
    cbn [lock_status set_ctx_lock_type]. fold wanted.
    rewrite Hst, Bool.eqb_reflx. reflexivity.
  - intros t r ctx' st' Hnth Hst Hap Hr.
    rewrite Hbody by exact Hidx.
    unfold spec_acquire_or_release. fold order.
    rewrite (skipn_nth_error _ _ _ Hnth). cbn [spec_walk].
    cbn [lock_status set_ctx_lock_type]. fold wanted.
    destruct (Bool.eqb (lock_status ctx t) wanted) eqn:Eb.
    { apply Bool.eqb_prop in Eb. contradiction. }
    unfold set_lock_status, set_ctx_lock_type in Hap |- *.
    cbn [lock_status checked_file lock_type dotlock_last_stale] in Hap |- *.
    rewrite Hap. cbn [bind].
    apply Z.leb_le in Hr. rewrite Hr. reflexivity.
Qed.

Lemma C5_ordered_walk_witness :
  mbox_lock_list script_ops full_build default_settings 1 ctx_zero F_WRLCK 600 0
    (start [Failure 5])
  = spec_acquire_or_release
      (invoke script_ops full_build default_settings
         (mbox_lock_list script_ops full_build default_settings 0) 1)
      [MBOX_LOCK_FCNTL] [MBOX_LOCK_DOTLOCK; MBOX_LOCK_FCNTL]
      ctx_zero F_WRLCK 600 0 (start [Failure 5]).
Proof.
  apply (C5_ordered_walk script script_ops full_build default_settings
           [MBOX_LOCK_FCNTL] [MBOX_LOCK_DOTLOCK; MBOX_LOCK_FCNTL]
           0 ctx_zero F_WRLCK 600 0%nat (start [Failure 5])).
  - eexists. reflexivity.
  - eexists. reflexivity.
  - cbn. lia.
Defined.

(** *** What a backend puts on record *)

Lemma backend_calls_app l1 l2 :
  backend_calls (l1 ++ l2) = backend_calls l1 ++ backend_calls l2.
Proof.
  induction l1 as [|e l1 IH]; [reflexivity|].
  destruct e; cbn; rewrite ?IH; reflexivity.
Qed.

Section Quiet.

Context {OS : Type}.
Variable M : os_ops OS.

Lemma quiet_refl (st : state OS) : quiet st st.
Proof. split; [reflexivity|]. exists []. now rewrite app_nil_r. Qed.

Lemma quiet_trans (a b c : state OS) : quiet a b -> quiet b c -> quiet a c.
Proof.
  intros [I1 (e1 & L1 & B1)] [I2 (e2 & L2 & B2)]. split; [congruence|].
  exists (e1 ++ e2). rewrite L2, L1, app_assoc, backend_calls_app, B1, B2. auto.
Qed.

Lemma quiet_with_os (st : state OS) o : quiet st (with_os st o).
Proof. split; [reflexivity|]. exists []. cbn. now rewrite app_nil_r. Qed.

Lemma quiet_emit (st : state OS) e :
  backend_calls [e] = [] -> quiet st (emit e st).
Proof. intros H. split; [reflexivity|]. exists [e]. auto. Qed.

Lemma quiet_set_file (st : state OS) fd ino dev o :
  quiet st (Build_state (set_file (ibox st) fd ino dev) o (log st)).
Proof. split; [reflexivity|]. exists []. cbn. now rewrite app_nil_r. Qed.

Create HintDb quiet.
Hint Resolve quiet_refl quiet_with_os quiet_set_file : quiet.

Lemma mbox_file_open_latest_quiet ctx lt st r ctx' st' :
  mbox_file_open_latest M ctx lt st = (r, ctx', st') ->
  quiet st st' /\ lock_status ctx' = lock_status ctx.
Proof.
  unfold mbox_file_open_latest.
  destruct (checked_file ctx || lock_kind_eqb lt F_UNLCK)%bool.
  { intros E; injection E as <- <- <-. auto with quiet. }
  match goal with
  | |- context [match ?c with inl _ => _ | inr _ => _ end] =>
      assert (Hc : match c with inl s | inr s => quiet st s end);
        [| destruct c as [st1|st1]]
  end.
  { destruct (negb (mbox_fd (ibox st) =? -1)); [|auto with quiet].
    destruct (sys_stat M (os st)) as [[[ino dev]|] o].
    - destruct (negb (ino =? mbox_ino (ibox st)) || negb (dev =? mbox_dev (ibox st)))%bool;
        [|auto with quiet].
      unfold mbox_file_close. cbn. apply quiet_set_file.
    - eapply quiet_trans; [apply quiet_with_os|]. apply quiet_emit. reflexivity. }
  - unfold mbox_file_open.
    destruct (mbox_fd (ibox st1) =? -1).
    + destruct (file_open M (os st1)) as [[[[fd ino] dev]|] o]; cbn;
        intros E; injection E as <- <- <-; (split; [|reflexivity]);
        (eapply quiet_trans; [exact Hc|]); auto with quiet.
    + intros E; injection E as <- <- <-; auto.
  - intros E; injection E as <- <- <-; auto.
Qed.

Lemma flock_loop_quiet n op mwt : forall st r st',
  flock_loop M n op mwt st = Ok (r, st') -> quiet st st'.
Proof.
  induction n as [|n IH]; intros st r st'; cbn [flock_loop]; [discriminate|].
  destruct (sys_flock M (mbox_fd (ibox st)) op (os st)) as [[|e] o].
  - intros E; injection E as <- <-; auto with quiet.
  - destruct (negb (e =? EWOULDBLOCK M)).
    { intros E; injection E as <- <-.
      eapply quiet_trans; [apply quiet_with_os|]. apply quiet_emit. reflexivity. }
    destruct (mwt =? 0); [intros E; injection E as <- <-; auto with quiet|].
    cbn [os with_os].
    destruct (sys_time M o) as [now o2].
    destruct (now >=? mwt); [intros E; injection E as <- <-|].
    { split; [reflexivity|]. exists []. cbn. now rewrite app_nil_r. }
    intros E. apply IH in E.
    eapply quiet_trans; [|exact E].
    destruct (negb (now =? 0)).
    + split; [reflexivity|]. eexists. split; [cbn; reflexivity|reflexivity].
    + split; [reflexivity|]. exists []. cbn. now rewrite app_nil_r.
Qed.

Lemma lockf_loop_quiet n cmd mwt : forall st r st',
  lockf_loop M n cmd mwt st = Ok (r, st') -> quiet st st'.
Proof.
  induction n as [|n IH]; intros st r st'; cbn [lockf_loop]; [discriminate|].
  destruct (sys_lockf M (mbox_fd (ibox st)) cmd (os st)) as [[|e] o].
  - intros E; injection E as <- <-; auto with quiet.
  - destruct (negb (e =? EAGAIN M)).
    { intros E; injection E as <- <-.
      eapply quiet_trans; [apply quiet_with_os|]. apply quiet_emit. reflexivity. }
    destruct (mwt =? 0); [intros E; injection E as <- <-; auto with quiet|].
    cbn [os with_os].
    destruct (sys_time M o) as [now o2].
    destruct (now >=? mwt); [intros E; injection E as <- <-|].
    { split; [reflexivity|]. exists []. cbn. now rewrite app_nil_r. }
    intros E. apply IH in E.
    eapply quiet_trans; [|exact E].
    destruct (negb (now =? 0)).
    + split; [reflexivity|]. eexists. split; [cbn; reflexivity|reflexivity].
    + split; [reflexivity|]. exists []. cbn. now rewrite app_nil_r.
Qed.

Lemma fcntl_loop_quiet n wt lt mwt : forall st r st',
  fcntl_loop M n wt lt mwt st = Ok (r, st') -> quiet st st'.
Proof.
  induction n as [|n IH]; intros st r st'; cbn [fcntl_loop]; [discriminate|].
  destruct (sys_fcntl M (mbox_fd (ibox st)) wt lt (os st)) as [[|e] o].
  - intros E; injection E as <- <-.
    split; [reflexivity|]. exists []. cbn. now rewrite app_nil_r.
  - destruct (negb (e =? EINTR M)).
    + destruct (negb (e =? EAGAIN M) && negb (e =? EACCES M))%bool;
        intros E; injection E as <- <-; (split; [reflexivity|]).
      * eexists. split; [cbn; reflexivity|reflexivity].
      * exists []. cbn. now rewrite app_nil_r.
    + cbn [os with_os].
      destruct (sys_time M o) as [now o2].
      destruct (negb (mwt =? 0) && (now >=? mwt))%bool;
        [intros E; injection E as <- <-|].
      { split; [reflexivity|]. exists []. cbn. now rewrite app_nil_r. }
      intros E. apply IH in E.
      eapply quiet_trans; [|exact E].
      split; [reflexivity|]. eexists. split; [cbn; reflexivity|reflexivity].
Qed.

Lemma mbox_lock_flock_quiet n ctx lt mwt st r ctx' st' :
  mbox_lock_flock M n ctx lt mwt st = Ok (r, ctx', st') ->
  quiet st st' /\ lock_status ctx' = lock_status ctx.
Proof.
  unfold mbox_lock_flock.
  destruct (mbox_file_open_latest M ctx lt st) as [[r1 ctx1] st1] eqn:E1.
  apply mbox_file_open_latest_quiet in E1. destruct E1 as [Q1 S1].
  destruct (r1 <? 0); [intros E; injection E as <- <- <-; auto|].
  destruct (lock_kind_eqb lt F_UNLCK && (mbox_fd (ibox st1) =? -1))%bool;
    [intros E; injection E as <- <- <-; auto|].
  intros E. apply bind_Ok in E. destruct E as ([r2 st2] & E2 & E).
  injection E as <- <- <-. apply flock_loop_quiet in E2.
  split; [eapply quiet_trans; eauto | exact S1].
Qed.

Lemma mbox_lock_lockf_quiet n ctx lt mwt st r ctx' st' :
  mbox_lock_lockf M n ctx lt mwt st = Ok (r, ctx', st') ->
  quiet st st' /\ lock_status ctx' = lock_status ctx.
Proof.
  unfold mbox_lock_lockf.
  destruct (mbox_file_open_latest M ctx lt st) as [[r1 ctx1] st1] eqn:E1.
  apply mbox_file_open_latest_quiet in E1. destruct E1 as [Q1 S1].
  destruct (r1 <? 0); [intros E; injection E as <- <- <-; auto|].
  destruct (lock_kind_eqb lt F_UNLCK && (mbox_fd (ibox st1) =? -1))%bool;
    [intros E; injection E as <- <- <-; auto|].
  intros E. apply bind_Ok in E. destruct E as ([r2 st2] & E2 & E).
  injection E as <- <- <-. apply lockf_loop_quiet in E2.
  split; [eapply quiet_trans; eauto | exact S1].
Qed.

Lemma mbox_lock_fcntl_quiet n ctx lt mwt st r ctx' st' :
  mbox_lock_fcntl M n ctx lt mwt st = Ok (r, ctx', st') ->
  quiet st st' /\ lock_status ctx' = lock_status ctx.
Proof.
  unfold mbox_lock_fcntl.
  destruct (mbox_file_open_latest M ctx lt st) as [[r1 ctx1] st1] eqn:E1.
  apply mbox_file_open_latest_quiet in E1. destruct E1 as [Q1 S1].
  destruct (r1 <? 0); [intros E; injection E as <- <- <-; auto|].
  destruct (lock_kind_eqb lt F_UNLCK && (mbox_fd (ibox st1) =? -1))%bool;
    [intros E; injection E as <- <- <-; auto|].
  destruct (mwt =? 0);
    intros E; apply bind_Ok in E; destruct E as ([r2 st2] & E2 & E);
    injection E as <- <- <-; apply fcntl_loop_quiet in E2;
    (split; [|exact S1]); (eapply quiet_trans; [exact Q1|]);
    [exact E2|].
  eapply quiet_trans; [|exact E2]. unfold alarm. apply quiet_with_os.
Qed.

(** A call of a backend that cannot reach the dotlock callback: any
    backend but the dotlock, the dotlock asked to release, and the dotlock
    asked to lock while it is held. *)
Lemma invoke_calm build cfg lock_list fuel t ctx lt mwt st r ctx' st' :
  (t = MBOX_LOCK_DOTLOCK -> lt <> F_UNLCK -> mbox_dotlock_ino (ibox st) <> 0) ->
  invoke M build cfg lock_list fuel t ctx lt mwt st = Ok (r, ctx', st') ->
  lock_status ctx' = lock_status ctx
  /\ (lt <> F_UNLCK -> mbox_dotlock_ino (ibox st') = mbox_dotlock_ino (ibox st))
  /\ exists evs, log st' = log st ++ EvBackend t lt mwt :: evs
                 /\ backend_calls evs = [].
Proof.
  intros Hcalm. unfold invoke.
  assert (Hfile : forall c s,
             quiet (emit (EvBackend t lt mwt) st) s /\ lock_status c = lock_status ctx ->
             lock_status c = lock_status ctx
             /\ (lt <> F_UNLCK -> mbox_dotlock_ino (ibox s) = mbox_dotlock_ino (ibox st))
             /\ exists evs, log s = log st ++ EvBackend t lt mwt :: evs
                            /\ backend_calls evs = []).
  { intros c s [[Hi (evs & Hl & Hb)] Hs]. split; [exact Hs|]. split; [auto|].
    exists evs. split; [|exact Hb]. rewrite Hl. cbn. rewrite <- app_assoc. reflexivity. }
  destruct t; cbn [lock_data_func].
  - unfold mbox_lock_dotlock. cbn [ibox emit os].
    destruct (lock_kind_eqb lt F_UNLCK) eqn:Elt.
    + destruct (mbox_dotlock_ino (ibox st) =? 0).
      { intros E; injection E as <- <- <-. apply Hfile. auto with quiet. }
      destruct (file_unlock_dotlock M (mbox_dotlock_ino (ibox st)) (os st)) as [r1 o].
      apply lock_kind_eqb_eq in Elt.
      intros E; injection E as <- <- <-. split; [reflexivity|].
      split; [congruence|].
      destruct (r1 <=? 0).
      * exists [EvSyscallError "file_unlock_dotlock()"].
        split; [cbn; rewrite <- app_assoc; reflexivity|reflexivity].
      * exists []. split; reflexivity.
    + assert (Hne : lt <> F_UNLCK).
      { intros ->. cbn in Elt. discriminate. }
      specialize (Hcalm eq_refl Hne). apply Z.eqb_neq in Hcalm. rewrite Hcalm.
      cbn [negb]. intros E; injection E as <- <- <-. apply Hfile. auto with quiet.
  - intros E. apply mbox_lock_fcntl_quiet in E. apply Hfile. exact E.
  - destruct (Config.have_flock build); [|discriminate].
    intros E. apply mbox_lock_flock_quiet in E. apply Hfile. exact E.
  - destruct (Config.have_lockf build); [|discriminate].
    intros E. apply mbox_lock_lockf_quiet in E. apply Hfile. exact E.
Qed.

End Quiet.

Section WalkCalls.

Context {OS : Type}.
Variable M : os_ops OS.
Variable build : Config.build.
Variable cfg : Config.settings.
Variable lock_list :
  mbox_lock_context -> lock_kind -> Z -> nat -> state OS ->
  result (Z * mbox_lock_context * state OS).
Variable fuel : nat.
Variable lt : lock_kind.
Variable mwt : Z.

Local Abbreviation wanted := (negb (lock_kind_eqb lt F_UNLCK)).

(** A walk that cannot reach the dotlock callback calls the pending
    backends in order, all of them unless a call returns 0 or less. *)
Lemma spec_walk_calls l : forall ret ctx st r ctx' st',
  (lt <> F_UNLCK -> In MBOX_LOCK_DOTLOCK l -> mbox_dotlock_ino (ibox st) <> 0) ->
  spec_walk (invoke M build cfg lock_list fuel) l lt mwt ret ctx st
  = Ok (r, ctx', st') ->
  exists called rest evs,
    log st' = log st ++ evs
    /\ backend_calls evs = map (fun t => (t, lt, mwt)) called
    /\ pending wanted (lock_status ctx) l = called ++ rest
    /\ (rest = [] \/ r <= 0).
Proof.
  induction l as [|t l IH]; intros ret ctx st r ctx' st' Hdot E; cbn [spec_walk] in E.
  - injection E as <- <- <-. exists [], [], []. cbn. rewrite app_nil_r. auto.
  - cbn [pending].
    destruct (Bool.eqb (lock_status ctx t) wanted).
    + apply IH in E; [exact E|]. intros Hlt Hin. apply Hdot; [exact Hlt|now right].
    + apply bind_Ok in E. destruct E as ([[r1 c1] s1] & Ea & E).
      apply invoke_calm in Ea.
      2:{ intros -> Hlt. apply Hdot; [exact Hlt|now left]. }
      destruct Ea as (Hst & Hino & evs1 & Hlog & Hb).
      cbn [lock_status set_lock_status] in Hst.
      destruct (r1 <=? 0) eqn:Er.
      * injection E as <- <- <-. apply Z.leb_le in Er.
        exists [t], (pending wanted (set_status (lock_status ctx) t wanted) l),
          (EvBackend t lt mwt :: evs1).
        split; [exact Hlog|]. split; [cbn; rewrite Hb; reflexivity|].
        split; [reflexivity|]. right. exact Er.
      * apply IH in E.
        2:{ intros Hlt Hin. rewrite (Hino Hlt). apply Hdot; [exact Hlt|now right]. }
        destruct E as (called & rest & evs & Hlog' & Hb' & Hp & Hr).
        rewrite Hst in Hp.
        exists (t :: called), rest, ((EvBackend t lt mwt :: evs1) ++ evs).
        split; [rewrite Hlog', Hlog, <- app_assoc; reflexivity|].
        split.
        { rewrite backend_calls_app. cbn. rewrite Hb, Hb'. reflexivity. }
        split; [cbn; rewrite Hp; reflexivity|exact Hr].
Qed.

End WalkCalls.

Lemma pending_In wanted l : forall status t,
  In t (pending wanted status l) -> In t l /\ status t <> wanted.
Proof.
  induction l as [|x l IH]; intros status t; cbn [pending]; [intros []|].
  destruct (Bool.eqb (status x) wanted) eqn:Eb.
  - intros H. apply IH in H. destruct H. split; [now right|assumption].
  - intros [<-|H].
    + split; [now left|]. intros Heq. rewrite Heq, Bool.eqb_reflx in Eb. discriminate.
    + apply IH in H. destruct H as [Hin Hs]. split; [now right|].
      unfold set_status in Hs. destruct (type_eqb t x) eqn:Et; [congruence|exact Hs].
Qed.

Lemma In_pending wanted l : forall status t,
  In t l -> status t <> wanted -> In t (pending wanted status l).
Proof.
  induction l as [|x l IH]; intros status t; cbn [pending]; [intros []|].
  intros [->|Hin] Hs.
  - destruct (Bool.eqb (status t) wanted) eqn:Eb; [|now left].
    apply Bool.eqb_prop in Eb. contradiction.
  - destruct (Bool.eqb (status x) wanted) eqn:Eb; [now apply IH|].
    destruct (type_eq_dec t x) as [->|Hne]; [now left|].
    right. apply IH; [exact Hin|].
    unfold set_status. apply type_eqb_neq in Hne. rewrite Hne. exact Hs.
Qed.

(** The marking loops of [mbox_update_locking] on an array that holds a
    list. *)
Lemma mark_listed_holds a l v status :
  holds_list a l ->
  exists status',
    mark_listed a v status = Ok status'
    /\ forall t, status' t = if in_dec type_eq_dec t l then v else status t.
Proof.
  intros [pad ->]. revert status.
  induction l as [|x l IH]; intros status; cbn [map app mark_listed].
  - exists status. split; [reflexivity|]. intros t. reflexivity.
  - destruct (IH (set_status status x v)) as (status' & E & H).
    exists status'. split; [exact E|]. intros t. rewrite H.
    unfold set_status.
    destruct (in_dec type_eq_dec t l) as [Hin|Hnin];
      destruct (in_dec type_eq_dec t (x :: l)) as [Hin'|Hnin']; auto.
    + exfalso. apply Hnin'. now right.
    + destruct Hin' as [->|Hin']; [|contradiction].
      now rewrite type_eqb_refl.
    + destruct (type_eqb t x) eqn:Et; [|reflexivity].
      apply type_eqb_eq in Et. subst. exfalso. apply Hnin'. now left.
Qed.

(** *** Demotion *)

Lemma mbox_lock_list_walk {OS} (M : os_ops OS) build cfg R W n ctx lt mwt st :
  holds_list (Config.read_locks cfg) R ->
  holds_list (Config.write_locks cfg) W ->
  mbox_lock_list M build cfg (S n) ctx lt mwt 0 st
  = spec_walk (invoke M build cfg (mbox_lock_list M build cfg n) (S n))
      (spec_order R W lt (mbox_lock_type (ibox st))) lt mwt 0
      (set_ctx_lock_type ctx lt) st.
Proof.
  intros HR HW. cbn [mbox_lock_list].
  rewrite (mbox_lock_list_body_spec M build cfg _ _ R W) by (auto; cbn; lia).
  reflexivity.
Qed.

(** C1.  A demotion ([mbox_update_locking] to [F_RDLCK] while the mailbox
    is at [F_WRLCK]) first asks backends of the read list for [F_RDLCK] and
    only then asks backends for [F_UNLCK]; those are in the write list and
    not in the read list.  So no backend of both lists is ever asked to
    unlock.  When the demotion succeeds every backend of the read list has
    been asked for [F_RDLCK]; when it fails nothing is released.  The
    dotlock, if the read list has it, is held (as it is after an exclusive
    lock under a valid configuration). *)
Theorem C1_demotion_keeps_common_backends :
  forall OS (M : os_ops OS) build cfg R W n st ret st',
    holds_list (Config.read_locks cfg) R ->
    holds_list (Config.write_locks cfg) W ->
    mbox_lock_type (ibox st) = F_WRLCK ->
    (In MBOX_LOCK_DOTLOCK R -> mbox_dotlock_ino (ibox st) <> 0) ->
    update_locking M build cfg n F_RDLCK st = Ok (ret, st') ->
    exists deadline switched released evs,
      log st' = log st ++ evs
      /\ backend_calls evs
         = map (fun t => (t, F_RDLCK, deadline)) switched
           ++ map (fun t => (t, F_UNLCK, 0)) released
      /\ (forall t, In t switched -> In t R)
      /\ (forall t, In t released -> In t W /\ ~ In t R)
      /\ (ret = 1 -> forall t, In t R -> In t switched)
      /\ (ret <= 0 -> released = []).
Proof.
  intros OS M build cfg R W n st ret st' HR HW Hty Hdot E.
  unfold update_locking in E.
  destruct (sys_time M (os st)) as [now o].
  cbn [ibox with_os os] in E. rewrite Hty in E. cbn [lock_kind_eqb] in E.
  destruct (mark_listed_holds _ R false (fun _ => true) HR) as (status0 & E0 & H0).
  rewrite E0 in E. cbn [bind] in E.
  destruct n as [|n]; [discriminate|].
  rewrite (mbox_lock_list_walk M build cfg R W) in E by assumption.
  apply bind_Ok in E. destruct E as ([[r1 c1] s1] & E1 & E).
  cbn [spec_order] in E1.
  apply spec_walk_calls in E1.
  2:{ intros _ Hin. cbn. apply Hdot. exact Hin. }
  destruct E1 as (called1 & rest1 & evs1 & Hlog1 & Hb1 & Hp1 & Hr1).
  cbn [lock_status set_ctx_lock_type set_lock_status lock_kind_eqb negb log with_ibox]
    in Hp1, Hlog1.
  assert (Hsw : forall t, In t called1 -> In t R).
  { intros t Hin.
    assert (Hin' : In t (pending true status0 R))
      by (rewrite Hp1; apply in_or_app; now left).
    apply pending_In in Hin'. tauto. }
  exists (now + Config.lock_timeout cfg), called1.
  destruct (r1 <=? 0) eqn:Er.
  - apply Z.leb_le in Er. cbn [negb bind] in E.
    exists [].
    destruct (r1 =? 0); injection E as <- <-.
    + exists (evs1 ++ [EvStorageError "Timeout while waiting for lock"]).
      split; [cbn; rewrite Hlog1, <- app_assoc; reflexivity|].
      split; [rewrite backend_calls_app, Hb1; cbn; rewrite !app_nil_r; reflexivity|].
      split; [exact Hsw|]. split; [intros t []|]. split; [lia|reflexivity].
    + exists evs1. split; [exact Hlog1|].
      split; [rewrite Hb1; cbn; rewrite app_nil_r; reflexivity|].
      split; [exact Hsw|]. split; [intros t []|]. split; [lia|reflexivity].
  - apply Z.leb_gt in Er.
    destruct Hr1 as [-> | Hr1]; [|lia]. rewrite app_nil_r in Hp1.
    destruct (mark_listed_holds _ W true (fun _ => false) HW) as (statusw & Ew & Hw).
    rewrite Ew in E. cbn [bind] in E.
    destruct (mark_listed_holds _ R false statusw HR) as (status2 & E2 & H2).
    rewrite E2 in E. cbn [bind] in E.
    rewrite (mbox_lock_list_walk M build cfg R W) in E by assumption.
    apply bind_Ok in E. destruct E as ([[r2 c2] s2] & Ea & E).
    cbn [ibox with_ibox set_lock_type mbox_lock_type spec_order] in Ea.
    apply spec_walk_calls in Ea; [|intros Hne; congruence].
    destruct Ea as (called2 & rest2 & evs2 & Hlog2 & Hb2 & Hp2 & _).
    cbn [lock_status set_ctx_lock_type set_lock_status lock_kind_eqb negb log with_ibox]
      in Hp2, Hlog2.
    injection E as <- <-.
    exists called2, (evs1 ++ evs2).
    split; [cbn; rewrite Hlog2, Hlog1, <- app_assoc; reflexivity|].
    split; [rewrite backend_calls_app, Hb1, Hb2; reflexivity|].
    split; [exact Hsw|]. split; [|split; [|lia]].
    + intros t Hin.
      assert (Hin' : In t (pending false status2 W))
        by (rewrite Hp2; apply in_or_app; now left).
      apply pending_In in Hin'. destruct Hin' as [HinW Hst].
      split; [exact HinW|]. intros HinR. apply Hst. rewrite H2.
      destruct (in_dec type_eq_dec t R); [reflexivity|contradiction].
    + intros _ t HinR. rewrite <- Hp1. apply In_pending; [exact HinR|].
      rewrite H0. destruct (in_dec type_eq_dec t R); [discriminate|contradiction].
Qed.

Lemma C1_demotion_keeps_common_backends_witness :
  exists ret st' deadline switched released evs,
    update_locking script_ops full_build default_settings 1 F_RDLCK
      (Build_state (set_dotlock_ino (set_lock_type ibox_unlocked F_WRLCK) 7) [] [])
    = Ok (ret, st')
    /\ log st' = [] ++ evs
    /\ backend_calls evs
       = map (fun t => (t, F_RDLCK, deadline)) switched
         ++ map (fun t => (t, F_UNLCK, 0)) released
    /\ (forall t, In t released -> ~ In t [MBOX_LOCK_FCNTL]).
Proof.
  destruct (C1_demotion_keeps_common_backends script script_ops full_build
              default_settings [MBOX_LOCK_FCNTL]
              [MBOX_LOCK_DOTLOCK; MBOX_LOCK_FCNTL] 1
              (Build_state (set_dotlock_ino (set_lock_type ibox_unlocked F_WRLCK) 7)
                 [] [])
              1
              (Build_state (set_dotlock_ino (set_lock_type ibox_unlocked F_RDLCK) 0)
                 []
                 [EvBackend MBOX_LOCK_FCNTL F_RDLCK 1600;
                  EvBackend MBOX_LOCK_DOTLOCK F_UNLCK 0]))
    as (deadline & switched & released & evs & H1 & H2 & _ & H4 & _).
  - eexists. reflexivity.
  - eexists. reflexivity.
  - reflexivity.
  - intros [H|[]]. discriminate.
  - vm_compute. reflexivity.
  - do 6 eexists. split; [vm_compute; reflexivity|].
    split; [exact H1|]. split; [exact H2|].
    intros t Hin. apply H4. exact Hin.
Defined.

(** [mbox_unlock] of the last exclusive lock while shared locks are left
    is the demotion. *)
Lemma mbox_unlock_demotes {OS} (M : os_ops OS) build env n g lock_id st :
  mbox_lock_id (ibox st) = Z.land lock_id (uint (Z.lnot 1)) ->
  Z.land lock_id 1 <> 0 ->
  mbox_excl_locks (ibox st) = 1 ->
  mbox_shared_locks (ibox st) > 0 ->
  mbox_unlock M build env n g lock_id st
  = '(ret, g, st) <- mbox_update_locking M build env n g F_RDLCK
                       (with_ibox st (set_excl_locks (ibox st) 0)) ;;
    if ret <? 0 then Ok (-1, g, st) else Ok (0, g, st).
Proof.
  intros Hid Hodd Hex Hsh. unfold mbox_unlock.
  rewrite Hid, Z.eqb_refl. cbn [i_assert bind].
  apply Z.eqb_neq in Hodd. rewrite Hodd. cbn [negb].
  rewrite Hex. cbn [Z.gtb Z.compare i_assert bind].
  change (uint (1 - 1)) with 0.
  cbn [ibox with_ibox set_excl_locks mbox_excl_locks mbox_shared_locks].
  cbn [Z.gtb Z.compare].
  replace (mbox_shared_locks (ibox st) >? 0) with true
    by (symmetry; apply Z.gtb_lt; lia).
  reflexivity.
Qed.

(** *** What a walk calls, and where it stops *)

Section WalkTrace.

Context {OS : Type}.
Variable M : os_ops OS.
Variable build : Config.build.
Variable cfg : Config.settings.
Variable lock_list :
  mbox_lock_context -> lock_kind -> Z -> nat -> state OS ->
  result (Z * mbox_lock_context * state OS).
Variable fuel : nat.
Variable lt : lock_kind.
Variable mwt : Z.

Local Abbreviation wanted := (negb (lock_kind_eqb lt F_UNLCK)).

(** A walk that cannot reach the dotlock callback calls the pending
    backends in order.  It calls the first of them in any case; it calls
    all of them unless its result is 0 or less, and then that is what the
    last call returned.  The status of every backend it called is the
    wanted one afterwards, the status of the others is as before. *)
Lemma spec_walk_trace l : forall ret ctx st r ctx' st',
  (lt <> F_UNLCK -> In MBOX_LOCK_DOTLOCK l -> mbox_dotlock_ino (ibox st) <> 0) ->
  spec_walk (invoke M build cfg lock_list fuel) l lt mwt ret ctx st
  = Ok (r, ctx', st') ->
  exists called rest evs,
    log st' = log st ++ evs
    /\ backend_calls evs = map (fun t => (t, lt, mwt)) called
    /\ pending wanted (lock_status ctx) l = called ++ rest
    /\ (called = [] -> rest = [])
    /\ (rest = []
        \/ (r <= 0
            /\ exists pre t c s,
                called = pre ++ [t]
                /\ invoke M build cfg lock_list fuel t c lt mwt s
                   = Ok (r, ctx', st')))
    /\ (forall t, lock_status ctx' t
                  = if in_dec type_eq_dec t called then wanted
                    else lock_status ctx t).
Proof.
  induction l as [|t l IH]; intros ret ctx st r ctx' st' Hdot E; cbn [spec_walk] in E.
  - injection E as <- <- <-. exists [], [], []. cbn. rewrite app_nil_r.
    repeat split; auto.
  - cbn [pending].
    destruct (Bool.eqb (lock_status ctx t) wanted).
    + apply IH in E; [exact E|]. intros Hlt Hin. apply Hdot; [exact Hlt|now right].
    + apply bind_Ok in E. destruct E as ([[r1 c1] s1] & Ea & E).
      pose proof Ea as Einv.
      apply invoke_calm in Ea.
      2:{ intros -> Hlt. apply Hdot; [exact Hlt|now left]. }
      destruct Ea as (Hst & Hino & evs1 & Hlog & Hb).
      cbn [lock_status set_lock_status] in Hst.
      destruct (r1 <=? 0) eqn:Er.
      * injection E as <- <- <-. apply Z.leb_le in Er.
        exists [t], (pending wanted (set_status (lock_status ctx) t wanted) l),
          (EvBackend t lt mwt :: evs1).
        split; [exact Hlog|]. split; [cbn; rewrite Hb; reflexivity|].
        split; [reflexivity|]. split; [discriminate|]. split.
        { right. split; [exact Er|].
          exists [], t, (set_lock_status ctx (set_status (lock_status ctx) t wanted)), st.
          split; [reflexivity|exact Einv]. }
        intros x. rewrite Hst. unfold set_status.
        destruct (in_dec type_eq_dec x [t]) as [[->|[]]|Hn].
        -- rewrite type_eqb_refl. reflexivity.
        -- destruct (type_eqb x t) eqn:Ex; [|reflexivity].
           apply type_eqb_eq in Ex. subst. exfalso. apply Hn. now left.
      * apply IH in E.
        2:{ intros Hlt Hin. rewrite (Hino Hlt). apply Hdot; [exact Hlt|now right]. }
        destruct E as (called & rest & evs & Hlog' & Hb' & Hp & _ & Hr & Hs).
        rewrite Hst in Hp.
        exists (t :: called), rest, ((EvBackend t lt mwt :: evs1) ++ evs).
        split; [rewrite Hlog', Hlog, <- app_assoc; reflexivity|].
        split.
        { rewrite backend_calls_app. cbn. rewrite Hb, Hb'. reflexivity. }
        split; [cbn; rewrite Hp; reflexivity|].
        split; [discriminate|]. split.
        { destruct Hr as [Hr|(Hr & pre & u & c & s0 & Hc & Hi)]; [now left|].
          right. split; [exact Hr|]. exists (t :: pre), u, c, s0.
          split; [rewrite Hc; reflexivity|exact Hi]. }
        intros x. rewrite Hs, Hst. unfold set_status.
        destruct (in_dec type_eq_dec x called) as [Hin|Hn];
          destruct (in_dec type_eq_dec x (t :: called)) as [Hin'|Hn']; auto.
        -- exfalso. apply Hn'. now right.
        -- destruct Hin' as [->|Hin']; [|contradiction].
           rewrite type_eqb_refl. reflexivity.
        -- destruct (type_eqb x t) eqn:Ex; [|reflexivity].
           apply type_eqb_eq in Ex. subst. exfalso. apply Hn'. now left.
Qed.

End WalkTrace.

Lemma pending_all wanted l : forall status,
  NoDup l -> (forall t, In t l -> status t <> wanted) ->
  pending wanted status l = l.
Proof.
  induction l as [|x l IH]; intros status Hnd Hst; cbn [pending]; [reflexivity|].
  inversion Hnd as [|? ? Hnin Hnd']; subst.
  destruct (Bool.eqb (status x) wanted) eqn:Eb.
  { apply Bool.eqb_prop in Eb. exfalso. apply (Hst x); [now left|exact Eb]. }
  f_equal. apply IH; [exact Hnd'|].
  intros t Hin. unfold set_status.
  destruct (type_eqb t x) eqn:Et.
  - apply type_eqb_eq in Et. subst. contradiction.
  - apply Hst. now right.
Qed.

Lemma pending_ext wanted l : forall s1 s2,
  (forall t, In t l -> s1 t = s2 t) ->
  pending wanted s1 l = pending wanted s2 l.
Proof.
  induction l as [|x l IH]; intros s1 s2 H; cbn [pending]; [reflexivity|].
  rewrite (H x) by now left.
  destruct (Bool.eqb (s2 x) wanted).
  - apply IH. intros t Hin. apply H. now right.
  - f_equal. apply IH. intros t Hin. unfold set_status.
    destruct (type_eqb t x); [reflexivity|]. apply H. now right.
Qed.

(** In a list without duplicates the pending backends are those whose
    status is not the wanted one. *)
Lemma pending_filter wanted l : forall status,
  NoDup l ->
  pending wanted status l
  = filter (fun t => negb (Bool.eqb (status t) wanted)) l.
Proof.
  induction l as [|x l IH]; intros status Hnd; cbn [pending filter]; [reflexivity|].
  inversion Hnd as [|? ? Hnin Hnd']; subst.
  destruct (Bool.eqb (status x) wanted); cbn [negb].
  - apply IH. exact Hnd'.
  - f_equal. rewrite <- (IH status Hnd'). apply pending_ext.
    intros t Hin. unfold set_status.
    destruct (type_eqb t x) eqn:Et; [|reflexivity].
    apply type_eqb_eq in Et. subst. contradiction.
Qed.


Lemma pending_not_held l status :
  NoDup l -> pending true status l = filter (fun t => negb (status t)) l.
Proof.
  intros Hnd. rewrite pending_filter by exact Hnd.
  apply filter_ext. intros t. destruct (status t); reflexivity.
Qed.

Lemma NoDup_spec_order R W lt ty :
  NoDup R -> NoDup W -> NoDup (spec_order R W lt ty).
Proof. intros HR HW. unfold spec_order. destruct lt, ty; assumption. Qed.

(** *** A failed attempt *)

(** [mbox_unlock_files]: the release pass, and what is done to the state
    the pass leaves. *)
Lemma mbox_unlock_files_run {OS} (M : os_ops OS) build cfg n ctx st r ctx' st' :
  mbox_unlock_files M build cfg n ctx st = Ok (r, ctx', st') ->
  exists r2 s2,
    mbox_lock_list M build cfg n ctx F_UNLCK 0 0 st = Ok (r2, ctx', s2)
    /\ r = (if r2 <? 0 then -1 else 0)
    /\ st' = (let s3 := mbox_file_close_stream M s2 in
              let s4 := with_ibox s3 (set_lock_id (ibox s3)
                                        (uint (mbox_lock_id (ibox s3) + 2))) in
              with_ibox s4 (set_lock_type (ibox s4) F_UNLCK)).
Proof.
  unfold mbox_unlock_files. intros E.
  apply bind_Ok in E. destruct E as ([[r2 c2] s2] & Ea & E).
  injection E as <- <- <-. exists r2, s2. auto.
Qed.






(** *** The callback of the dotlock *)

Lemma next_index_bound status : forall idx t,
  (ordinal t < idx)%nat -> status t = true ->
  (ordinal t < next_index status idx)%nat.
Proof.
  induction idx as [|j IH]; intros t Hlt Hst; [lia|].
  cbn [next_index].
  destruct (of_ordinal j) as [u|] eqn:Eu.
  - destruct (status u) eqn:Es; [exact Hlt|].
    apply IH; [|exact Hst].
    assert (ordinal t <> j).
    { intros <-. destruct t; cbn in Eu; injection Eu as <-; congruence. }
    lia.
  - apply IH; [|exact Hst].
    assert (ordinal t <> j).
    { intros <-. destruct t; cbn in Eu; discriminate. }
    lia.
Qed.

Lemma next_index_held status : forall idx,
  next_index status idx = O
  \/ exists t, S (ordinal t) = next_index status idx /\ status t = true.
Proof.
  induction idx as [|j IH]; [now left|].
  cbn [next_index].
  destruct (of_ordinal j) as [u|] eqn:Eu; [|exact IH].
  destruct (status u) eqn:Es; [|exact IH].
  right. exists u. split; [|exact Es].
  destruct j as [|[|[|[|j]]]]; cbn in Eu; try discriminate;
    injection Eu as <-; reflexivity.
Qed.








(** The same from the top: the dotlock file looks stale at the first
    callback, a live process holds the fcntl lock; the dotlock is
    overridden (inode 7 is recorded) without a probe, and only then the
    fcntl backend finds the lock taken. *)
Example stale_dotlock_overridden_unprobed :
  exists c s,
    mbox_lock_list stale_ops full_build default_settings 2 ctx_zero F_WRLCK 1600 0
      (start [Failure 11]) = Ok (-1, c, s)
    /\ mbox_dotlock_ino (ibox s) = 7
    /\ log s = [EvBackend MBOX_LOCK_DOTLOCK F_WRLCK 1600;
                EvNotify MAILBOX_LOCK_NOTIFY_MAILBOX_OVERRIDE 10;
                EvBackend MBOX_LOCK_FCNTL F_WRLCK 1600].
Proof. do 2 eexists. split; [vm_compute; reflexivity|]. split; reflexivity. Qed.

(** ** Further properties of the code *)

(** *** The parser of the method lists *)

Section ParserFacts.

Import Config.

Lemma array_set_end {A : Type} (pre : list A) (v : A) :
  array_set pre (length pre) v = None.
Proof.
  induction pre as [|y pre IH]; cbn [array_set length]; [reflexivity|].
  now rewrite IH.
Qed.

Lemma array_set_map_inv (pre : list mbox_lock_method) (pad : list slot) v a :
  array_set (map Some pre ++ pad) (length pre) v = Some a ->
  exists x pad', pad = x :: pad' /\ a = map Some pre ++ v :: pad'.
Proof.
  destruct pad as [|x pad'].
  - rewrite app_nil_r, <- (length_map Some pre), array_set_end. discriminate.
  - rewrite array_set_map_app. intros E. injection E as <-. eauto.
Qed.

(** What the loop leaves in the array: the methods, the terminator, and
    the old entries behind it. *)
Lemma read_lock_methods_loop_shape b env toks : forall pre pad a,
  read_lock_methods_loop b env toks (map Some pre ++ pad) (length pre) = Ok a ->
  exists l,
    Forall2 (fun tok t => find_lock_data (lock_data b) tok = Some (t, true)) toks l
    /\ a = map Some (pre ++ l) ++ None :: skipn (S (length l)) pad.
Proof.
  induction toks as [|tok rest IH]; intros pre pad a Ea;
    cbn [read_lock_methods_loop] in Ea.
  - match type of Ea with
    | match ?X with _ => _ end = _ => destruct X as [a'|] eqn:E
    end; [|discriminate Ea].
    injection Ea as ->.
    apply array_set_map_inv in E. destruct E as (x & pad' & -> & ->).
    exists []. split; [constructor|]. rewrite app_nil_r. reflexivity.
  - destruct (find_lock_data (lock_data b) tok) as [[ty [|]]|] eqn:Hfind;
      try discriminate Ea.
    match type of Ea with
    | (if ?X then _ else _) = _ => destruct X
    end; [discriminate Ea|].
    match type of Ea with
    | match ?X with _ => _ end = _ => destruct X as [a'|] eqn:E
    end; [|discriminate Ea].
    apply array_set_map_inv in E. destruct E as (x & pad' & -> & ->).
    assert (Harr : map Some pre ++ Some ty :: pad'
                   = map Some (pre ++ [ty]) ++ pad').
    { rewrite map_app, <- app_assoc. reflexivity. }
    assert (Hl : S (length pre) = length (pre ++ [ty])).
    { rewrite length_app. cbn [length]. lia. }
    rewrite Harr, Hl in Ea. apply IH in Ea.
    destruct Ea as (l & HF & ->).
    exists (ty :: l). split; [constructor; assumption|].
    rewrite <- app_assoc. reflexivity.
Qed.

End ParserFacts.

(** X1.  [mbox_read_lock_methods] never writes outside an array of
    [MBOX_LOCK_COUNT+1] entries, whatever the names are: it ends in the
    array or in [i_fatal].  The array it leaves has the same length and
    holds the methods named, in order, then the terminator; the entries
    behind the terminator are the old ones. *)
Theorem X1_read_lock_methods_in_bounds :
  forall b toks env locks,
    length locks = 5%nat ->
    match Config.mbox_read_lock_methods b toks env locks with
    | Ok a =>
        length a = 5%nat
        /\ exists l, valid_methods b toks l
                     /\ a = map Some l ++ None :: skipn (S (length l)) locks
    | Fatal _ => ~ exists l, valid_methods b toks l
    | _ => False
    end.
Proof.
  intros b toks env locks Hlen. unfold Config.mbox_read_lock_methods.
  pose proof (read_lock_methods_loop_spec b env toks [] locks
                (NoDup_nil _) Hlen) as H.
  cbn [map app length] in H.
  destruct (Config.read_lock_methods_loop b env toks locks 0) as [a| | | | |] eqn:E;
    try exact H.
  destruct H as (l & HF & Hnd & _).
  apply (read_lock_methods_loop_shape b env toks [] locks a) in E.
  destruct E as (l' & HF' & ->).
  rewrite (Forall2_functional _ _ _ _ HF' HF).
  cbn [app] in Hnd |- *.
  pose proof (NoDup_methods_length l Hnd) as Hl.
  split.
  - rewrite length_app, length_map. cbn [length].
    rewrite length_skipn. unfold slot in *. lia.
  - exists l. split; [split; assumption|reflexivity].
Qed.

Lemma X1_read_lock_methods_in_bounds_witness :
  Config.mbox_read_lock_methods full_build ["flock"; "FCNTL"]%string "MBOX_READ_LOCKS"
    [None; None; Some MBOX_LOCK_LOCKF; Some MBOX_LOCK_FLOCK; None]
  = Ok [Some MBOX_LOCK_FLOCK; Some MBOX_LOCK_FCNTL; None;
        Some MBOX_LOCK_FLOCK; None]
  /\ match Config.mbox_read_lock_methods full_build ["flock"; "FCNTL"]%string
            "MBOX_READ_LOCKS"
            [None; None; Some MBOX_LOCK_LOCKF; Some MBOX_LOCK_FLOCK; None] with
     | Ok a =>
         length a = 5%nat
         /\ exists l, valid_methods full_build ["flock"; "FCNTL"]%string l
                      /\ a = map Some l ++ None
                            :: skipn (S (length l))
                                 [None; None; Some MBOX_LOCK_LOCKF;
                                  Some MBOX_LOCK_FLOCK; None]
     | Fatal _ => ~ exists l, valid_methods full_build ["flock"; "FCNTL"]%string l
     | _ => False
     end.
Proof.
  split; [vm_compute; reflexivity|].
  exact (X1_read_lock_methods_in_bounds full_build
           ["flock"; "FCNTL"]%string "MBOX_READ_LOCKS"%string
           [None; None; Some MBOX_LOCK_LOCKF; Some MBOX_LOCK_FLOCK; None]
           eq_refl).
Defined.

Lemma read_lock_methods_loop_fatal b env toks : forall lpre pad e,
  Config.read_lock_methods_loop b env toks (map Some lpre ++ pad) (length lpre)
  = Fatal e ->
  exists pre tok post l,
    toks = pre ++ tok :: post
    /\ Forall2 (fun tok t =>
                  Config.find_lock_data (Config.lock_data b) tok = Some (t, true))
               pre l
    /\ ((e = FatalInvalidValue env tok
         /\ Config.find_lock_data (Config.lock_data b) tok = None)
        \/ (exists ty, e = FatalNotCompiled env tok
                       /\ Config.find_lock_data (Config.lock_data b) tok
                          = Some (ty, false))
        \/ (exists ty, e = FatalDuplicated env tok
                       /\ Config.find_lock_data (Config.lock_data b) tok
                          = Some (ty, true)
                       /\ In ty (lpre ++ l))).
Proof.
  induction toks as [|tok rest IH]; intros lpre pad e Ee;
    cbn [Config.read_lock_methods_loop] in Ee.
  - match type of Ee with
    | match ?X with _ => _ end = _ => destruct X
    end; discriminate Ee.
  - destruct (Config.find_lock_data (Config.lock_data b) tok)
      as [[ty [|]]|] eqn:Hfind.
    + match type of Ee with
      | (if ?X then _ else _) = _ => destruct X eqn:Hseen
      end.
      * injection Ee as <-. exists [], tok, rest, [].
        split; [reflexivity|]. split; [constructor|].
        right. right. exists ty. split; [reflexivity|]. split; [exact Hfind|].
        rewrite app_nil_r. eapply seen_before_In. exact Hseen.
      * match type of Ee with
        | match ?X with _ => _ end = _ => destruct X as [a'|] eqn:E
        end; [|discriminate Ee].
        apply array_set_map_inv in E. destruct E as (x & pad' & -> & ->).
        assert (Harr : map Some lpre ++ Some ty :: pad'
                       = map Some (lpre ++ [ty]) ++ pad').
        { rewrite map_app, <- app_assoc. reflexivity. }
        assert (Hl : S (length lpre) = length (lpre ++ [ty])).
        { rewrite length_app. cbn [length]. lia. }
        rewrite Harr, Hl in Ee. apply IH in Ee.
        destruct Ee as (pre & tok' & post & l & -> & HF & Hcase).
        exists (tok :: pre), tok', post, (ty :: l).
        split; [reflexivity|]. split; [constructor; assumption|].
        destruct Hcase as [H|[H|(ty' & H1 & H2 & H3)]]; auto.
        right. right. exists ty'. split; [exact H1|]. split; [exact H2|].
        rewrite <- app_assoc in H3. exact H3.
    + injection Ee as <-. exists [], tok, rest, [].
      split; [reflexivity|]. split; [constructor|]. right. left. eauto.
    + injection Ee as <-. exists [], tok, rest, [].
      split; [reflexivity|]. split; [constructor|]. left. auto.
Qed.

(** X2.  When [mbox_read_lock_methods] ends in [i_fatal], the message is
    about the first name that cannot stay: every name before it names a
    compiled-in method, and the name itself is unknown ("Invalid value"),
    or names a method whose function is [NULL] in this build ("not compiled
    into binary"), or names a method that a name before it named
    ("Duplicated value"). *)
Theorem X2_read_lock_methods_first_error :
  forall b toks env locks e,
    Config.mbox_read_lock_methods b toks env locks = Fatal e ->
    exists pre tok post l,
      toks = pre ++ tok :: post
      /\ Forall2 (fun tok t =>
                    Config.find_lock_data (Config.lock_data b) tok = Some (t, true))
                 pre l
      /\ ((e = FatalInvalidValue env tok
           /\ Config.find_lock_data (Config.lock_data b) tok = None)
          \/ (exists ty, e = FatalNotCompiled env tok
                         /\ Config.find_lock_data (Config.lock_data b) tok
                            = Some (ty, false))
          \/ (exists ty, e = FatalDuplicated env tok
                         /\ Config.find_lock_data (Config.lock_data b) tok
                            = Some (ty, true)
                         /\ In ty l)).
Proof.
  intros b toks env locks e E. unfold Config.mbox_read_lock_methods in E.
  apply (read_lock_methods_loop_fatal b env toks [] locks e) in E.
  exact E.
Qed.

Lemma X2_read_lock_methods_first_error_witness :
  exists pre tok post l,
    ["fcntl"; "Flock"; "FCNTL"; "bogus"]%string = pre ++ tok :: post
    /\ Forall2 (fun tok t =>
                  Config.find_lock_data (Config.lock_data full_build) tok
                  = Some (t, true))
               pre l
    /\ ((FatalDuplicated "MBOX_WRITE_LOCKS" "FCNTL"
         = FatalInvalidValue "MBOX_WRITE_LOCKS" tok
         /\ Config.find_lock_data (Config.lock_data full_build) tok = None)
        \/ (exists ty, FatalDuplicated "MBOX_WRITE_LOCKS" "FCNTL"
                       = FatalNotCompiled "MBOX_WRITE_LOCKS" tok
                       /\ Config.find_lock_data (Config.lock_data full_build) tok
                          = Some (ty, false))
        \/ (exists ty, FatalDuplicated "MBOX_WRITE_LOCKS" "FCNTL"
                       = FatalDuplicated "MBOX_WRITE_LOCKS" tok
                       /\ Config.find_lock_data (Config.lock_data full_build) tok
                          = Some (ty, true)
                       /\ In ty l)).
Proof.
  apply (X2_read_lock_methods_first_error full_build
           ["fcntl"; "Flock"; "FCNTL"; "bogus"]%string
           "MBOX_WRITE_LOCKS"%string zero_locks).
  vm_compute. reflexivity.
Defined.

Lemma strcaseeq_congr a : forall b n,
  Config.strcaseeq a b = true -> Config.strcaseeq a n = Config.strcaseeq b n.
Proof.
  induction a as [|x a IH]; intros [|y b] n H; cbn in H; try discriminate.
  - reflexivity.
  - apply Bool.andb_true_iff in H. destruct H as [Hc Hs].
    apply Ascii.eqb_eq in Hc.
    destruct n as [|z n]; cbn [Config.strcaseeq]; [reflexivity|].
    rewrite Hc, (IH b n Hs). reflexivity.
Qed.

Lemma find_lock_data_congr tbl a b :
  (forall n, Config.strcaseeq a n = Config.strcaseeq b n) ->
  Config.find_lock_data tbl a = Config.find_lock_data tbl b.
Proof.
  intros H. induction tbl as [|[[ty n] f] tbl IH]; cbn; [reflexivity|].
  rewrite H, IH. reflexivity.
Qed.

Lemma read_lock_methods_loop_congr b env toks : forall toks' locks dest a,
  Forall2 (fun x y => forall n, Config.strcaseeq x n = Config.strcaseeq y n)
          toks toks' ->
  Config.read_lock_methods_loop b env toks locks dest = Ok a ->
  Config.read_lock_methods_loop b env toks' locks dest = Ok a.
Proof.
  induction toks as [|tok rest IH]; intros toks' locks dest a HF E;
    inversion HF as [|? tok' ? rest' Hc HF']; subst.
  - exact E.
  - cbn [Config.read_lock_methods_loop] in E |- *.
    rewrite <- (find_lock_data_congr _ tok tok' Hc).
    destruct (Config.find_lock_data (Config.lock_data b) tok) as [[ty [|]]|];
      try discriminate E.
    destruct (Config.seen_before locks dest ty); [discriminate E|].
    destruct (array_set locks dest (Some ty)) as [a'|]; [|discriminate E].
    eapply IH; eauto.
Qed.

(** X3.  The names of the lock methods are matched without regard to case:
    two lists of names that are pairwise equal up to the case of their
    letters ([strcasecmp] is 0) give the same array. *)
Theorem X3_method_names_ignore_case :
  forall b toks toks' env locks a,
    Forall2 (fun x y => Config.strcaseeq x y = true) toks toks' ->
    (Config.mbox_read_lock_methods b toks env locks = Ok a <->
     Config.mbox_read_lock_methods b toks' env locks = Ok a).
Proof.
  intros b toks toks' env locks a HF. unfold Config.mbox_read_lock_methods.
  split; apply read_lock_methods_loop_congr.
  - eapply Forall2_impl; [|exact HF]. intros x y H n. now apply strcaseeq_congr.
  - apply Forall2_flip.
    eapply Forall2_impl; [|exact HF]. intros x y H n. symmetry.
    now apply strcaseeq_congr.
Qed.

Lemma X3_method_names_ignore_case_witness :
  Config.mbox_read_lock_methods full_build ["DotLock"; "FCNTL"]%string
    "MBOX_WRITE_LOCKS" zero_locks
  = Ok (Config.write_locks default_settings).
Proof.
  apply (X3_method_names_ignore_case full_build ["dotlock"; "fcntl"]%string
           ["DotLock"; "FCNTL"]%string "MBOX_WRITE_LOCKS"%string zero_locks).
  - repeat constructor.
  - reflexivity.
Defined.

(** *** The check of the mailbox file *)

(** X4.  The check that the open file still is the mailbox runs once per
    lock context: a call that returns 0 for a lock request leaves
    [checked_file] set, and every later call with that context returns 0
    without touching anything.  A release never runs the check, and a call
    that fails leaves the context as it was, so that the next backend tries
    again. *)
Theorem X4_file_checked_once :
  forall OS (M : os_ops OS) ctx lt st r ctx' st',
    mbox_file_open_latest M ctx lt st = (r, ctx', st') ->
    (r = 0 \/ r = -1)
    /\ (r = -1 -> ctx' = ctx)
    /\ (lt = F_UNLCK -> r = 0 /\ ctx' = ctx /\ st' = st)
    /\ (r = 0 -> lt <> F_UNLCK ->
        checked_file ctx' = true
        /\ forall lt2, mbox_file_open_latest M ctx' lt2 st' = (0, ctx', st')).
Proof.
  intros OS M ctx lt st r ctx' st'. unfold mbox_file_open_latest.
  destruct (checked_file ctx) eqn:Ec; cbn [orb].
  { intros E; injection E as <- <- <-.
    split; [now left|]. split; [discriminate|]. split; [auto|].
    intros _ _. split; [exact Ec|]. intros lt2. rewrite Ec. reflexivity. }
  destruct (lock_kind_eqb lt F_UNLCK) eqn:Elt.
  { intros E; injection E as <- <- <-.
    split; [now left|]. split; [discriminate|]. split; [auto|].
    intros _ Hne. apply lock_kind_eqb_eq in Elt. contradiction. }
  assert (Hne : lt <> F_UNLCK) by (intros ->; discriminate Elt).
  assert (Hok : forall s,
             (0, set_checked_file ctx true, s) = (r, ctx', st') ->
             (r = 0 \/ r = -1)
             /\ (r = -1 -> ctx' = ctx)
             /\ (lt = F_UNLCK -> r = 0 /\ ctx' = ctx /\ st' = st)
             /\ (r = 0 -> lt <> F_UNLCK ->
                 checked_file ctx' = true
                 /\ forall lt2,
                     mbox_file_open_latest M ctx' lt2 st' = (0, ctx', st'))).
  { intros s E; injection E as <- <- <-.
    split; [now left|]. split; [discriminate|]. split; [contradiction|].
    intros _ _. split; reflexivity. }
  assert (Hfail : forall s,
             (-1, ctx, s) = (r, ctx', st') ->
             (r = 0 \/ r = -1)
             /\ (r = -1 -> ctx' = ctx)
             /\ (lt = F_UNLCK -> r = 0 /\ ctx' = ctx /\ st' = st)
             /\ (r = 0 -> lt <> F_UNLCK ->
                 checked_file ctx' = true
                 /\ forall lt2,
                     mbox_file_open_latest M ctx' lt2 st' = (0, ctx', st'))).
  { intros s E; injection E as <- <- <-.
    split; [now right|]. split; [reflexivity|]. split; [contradiction|].
    intros H; discriminate H. }
  match goal with
  | |- context [match ?c with inl _ => _ | inr _ => _ end] => destruct c as [s1|s1]
  end.
  - destruct (mbox_fd (ibox s1) =? -1).
    + destruct (mbox_file_open M s1) as [r2 s2].
      destruct (r2 <? 0); eauto.
    + eauto.
  - eauto.
Qed.

Lemma X4_file_checked_once_witness :
  exists ctx' st',
    mbox_file_open_latest script_ops ctx_zero F_WRLCK (start []) = (0, ctx', st')
    /\ checked_file ctx' = true
    /\ mbox_file_open_latest script_ops ctx' F_RDLCK st' = (0, ctx', st').
Proof.
  do 2 eexists. split; [vm_compute; reflexivity|].
  destruct (X4_file_checked_once script script_ops ctx_zero F_WRLCK (start [])
              0 (set_checked_file ctx_zero true) (start []) eq_refl)
    as (_ & _ & _ & H).
  destruct (H eq_refl ltac:(discriminate)) as [H1 H2].
  split; [exact H1|exact (H2 F_RDLCK)].
Defined.

(** X5.  When the check of the file returns 0 for a lock request in a
    context that had not checked yet, the descriptor of the mailbox is
    either the old one, and [stat] has just shown the inode and the device
    the mailbox has on record, or it is what [mbox_file_open] has just
    opened.  A descriptor of a replaced file is never kept. *)
Theorem X5_open_file_is_current :
  forall OS (M : os_ops OS) ctx lt st ctx' st',
    checked_file ctx = false ->
    lt <> F_UNLCK ->
    mbox_file_open_latest M ctx lt st = (0, ctx', st') ->
    (mbox_fd (ibox st) <> -1
     /\ exists o,
         sys_stat M (os st) = (Some (mbox_ino (ibox st), mbox_dev (ibox st)), o)
         /\ st' = with_os st o)
    \/ (exists o o',
           file_open M o
           = (Some (mbox_fd (ibox st'), mbox_ino (ibox st'), mbox_dev (ibox st')), o')
           /\ os st' = o').
Proof.
  intros OS M ctx lt st ctx' st' Hc Hlt. unfold mbox_file_open_latest.
  rewrite Hc. cbn [orb].
  assert (Hk : lock_kind_eqb lt F_UNLCK = false) by (destruct lt; simpl; congruence).
  rewrite Hk.
  assert (Hopen : forall s,
             (let (r, st2) := mbox_file_open M s in
              if r <? 0 then (-1, ctx, st2) else (0, set_checked_file ctx true, st2))
             = (0, ctx', st') ->
             exists o o',
               file_open M o
               = (Some (mbox_fd (ibox st'), mbox_ino (ibox st'), mbox_dev (ibox st')), o')
               /\ os st' = o').
  { intros s. unfold mbox_file_open.
    destruct (file_open M (os s)) as [[[[fd ino] dev]|] o'] eqn:Eo; cbn.
    - intros E. injection E as <- <-. cbn. eauto.
    - intros E. discriminate E. }
  destruct (mbox_fd (ibox st) =? -1) eqn:Efd; cbn [negb].
  - rewrite Efd. intros E. right. eapply Hopen; eauto.
  - destruct (sys_stat M (os st)) as [[[ino dev]|] o] eqn:Es.
    + destruct (negb (ino =? mbox_ino (ibox st)) || negb (dev =? mbox_dev (ibox st)))%bool
        eqn:Ecmp.
      * unfold mbox_file_close. cbn [ibox mbox_fd set_file Z.eqb Pos.eqb].
        intros E. right. eapply Hopen; eauto.
      * cbn [ibox with_os]. rewrite Efd.
        intros E. injection E as <- <-. left.
        apply Z.eqb_neq in Efd. split; [exact Efd|].
        apply Bool.orb_false_iff in Ecmp. destruct Ecmp as [E1 E2].
        apply Bool.negb_false_iff in E1, E2.
        apply Z.eqb_eq in E1, E2. subst. eauto.
    + intros E. discriminate E.
Qed.

Lemma X5_open_file_is_current_witness :
  exists ctx' st',
    mbox_file_open_latest script_ops ctx_zero F_RDLCK
      (Build_state (set_file ibox_unlocked 3 2 1) [] []) = (0, ctx', st')
    /\ exists o o',
        file_open script_ops o
        = (Some (mbox_fd (ibox st'), mbox_ino (ibox st'), mbox_dev (ibox st')), o')
        /\ os st' = o'.
Proof.
  do 2 eexists. split; [vm_compute; reflexivity|].
  destruct (X5_open_file_is_current script script_ops ctx_zero F_RDLCK
              (Build_state (set_file ibox_unlocked 3 2 1) [] [])
              (set_checked_file ctx_zero true) (start [])
              eq_refl ltac:(discriminate) eq_refl)
    as [(_ & o & H & _)|H].
  - vm_compute in H. discriminate H.
  - exact H.
Defined.

(** *** Return values *)

Section Results.

Context {OS : Type}.
Variable M : os_ops OS.
Variable build : Config.build.
Variable cfg : Config.settings.

Lemma flock_loop_result n op mwt : forall st r st',
  flock_loop M n op mwt st = Ok (r, st') -> is_lock_result r.
Proof.
  unfold is_lock_result.
  induction n as [|n IH]; intros st r st'; cbn [flock_loop]; [discriminate|].
  destruct (sys_flock M (mbox_fd (ibox st)) op (os st)) as [[|e] o].
  - intros E; injection E as <- <-; auto.
  - destruct (negb (e =? EWOULDBLOCK M)); [intros E; injection E as <- <-; auto|].
    destruct (mwt =? 0); [intros E; injection E as <- <-; auto|].
    cbn [os with_os]. destruct (sys_time M o) as [now o2].
    destruct (now >=? mwt); [intros E; injection E as <- <-; auto|].
    apply IH.
Qed.

Lemma lockf_loop_result n cmd mwt : forall st r st',
  lockf_loop M n cmd mwt st = Ok (r, st') -> is_lock_result r.
Proof.
  unfold is_lock_result.
  induction n as [|n IH]; intros st r st'; cbn [lockf_loop]; [discriminate|].
  destruct (sys_lockf M (mbox_fd (ibox st)) cmd (os st)) as [[|e] o].
  - intros E; injection E as <- <-; auto.
  - destruct (negb (e =? EAGAIN M)); [intros E; injection E as <- <-; auto|].
    destruct (mwt =? 0); [intros E; injection E as <- <-; auto|].
    cbn [os with_os]. destruct (sys_time M o) as [now o2].
    destruct (now >=? mwt); [intros E; injection E as <- <-; auto|].
    apply IH.
Qed.

Lemma fcntl_loop_result n wt lt mwt : forall st r st',
  fcntl_loop M n wt lt mwt st = Ok (r, st') -> is_lock_result r.
Proof.
  unfold is_lock_result.
  induction n as [|n IH]; intros st r st'; cbn [fcntl_loop]; [discriminate|].
  destruct (sys_fcntl M (mbox_fd (ibox st)) wt lt (os st)) as [[|e] o].
  - intros E; injection E as <- <-; auto.
  - destruct (negb (e =? EINTR M)).
    + destruct (negb (e =? EAGAIN M) && negb (e =? EACCES M))%bool;
        intros E; injection E as <- <-; auto.
    + cbn [os with_os]. destruct (sys_time M o) as [now o2].
      destruct (negb (mwt =? 0) && (now >=? mwt))%bool;
        [intros E; injection E as <- <-; auto|].
      apply IH.
Qed.

Lemma lock_data_func_result lock_list fuel t ctx lt mwt st r ctx' st' :
  lock_data_func M build cfg lock_list fuel t ctx lt mwt st = Ok (r, ctx', st') ->
  is_lock_result r.
Proof.
  destruct t; cbn [lock_data_func].
  - unfold mbox_lock_dotlock, is_lock_result.
    destruct (lock_kind_eqb lt F_UNLCK).
    { destruct (mbox_dotlock_ino (ibox st) =? 0);
        [intros E; injection E as <- <- <-; auto|].
      destruct (file_unlock_dotlock M (mbox_dotlock_ino (ibox st)) (os st)).
      intros E; injection E as <- <- <-; auto. }
    destruct (negb (mbox_dotlock_ino (ibox st) =? 0));
      [intros E; injection E as <- <- <-; auto|].
    intros E. apply bind_Ok in E. destruct E as ([[r1 c1] s1] & _ & E).
    destruct (r1 <? 0); [injection E as <- <- <-; auto|].
    destruct (r1 =? 0); [injection E as <- <- <-; auto|].
    destruct (mbox_file_open_latest M c1 lt s1) as [[r2 c2] s2].
    destruct (r2 <? 0); injection E as <- <- <-; auto.
  - unfold mbox_lock_fcntl.
    destruct (mbox_file_open_latest M ctx lt st) as [[r1 c1] s1].
    destruct (r1 <? 0); [intros E; injection E as <- <- <-; unfold is_lock_result; auto|].
    destruct (lock_kind_eqb lt F_UNLCK && (mbox_fd (ibox s1) =? -1))%bool;
      [intros E; injection E as <- <- <-; unfold is_lock_result; auto|].
    destruct (mwt =? 0);
      intros E; apply bind_Ok in E; destruct E as ([r2 s2] & E2 & E);
      injection E as <- <- <-; eapply fcntl_loop_result; eauto.
  - destruct (Config.have_flock build); [|discriminate].
    unfold mbox_lock_flock.
    destruct (mbox_file_open_latest M ctx lt st) as [[r1 c1] s1].
    destruct (r1 <? 0); [intros E; injection E as <- <- <-; unfold is_lock_result; auto|].
    destruct (lock_kind_eqb lt F_UNLCK && (mbox_fd (ibox s1) =? -1))%bool;
      [intros E; injection E as <- <- <-; unfold is_lock_result; auto|].
    intros E; apply bind_Ok in E; destruct E as ([r2 s2] & E2 & E);
      injection E as <- <- <-; eapply flock_loop_result; eauto.
  - destruct (Config.have_lockf build); [|discriminate].
    unfold mbox_lock_lockf.
    destruct (mbox_file_open_latest M ctx lt st) as [[r1 c1] s1].
    destruct (r1 <? 0); [intros E; injection E as <- <- <-; unfold is_lock_result; auto|].
    destruct (lock_kind_eqb lt F_UNLCK && (mbox_fd (ibox s1) =? -1))%bool;
      [intros E; injection E as <- <- <-; unfold is_lock_result; auto|].
    intros E; apply bind_Ok in E; destruct E as ([r2 s2] & E2 & E);
      injection E as <- <- <-; eapply lockf_loop_result; eauto.
Qed.

Lemma lock_list_loop_result lock_list fuel lock_types lt mwt :
  forall ret ctx st r ctx' st',
    ret = 0 \/ ret = 1 ->
    lock_list_loop M build cfg lock_list fuel lock_types lt mwt ret ctx st
    = Ok (r, ctx', st') ->
    is_lock_result r.
Proof.
  induction lock_types as [|[t|] rest IH]; intros ret ctx st r ctx' st' Hret;
    cbn [lock_list_loop].
  - discriminate.
  - destruct (Bool.eqb (lock_status ctx t) (negb (lock_kind_eqb lt F_UNLCK))).
    + apply IH. exact Hret.
    + intros E. apply bind_Ok in E. destruct E as ([[r1 c1] s1] & Ea & E).
      apply lock_data_func_result in Ea.
      destruct (r1 <=? 0) eqn:Er.
      * injection E as <- <- <-. exact Ea.
      * apply IH in E; [exact E|]. apply Z.leb_gt in Er.
        destruct Ea as [H|[H|H]]; [auto|lia|lia].
  - intros E; injection E as <- <- <-. unfold is_lock_result. tauto.
Qed.

Lemma mbox_lock_list_result n ctx lt mwt idx st r ctx' st' :
  mbox_lock_list M build cfg n ctx lt mwt idx st = Ok (r, ctx', st') ->
  is_lock_result r.
Proof.
  destruct n as [|n]; cbn [mbox_lock_list]; [discriminate|].
  unfold mbox_lock_list_body. apply lock_list_loop_result. now left.
Qed.

Lemma update_locking_result n lt st ret st' :
  update_locking M build cfg n lt st = Ok (ret, st') -> is_lock_result ret.
Proof.
  unfold update_locking. destruct (sys_time M (os st)) as [now o]. intros E.
  apply bind_Ok in E. destruct E as ([ctx drop] & _ & E).
  apply bind_Ok in E. destruct E as ([[r1 c1] s1] & E1 & E).
  apply mbox_lock_list_result in E1.
  destruct (r1 <=? 0).
  - apply bind_Ok in E. destruct E as (s2 & _ & E).
    injection E as <- _. exact E1.
  - destruct drop.
    + apply bind_Ok in E. destruct E as (? & _ & E).
      apply bind_Ok in E. destruct E as (? & _ & E).
      apply bind_Ok in E. destruct E as ([[? ?] ?] & _ & E).
      injection E as <- _. now left.
    + injection E as <- _. now left.
Qed.

End Results.

(** X6.  Whatever the operating system answers, a pass over the backends
    returns 1, 0 or -1, and so does [mbox_lock], which stores a lock id for
    the caller exactly when it returns 1; [mbox_unlock] returns 0 or -1. *)
Theorem X6_return_values :
  forall OS (M : os_ops OS) build env n g,
    (forall cfg ctx lt mwt idx st r ctx' st',
        mbox_lock_list M build cfg n ctx lt mwt idx st = Ok (r, ctx', st') ->
        is_lock_result r)
    /\ (forall lt st r tok g' st',
           mbox_lock M build env n g lt st = Ok (r, tok, g', st') ->
           (r = 1 /\ exists id, tok = Some id)
           \/ ((r = 0 \/ r = -1) /\ tok = None))
    /\ (forall lock_id st r g' st',
           mbox_unlock M build env n g lock_id st = Ok (r, g', st') ->
           r = 0 \/ r = -1).
Proof.
  intros OS M build env n g. split; [|split].
  - intros cfg ctx lt mwt idx st r ctx' st'. apply mbox_lock_list_result.
  - intros lt st r tok g' st' E. unfold mbox_lock in E.
    apply bind_Ok in E. destruct E as (u1 & _ & E).
    apply bind_Ok in E. destruct E as (u2 & _ & E).
    apply bind_Ok in E. destruct E as ([[acq g1] s1] & Ea & E).
    assert (Hacq : match acq with
                   | inl ret => ret = 0 \/ ret = -1
                   | inr _ => True
                   end).
    { destruct (lock_kind_eqb (mbox_lock_type (ibox st)) F_UNLCK).
      - apply bind_Ok in Ea. destruct Ea as ([[r1 g2] s2] & Eb & Ea).
        unfold mbox_update_locking in Eb.
        apply bind_Ok in Eb. destruct Eb as (g3 & _ & Eb).
        apply bind_Ok in Eb. destruct Eb as ([r3 s3] & Ec & Eb).
        injection Eb as <- <- <-.
        apply update_locking_result in Ec.
        destruct (r3 <=? 0) eqn:Er; injection Ea as <- <- <-; [|exact I].
        apply Z.leb_le in Er. destruct Ec as [H|[H|H]]; [lia|auto|auto].
      - injection Ea as <- <- <-. exact I. }
    destruct acq as [ret|u].
    + injection E as <- <- <- <-. right. auto.
    + left. destruct (lock_kind_eqb lt F_RDLCK); injection E as <- <- <- <-; eauto.
  - intros lock_id st r g' st' E. unfold mbox_unlock in E.
    apply bind_Ok in E. destruct E as (u1 & _ & E).
    assert (Hgone : forall s, all_gone M build n g s = Ok (r, g', st') ->
                              r = 0 \/ r = -1).
    { intros s Es. apply all_gone_handle in Es. tauto. }
    destruct (negb (Z.land lock_id 1 =? 0)).
    + apply bind_Ok in E. destruct E as (u2 & _ & E).
      match type of E with
      | (if ?c then _ else _) = _ => destruct c
      end; [injection E as <- _ _; now left|].
      match type of E with
      | (if ?c then _ else _) = _ => destruct c
      end; [|eapply Hgone; eauto].
      apply bind_Ok in E. destruct E as ([[r1 g1] s1] & _ & E).
      destruct (r1 <? 0); injection E as <- _ _; auto.
    + apply bind_Ok in E. destruct E as (u2 & _ & E).
      match type of E with
      | (if ?c then _ else _) = _ => destruct c
      end; [injection E as <- _ _; now left|].
      match type of E with
      | (if ?c then _ else _) = _ => destruct c
      end; [injection E as <- _ _; now left|eapply Hgone; eauto].
Qed.

(** *** Releasing *)

(** X7.  Releasing what is not held is a success that changes nothing: any
    compiled-in backend asked for [F_UNLCK] while the mailbox file is not
    open and no dotlock is on record returns 1 and leaves the context and
    the state alone.  The release of the dotlock cannot fail: it returns 1
    whatever [file_unlock_dotlock] answers, forgets the dotlock, and a
    second release after it changes nothing. *)
Theorem X7_release_of_nothing :
  forall OS (M : os_ops OS) build cfg lock_list fuel t ctx mwt st,
    (t = MBOX_LOCK_FLOCK -> Config.have_flock build = true) ->
    (t = MBOX_LOCK_LOCKF -> Config.have_lockf build = true) ->
    (mbox_fd (ibox st) = -1 -> mbox_dotlock_ino (ibox st) = 0 ->
     lock_data_func M build cfg lock_list fuel t ctx F_UNLCK mwt st
     = Ok (1, ctx, st))
    /\ exists st',
        mbox_lock_dotlock M cfg lock_list ctx F_UNLCK mwt st = Ok (1, ctx, st')
        /\ mbox_dotlock_ino (ibox st') = 0
        /\ mbox_lock_dotlock M cfg lock_list ctx F_UNLCK mwt st' = Ok (1, ctx, st').
Proof.
  intros OS M build cfg lock_list fuel t ctx mwt st Hflock Hlockf. split.
  - intros Hfd Hino.
    assert (Hopen : mbox_file_open_latest M ctx F_UNLCK st = (0, ctx, st)).
    { unfold mbox_file_open_latest. cbn [lock_kind_eqb]. rewrite Bool.orb_true_r.
      reflexivity. }
    destruct t; cbn [lock_data_func].
    + unfold mbox_lock_dotlock. cbn [lock_kind_eqb]. rewrite Hino. reflexivity.
    + unfold mbox_lock_fcntl. rewrite Hopen. cbn [Z.ltb Z.compare lock_kind_eqb andb].
      rewrite Hfd. reflexivity.
    + rewrite (Hflock eq_refl). unfold mbox_lock_flock. rewrite Hopen.
      cbn [Z.ltb Z.compare lock_kind_eqb andb]. rewrite Hfd. reflexivity.
    + rewrite (Hlockf eq_refl). unfold mbox_lock_lockf. rewrite Hopen.
      cbn [Z.ltb Z.compare lock_kind_eqb andb]. rewrite Hfd. reflexivity.
  - unfold mbox_lock_dotlock. cbn [lock_kind_eqb].
    destruct (mbox_dotlock_ino (ibox st) =? 0) eqn:Ei.
    + exists st. rewrite Ei. apply Z.eqb_eq in Ei. auto.
    + destruct (file_unlock_dotlock M (mbox_dotlock_ino (ibox st)) (os st)) as [r o].
      eexists. split; [reflexivity|]. split; [reflexivity|].
      cbn [ibox with_ibox set_dotlock_ino mbox_dotlock_ino Z.eqb]. reflexivity.
Qed.

Lemma X7_release_of_nothing_witness :
  lock_data_func script_ops full_build default_settings
    (mbox_lock_list script_ops full_build default_settings 0) 1
    MBOX_LOCK_FLOCK ctx_zero F_UNLCK 0
    (Build_state (set_file ibox_unlocked (-1) 0 0) [Failure 5] [])
  = Ok (1, ctx_zero, Build_state (set_file ibox_unlocked (-1) 0 0) [Failure 5] []).
Proof.
  apply (proj1 (X7_release_of_nothing script script_ops full_build default_settings
                  (mbox_lock_list script_ops full_build default_settings 0) 1
                  MBOX_LOCK_FLOCK ctx_zero 0
                  (Build_state (set_file ibox_unlocked (-1) 0 0) [Failure 5] [])
                  (fun _ => eq_refl) (fun _ => eq_refl)));
    reflexivity.
Defined.

(** *** A deadline that has passed *)

(** X8.  With a deadline that the clock has reached, a backend that finds
    the lock taken gives up after a single attempt and returns 0: flock
    after [EWOULDBLOCK], lockf after [EAGAIN], fcntl after its blocking
    [F_SETLKW] is interrupted ([EINTR]); none of them sleeps or notifies,
    and fcntl cancels its alarm. *)
Theorem X8_expired_deadline :
  forall OS (M : os_ops OS) n ctx lt mwt st ctx1 st1,
    lt <> F_UNLCK ->
    mwt <> 0 ->
    mbox_file_open_latest M ctx lt st = (0, ctx1, st1) ->
    (forall o now o2,
        sys_flock M (mbox_fd (ibox st1)) (flock_op_of lt) (os st1)
        = (Failure (EWOULDBLOCK M), o) ->
        sys_time M o = (now, o2) -> mwt <= now ->
        mbox_lock_flock M (S n) ctx lt mwt st = Ok (0, ctx1, with_os st1 o2))
    /\ (forall o now o2,
           sys_lockf M (mbox_fd (ibox st1)) F_TLOCK (os st1)
           = (Failure (EAGAIN M), o) ->
           sys_time M o = (now, o2) -> mwt <= now ->
           mbox_lock_lockf M (S n) ctx lt mwt st = Ok (0, ctx1, with_os st1 o2))
    /\ (forall o now o2,
           sys_fcntl M (mbox_fd (ibox st1)) F_SETLKW lt
             (sys_alarm M (uint (Z.min mwt 5)) (os st1))
           = (Failure (EINTR M), o) ->
           sys_time M o = (now, o2) -> mwt <= now ->
           mbox_lock_fcntl M (S n) ctx lt mwt st
           = Ok (0, ctx1, with_os st1 (sys_alarm M 0 o2))).
Proof.
  intros OS M n ctx lt mwt st ctx1 st1 Hlt Hmwt Hopen.
  assert (Hk : lock_kind_eqb lt F_UNLCK = false) by (destruct lt; simpl; congruence).
  apply Z.eqb_neq in Hmwt.
  unfold mbox_lock_flock, mbox_lock_lockf, mbox_lock_fcntl.
  rewrite Hopen, Hk, Hmwt. cbn [Z.ltb Z.compare andb negb].
  split; [|split]; intros o now o2 Hsys Htime Hnow;
    apply Z.geb_le in Hnow.
  - cbn [flock_loop]. rewrite Hsys, Z.eqb_refl. cbn [negb]. rewrite Hmwt.
    cbn [os with_os]. rewrite Htime, Hnow. reflexivity.
  - cbn [lockf_loop]. rewrite Hsys, Z.eqb_refl. cbn [negb]. rewrite Hmwt.
    cbn [os with_os]. rewrite Htime, Hnow. reflexivity.
  - cbn [fcntl_loop].
    change (mbox_fd (ibox (alarm M (uint (Z.min mwt 5)) st1)))
      with (mbox_fd (ibox st1)).
    change (os (alarm M (uint (Z.min mwt 5)) st1))
      with (sys_alarm M (uint (Z.min mwt 5)) (os st1)).
    rewrite Hsys, Z.eqb_refl. cbn [negb os with_os].
    rewrite Htime, Hmwt, Hnow. reflexivity.
Qed.

Lemma X8_expired_deadline_witness :
  mbox_lock_flock script_ops 1 ctx_zero F_WRLCK 900 (start [Failure 11])
  = Ok (0, set_checked_file ctx_zero true, start []).
Proof.
  apply (proj1 (X8_expired_deadline script script_ops 0 ctx_zero F_WRLCK 900
                  (start [Failure 11]) (set_checked_file ctx_zero true)
                  (start [Failure 11]) ltac:(discriminate) ltac:(discriminate)
                  eq_refl) [] 1000 []);
    [reflexivity | reflexivity | lia].
Defined.

(** *** Locks inside locks *)

Lemma land_mask_odd x :
  0 <= x < UINT_MOD -> Z.even x = true ->
  Z.land (x + 1) (uint (Z.lnot 1)) = x /\ Z.land (x + 1) 1 = 1.
Proof.
  intros Hx He.
  assert (Hx1 : 0 <= x + 1 < UINT_MOD).
  { rewrite UINT_MOD_value in *. split; [lia|].
    destruct (Z.eq_dec x 4294967295) as [->|]; [discriminate He|lia]. }
  apply Zeven_bool_iff in He. apply Zeven_ex in He. destruct He as [k ->].
  split.
  - change (uint (Z.lnot 1)) with (Z.land (Z.lnot 1) (Z.ones 32)).
    rewrite (Z.land_comm (Z.lnot 1)), Z.land_assoc.
    rewrite Z.land_ones by lia. change (2 ^ 32) with UINT_MOD.
    rewrite Z.mod_small by lia.
    rewrite <- Z.ldiff_land.
    apply Z.bits_inj'. intros n Hn. rewrite Z.ldiff_spec.
    destruct (Z.eq_dec n 0) as [->|Hn0].
    + rewrite Z.testbit_odd_0, Z.testbit_even_0. reflexivity.
    + rewrite testbit_1_high by lia. rewrite Bool.andb_true_r.
      replace n with (Z.succ (n - 1)) by lia.
      rewrite Z.testbit_odd_succ, Z.testbit_even_succ by lia. reflexivity.
  - change 1 with (Z.ones 1) at 2. rewrite Z.land_ones by lia.
    change (2 ^ 1) with 2. rewrite Z.add_comm, Z.mul_comm, Z_mod_plus_full.
    reflexivity.
Qed.

Lemma restore_shared {OS} (st : state OS) a :
  with_ibox (with_ibox st (set_shared_locks (ibox st) a))
    (set_shared_locks (ibox (with_ibox st (set_shared_locks (ibox st) a)))
       (mbox_shared_locks (ibox st)))
  = st.
Proof. destruct st as [i o l]. destruct i. reflexivity. Qed.

Lemma restore_excl {OS} (st : state OS) a :
  with_ibox (with_ibox st (set_excl_locks (ibox st) a))
    (set_excl_locks (ibox (with_ibox st (set_excl_locks (ibox st) a)))
       (mbox_excl_locks (ibox st)))
  = st.
Proof. destruct st as [i o l]. destruct i. reflexivity. Qed.

(** X9.  On a mailbox that is locked already, [mbox_lock] (shared, or
    exclusive when the mailbox is exclusive) returns 1 without a call to a
    backend or to the operating system, and [mbox_unlock] of the lock id it
    stored returns 0 and restores the state exactly.  The counters are
    below their maximum and the lock id is even, as [mbox_lock] and
    [mbox_unlock] keep it. *)
Theorem X9_nested_lock_round_trip :
  forall OS (M : os_ops OS) build env n g lt st,
    handle_invariant (ibox st) ->
    mbox_lock_type (ibox st) <> F_UNLCK ->
    lt = F_RDLCK \/ (lt = F_WRLCK /\ mbox_lock_type (ibox st) = F_WRLCK) ->
    0 <= mbox_lock_id (ibox st) < UINT_MOD ->
    Z.even (mbox_lock_id (ibox st)) = true ->
    0 <= mbox_shared_locks (ibox st) < UINT_MOD - 1 ->
    0 <= mbox_excl_locks (ibox st) < UINT_MOD - 1 ->
    exists tok st1,
      mbox_lock M build env n g lt st = Ok (1, Some tok, g, st1)
      /\ os st1 = os st /\ log st1 = log st
      /\ mbox_unlock M build env n g tok st1 = Ok (0, g, st).
Proof.
  intros OS M build env n g lt st [Hinv1 Hinv2] Hty Hlt Hid Hev Hsh Hex.
  assert (Hu : lock_kind_eqb (mbox_lock_type (ibox st)) F_UNLCK = false).
  { destruct (mbox_lock_type (ibox st)); simpl; congruence. }
  destruct Hlt as [-> | [-> Hw]].
  - eexists. eexists. split.
    { unfold mbox_lock. cbn [lock_kind_eqb orb i_assert bind]. rewrite Hu.
      cbn [bind]. reflexivity. }
    split; [reflexivity|]. split; [reflexivity|].
    unfold mbox_unlock.
    cbn [ibox with_ibox set_shared_locks mbox_lock_id mbox_shared_locks
         mbox_excl_locks].
    rewrite (land_mask_even _ Hid Hev), Z.eqb_refl.
    rewrite (land_1_even _ Hev). cbn [i_assert bind Z.eqb negb].
    rewrite (uint_small (mbox_shared_locks (ibox st) + 1)) by lia.
    replace (mbox_shared_locks (ibox st) + 1 >? 0) with true
      by (symmetry; apply Z.gtb_lt; lia).
    cbn [i_assert bind].
    replace (mbox_shared_locks (ibox st) + 1 - 1)
      with (mbox_shared_locks (ibox st)) by lia.
    rewrite (uint_small (mbox_shared_locks (ibox st))) by lia.
    pose proof (restore_shared st (mbox_shared_locks (ibox st) + 1)) as Hrest.
    cbn [ibox with_ibox] in Hrest. rewrite Hrest.
    destruct (Z.gtb_spec (mbox_shared_locks (ibox st)) 0) as [Hpos|Hzero];
      [reflexivity|].
    replace (mbox_excl_locks (ibox st) >? 0) with true; [reflexivity|].
    symmetry. apply Z.gtb_lt.
    destruct (Z.eq_dec (mbox_excl_locks (ibox st)) 0) as [Hz|Hnz]; [|lia].
    exfalso. apply Hty. apply Hinv1. split; lia.
  - assert (Hx : mbox_excl_locks (ibox st) > 0) by (apply Hinv2; exact Hw).
    destruct (land_mask_odd _ Hid Hev) as [Hm H1].
    assert (Hid1 : uint (mbox_lock_id (ibox st) + 1) = mbox_lock_id (ibox st) + 1).
    { apply uint_small. rewrite UINT_MOD_value in *. split; [lia|].
      destruct (Z.eq_dec (mbox_lock_id (ibox st)) 4294967295) as [E|]; [|lia].
      rewrite E in Hev. discriminate Hev. }
    eexists. eexists. split.
    { unfold mbox_lock. cbn [lock_kind_eqb orb i_assert bind].
      rewrite Hw. cbn [lock_kind_eqb negb orb i_assert bind]. reflexivity. }
    split; [reflexivity|]. split; [reflexivity|].
    unfold mbox_unlock.
    cbn [ibox with_ibox set_excl_locks mbox_lock_id mbox_shared_locks
         mbox_excl_locks].
    rewrite Hid1, Hm, Z.eqb_refl, H1. cbn [i_assert bind Z.eqb Pos.eqb negb].
    rewrite (uint_small (mbox_excl_locks (ibox st) + 1)) by lia.
    replace (mbox_excl_locks (ibox st) + 1 >? 0) with true
      by (symmetry; apply Z.gtb_lt; lia).
    cbn [i_assert bind].
    replace (mbox_excl_locks (ibox st) + 1 - 1)
      with (mbox_excl_locks (ibox st)) by lia.
    rewrite (uint_small (mbox_excl_locks (ibox st))) by lia.
    pose proof (restore_excl st (mbox_excl_locks (ibox st) + 1)) as Hrest.
    cbn [ibox with_ibox] in Hrest. rewrite Hrest.
    replace (mbox_excl_locks (ibox st) >? 0) with true
      by (symmetry; apply Z.gtb_lt; lia).
    reflexivity.
Qed.

Lemma X9_nested_lock_round_trip_witness :
  exists tok st1,
    mbox_lock script_ops full_build env_default 1 (initialized default_settings)
      F_RDLCK (Build_state ibox_shared [] []) = Ok (1, Some tok, initialized default_settings, st1)
    /\ mbox_unlock script_ops full_build env_default 1
         (initialized default_settings) tok st1
       = Ok (0, initialized default_settings, Build_state ibox_shared [] []).
Proof.
  destruct (X9_nested_lock_round_trip script script_ops full_build env_default 1
              (initialized default_settings) F_RDLCK
              (Build_state ibox_shared [] []))
    as (tok & st1 & H1 & _ & _ & H2).
  - split; [split|]; cbn.
    + discriminate.
    + intros [H _]. discriminate H.
    + discriminate.
  - discriminate.
  - now left.
  - vm_compute. split; [discriminate|reflexivity].
  - reflexivity.
  - vm_compute. split; [discriminate|reflexivity].
  - vm_compute. split; [discriminate|reflexivity].
  - exists tok, st1. split; assumption.
Defined.

(** *** The settings *)

Section Settings.

Context {OS : Type}.
Variable M : os_ops OS.
Variable build : Config.build.

Lemma mbox_update_locking_initialized env env' n g lt st :
  lock_settings_initialized g = true ->
  mbox_update_locking M build env n g lt st
  = mbox_update_locking M build env' n g lt st
  /\ forall r g' st',
      mbox_update_locking M build env n g lt st = Ok (r, g', st') -> g' = g.
Proof.
  intros Hg. unfold mbox_update_locking. rewrite Hg. cbn [negb bind].
  split; [reflexivity|]. intros r g' st' E.
  apply bind_Ok in E. destruct E as ([r1 s1] & _ & E). now injection E as _ <- _.
Qed.

Lemma call_initialized env env' n o g st :
  lock_settings_initialized g = true ->
  call M build env n o g st = call M build env' n o g st
  /\ forall r tok g' st',
      call M build env n o g st = Ok (r, tok, g', st') -> g' = g.
Proof.
  intros Hg. destruct o as [lt|lock_id]; cbn [call].
  - unfold mbox_lock.
    destruct (i_assert (lock_kind_eqb lt F_RDLCK || lock_kind_eqb lt F_WRLCK)
                AssertLockTypeArg); cbn [bind]; try (split; [reflexivity|discriminate]).
    destruct (i_assert (lock_kind_eqb lt F_RDLCK
                        || negb (lock_kind_eqb (mbox_lock_type (ibox st)) F_RDLCK))
                AssertNoUpgrade); cbn [bind]; try (split; [reflexivity|discriminate]).
    destruct (lock_kind_eqb (mbox_lock_type (ibox st)) F_UNLCK).
    + destruct (mbox_update_locking_initialized env env' n g lt st Hg) as [He Hg'].
      rewrite <- He. split; [reflexivity|].
      intros r tok g' st' E.
      apply bind_Ok in E. destruct E as ([[acq g1] s1] & Ea & E).
      apply bind_Ok in Ea. destruct Ea as ([[r1 g2] s2] & Eb & Ea).
      apply Hg' in Eb. subst g2.
      destruct (r1 <=? 0); injection Ea as <- <- <-.
      * now injection E as _ _ <- _.
      * destruct (lock_kind_eqb lt F_RDLCK); now injection E as _ _ <- _.
    + cbn [bind]. split; [reflexivity|]. intros r tok g' st' E.
      destruct (lock_kind_eqb lt F_RDLCK); now injection E as _ _ <- _.
  - assert (Hun : mbox_unlock M build env n g lock_id st
                  = mbox_unlock M build env' n g lock_id st
                  /\ forall r g' st',
                      mbox_unlock M build env n g lock_id st = Ok (r, g', st') ->
                      g' = g).
    { unfold mbox_unlock.
      destruct (i_assert (mbox_lock_id (ibox st) =? Z.land lock_id (uint (Z.lnot 1)))
                  AssertLockId); cbn [bind]; try (split; [reflexivity|discriminate]).
      assert (Hgone : forall s r g' st',
                 all_gone M build n g s = Ok (r, g', st') -> g' = g).
      { intros s r g' st' E. apply all_gone_handle in E. tauto. }
      destruct (negb (Z.land lock_id 1 =? 0)).
      - destruct (i_assert (mbox_excl_locks (ibox st) >? 0) AssertExclLocks);
          cbn [bind]; try (split; [reflexivity|discriminate]).
        match goal with
        | |- (if ?c then _ else _) = _ /\ _ => destruct c
        end; [split; [reflexivity|]; intros r g' st' E; now injection E as _ <- _|].
        match goal with
        | |- (if ?c then _ else _) = _ /\ _ => destruct c
        end; [|split; [reflexivity|]; apply Hgone].
        match goal with
        | |- context [mbox_update_locking M build env n g F_RDLCK ?s] =>
            destruct (mbox_update_locking_initialized env env' n g F_RDLCK s Hg)
              as [He Hg']
        end.
        rewrite <- He. split; [reflexivity|]. intros r g' st' E.
        apply bind_Ok in E. destruct E as ([[r1 g1] s1] & Ea & E).
        apply Hg' in Ea. subst g1.
        destruct (r1 <? 0); now injection E as _ <- _.
      - destruct (i_assert (mbox_shared_locks (ibox st) >? 0) AssertSharedLocks);
          cbn [bind]; try (split; [reflexivity|discriminate]).
        match goal with
        | |- (if ?c then _ else _) = _ /\ _ => destruct c
        end; [split; [reflexivity|]; intros r g' st' E; now injection E as _ <- _|].
        match goal with
        | |- (if ?c then _ else _) = _ /\ _ => destruct c
        end; [split; [reflexivity|]; intros r g' st' E; now injection E as _ <- _|].
        split; [reflexivity|]; apply Hgone. }
    destruct Hun as [He Hg']. rewrite <- He. split; [reflexivity|].
    intros r tok g' st' E.
    apply bind_Ok in E. destruct E as ([[r1 g1] s1] & Ea & E).
    apply Hg' in Ea. subst g1. now injection E as _ _ <- _.
Qed.

End Settings.

(** X10.  The settings are read once.  Once [lock_settings_initialized] is
    set, no sequence of [mbox_lock] and [mbox_unlock] calls changes the
    static variables, and the environment has no part in what the calls
    do: with another environment they give the same. *)
Theorem X10_settings_read_once :
  forall OS (M : os_ops OS) build env env' n ops g st,
    lock_settings_initialized g = true ->
    run M build env n ops g st = run M build env' n ops g st
    /\ forall g' st', run M build env n ops g st = Ok (g', st') -> g' = g.
Proof.
  intros OS M build env env' n ops.
  induction ops as [|o ops IH]; intros g st Hg; cbn [run].
  - split; [reflexivity|]. intros g' st' E. now injection E as <- _.
  - destruct (call_initialized M build env env' n o g st Hg) as [He Hg'].
    rewrite <- He.
    destruct (call M build env n o g st) as [[[[r tok] g1] s1]| | | | |] eqn:Ec;
      cbn [bind]; try (split; [reflexivity|discriminate]).
    assert (g1 = g) by (eapply Hg'; reflexivity). subst g1.
    apply IH. exact Hg.
Qed.

Lemma X10_settings_read_once_witness :
  run script_ops full_build env_default 2 [OpLock F_WRLCK; OpUnlock 3]
    (initialized default_settings) (start [])
  = run script_ops full_build env_three 2 [OpLock F_WRLCK; OpUnlock 3]
      (initialized default_settings) (start []).
Proof.
  apply (X10_settings_read_once script script_ops full_build env_default env_three
           2 [OpLock F_WRLCK; OpUnlock 3] (initialized default_settings)
           (start []) eq_refl).
Defined.

(** *** Lock ids *)

(** X11.  The lock id of the mailbox stays even, and the lock id
    [mbox_lock] stores for the caller carries the kind of the lock in its
    lowest bit: without that bit it is the lock id of the mailbox, and the
    bit is 0 for a shared and 1 for an exclusive lock.  So [mbox_unlock]
    finds both again. *)
Theorem X11_lock_id_encoding :
  forall OS (M : os_ops OS) build env n g st,
    0 <= mbox_lock_id (ibox st) < UINT_MOD ->
    Z.even (mbox_lock_id (ibox st)) = true ->
    (forall lt tok g' st',
        mbox_lock M build env n g lt st = Ok (1, Some tok, g', st') ->
        Z.land tok (uint (Z.lnot 1)) = mbox_lock_id (ibox st')
        /\ (lt = F_RDLCK -> Z.land tok 1 = 0)
        /\ (lt = F_WRLCK -> Z.land tok 1 = 1))
    /\ (forall ops g' st',
           run M build env n ops g st = Ok (g', st') ->
           0 <= mbox_lock_id (ibox st') < UINT_MOD
           /\ Z.even (mbox_lock_id (ibox st')) = true).
Proof.
  intros OS M build env n g st Hid Hev. split.
  - intros lt tok g' st' E.
    apply mbox_lock_handle in E. cbn zeta in E.
    destruct E as (_ & _ & [(_ & Hr & _)|(_ & E)]); [lia|].
    set (id' := if lock_kind_eqb (mbox_lock_type (ibox st)) F_UNLCK
                then uint (mbox_lock_id (ibox st) + 2)
                else mbox_lock_id (ibox st)) in *.
    assert (Hid' : 0 <= id' < UINT_MOD).
    { unfold id'. destruct (lock_kind_eqb (mbox_lock_type (ibox st)) F_UNLCK);
        [|exact Hid].
      apply Z.mod_pos_bound. rewrite UINT_MOD_value. lia. }
    assert (Hev' : Z.even id' = true).
    { unfold id'. destruct (lock_kind_eqb (mbox_lock_type (ibox st)) F_UNLCK);
        [|exact Hev].
      apply uint_even. rewrite Z.even_add, Hev. reflexivity. }
    destruct E as [(-> & Htok & Hh)|(-> & Htok & Hh)];
      injection Htok as ->; handle_fields Hh; rewrite I.
    + split; [apply land_mask_even; assumption|].
      split; [intros _; apply land_1_even; assumption|discriminate].
    + destruct (land_mask_odd _ Hid' Hev') as [Hm H1].
      assert (Hu : uint (id' + 1) = id' + 1).
      { apply uint_small. rewrite UINT_MOD_value in *. split; [lia|].
        destruct (Z.eq_dec id' 4294967295) as [E|]; [|lia].
        rewrite E in Hev'. discriminate Hev'. }
      rewrite Hu. split; [exact Hm|]. split; [discriminate|intros _; exact H1].
  - intros ops g' st' E. apply run_epoch in E; [|exact Hid].
    destruct E as (j & _ & ->). split.
    + apply Z.mod_pos_bound. rewrite UINT_MOD_value. lia.
    + apply uint_even. rewrite Z.even_add, Z.even_mul, Hev. reflexivity.
Qed.

Lemma X11_lock_id_encoding_witness :
  exists tok g' st',
    mbox_lock script_ops full_build env_default 2 globals_zero F_WRLCK (start [])
    = Ok (1, Some tok, g', st')
    /\ Z.land tok (uint (Z.lnot 1)) = mbox_lock_id (ibox st')
    /\ Z.land tok 1 = 1.
Proof.
  do 3 eexists. split; [vm_compute; reflexivity|].
  destruct (proj1 (X11_lock_id_encoding script script_ops full_build env_default 2
                     globals_zero (start [])
                     ltac:(vm_compute; split; [discriminate|reflexivity])
                     eq_refl)
              F_WRLCK 3 _ _ ltac:(vm_compute; reflexivity))
    as (H1 & _ & H3).
  split; [exact H1|exact (H3 eq_refl)].
Defined.

(** *** The last unlock *)

(** X12.  The [mbox_unlock] of the last lock of a mailbox, a shared one,
    runs one release pass, from the state with the counter at 0 and with
    every status set.  The pass asks the backends of the list in use (the
    write list under [F_WRLCK], the read list otherwise) to unlock, each
    once and in the order of the list, whatever was locked; it goes through
    the whole list unless it returns 0 or less, and then that is what the
    last release it asked for returned.  Whatever the pass returns, the
    stream of the mailbox is closed, the lock id moves by 2 and the lock
    type becomes [F_UNLCK]; [mbox_unlock] returns -1 when the pass returned
    less than 0, and 0 otherwise. *)
Theorem X12_last_unlock_releases_in_order :
  forall OS (M : os_ops OS) build env R W n g tok st r g' st',
    holds_list (Config.read_locks (lock_settings g)) R ->
    holds_list (Config.write_locks (lock_settings g)) W ->
    NoDup R -> NoDup W ->
    mbox_shared_locks (ibox st) = 1 ->
    mbox_excl_locks (ibox st) = 0 ->
    Z.land tok 1 = 0 ->
    mbox_unlock M build env n g tok st = Ok (r, g', st') ->
    g' = g
    /\ exists released rest evs r2 c2 s2,
         mbox_lock_list M build (lock_settings g) n
           (set_lock_status ctx_zero (fun _ => true)) F_UNLCK 0 0
           (with_ibox st (set_shared_locks (ibox st) 0))
         = Ok (r2, c2, s2)
         /\ spec_order R W F_UNLCK (mbox_lock_type (ibox st)) = released ++ rest
         /\ log s2 = log st ++ evs
         /\ backend_calls evs = map (fun t => (t, F_UNLCK, 0)) released
         /\ (rest = []
             \/ (r2 <= 0
                 /\ exists pre t c s,
                     released = pre ++ [t]
                     /\ invoke M build (lock_settings g)
                          (mbox_lock_list M build (lock_settings g) (Nat.pred n)) n
                          t c F_UNLCK 0 s
                        = Ok (r2, c2, s2)))
         /\ st' = (let s3 := mbox_file_close_stream M s2 in
                   let s4 := with_ibox s3 (set_lock_id (ibox s3)
                                             (uint (mbox_lock_id (ibox s3) + 2))) in
                   with_ibox s4 (set_lock_type (ibox s4) F_UNLCK))
         /\ r = (if r2 <? 0 then -1 else 0).
Proof.
  intros OS M build env R W n g tok st r g' st' HR HW HndR HndW Hsh Hex Hbit E.
  unfold mbox_unlock in E.
  apply bind_Ok in E. destruct E as (u1 & _ & E).
  rewrite Hbit in E. cbn [Z.eqb negb] in E.
  apply bind_Ok in E. destruct E as (u2 & _ & E).
  rewrite Hsh in E. change (uint (1 - 1)) with 0 in E.
  cbn [ibox with_ibox set_shared_locks mbox_shared_locks mbox_excl_locks] in E.
  rewrite Hex in E. cbn [Z.gtb Z.compare] in E.
  unfold all_gone in E.
  apply bind_Ok in E. destruct E as ([[r1 c1] s1] & Ea & E).
  injection E as <- <- <-.
  split; [reflexivity|].
  apply mbox_unlock_files_run in Ea.
  destruct Ea as (r2 & s2 & Ea & Hr & Hst').
  pose proof Ea as Ea'.
  destruct n as [|n]; [discriminate Ea|].
  rewrite (mbox_lock_list_walk M build _ R W) in Ea' by assumption.
  cbn [ibox mbox_lock_type set_shared_locks] in Ea'.
  apply spec_walk_trace in Ea'; [|intros Hne; congruence].
  destruct Ea' as (released & rest & evs & Hlog2 & Hb & Hp & _ & Hrest & _).
  cbn [lock_status set_ctx_lock_type set_lock_status lock_kind_eqb negb log with_ibox]
    in Hp, Hlog2.
  change (mbox_lock_type (ibox (with_ibox st (set_shared_locks (ibox st) 0))))
    with (mbox_lock_type (ibox st)) in Hp.
  rewrite pending_all in Hp.
  - exists released, rest, evs, r2, c1, s2.
    split; [exact Ea|]. split; [exact Hp|]. split; [exact Hlog2|].
    split; [exact Hb|]. split; [exact Hrest|]. split; [exact Hst'|exact Hr].
  - apply NoDup_spec_order; assumption.
  - intros t _. discriminate.
Qed.

Lemma X12_last_unlock_releases_in_order_witness :
  exists st',
    mbox_unlock script_ops full_build env_default 1 (initialized default_settings)
      2 (Build_state ibox_shared [] []) = Ok (0, initialized default_settings, st')
    /\ exists released evs r2 c2 s2,
         mbox_lock_list script_ops full_build default_settings 1
           (set_lock_status ctx_zero (fun _ => true)) F_UNLCK 0 0
           (Build_state (set_shared_locks ibox_shared 0) [] [])
         = Ok (r2, c2, s2)
         /\ [MBOX_LOCK_FCNTL] = released
         /\ log s2 = evs
         /\ backend_calls evs = map (fun t => (t, F_UNLCK, 0)) released.
Proof.
  eexists. split; [vm_compute; reflexivity|].
  destruct (X12_last_unlock_releases_in_order script script_ops full_build
              env_default [MBOX_LOCK_FCNTL] [MBOX_LOCK_DOTLOCK; MBOX_LOCK_FCNTL]
              1 (initialized default_settings) 2 (Build_state ibox_shared [] [])
              0 (initialized default_settings)
              (Build_state
                 (set_lock_type (set_lock_id (set_shared_locks ibox_shared 0) 4)
                    F_UNLCK)
                 [] [EvBackend MBOX_LOCK_FCNTL F_UNLCK 0; EvCloseStream]))
    as (_ & released & rest & evs & r2 & c2 & s2 & E & Hl & Hlog & Hb & Hr & _).
  - eexists. reflexivity.
  - eexists. reflexivity.
  - repeat constructor. intros [].
  - repeat constructor; cbn; intuition discriminate.
  - reflexivity.
  - reflexivity.
  - reflexivity.
  - vm_compute. reflexivity.
  - exists released, evs, r2, c2, s2.
    destruct Hr as [->|(Hle & pre & t & c & s & -> & Hi)].
    + rewrite app_nil_r in Hl. repeat split; assumption.
    + exfalso. vm_compute in E. injection E as <- _ _. lia.
Defined.

(** *** The index the stale probe starts from *)

Lemma Forall_skipn_all {A} (P : A -> Prop) (l : list A) : forall idx,
  Forall P l -> Forall P (skipn idx l).
Proof.
  induction l as [|x l IH]; intros [|idx] H; cbn [skipn]; try assumption.
  apply IH. inversion H; assumption.
Qed.

Lemma skipn_behind_terminator (l : list mbox_lock_method) (pad : list slot) idx :
  (length l < idx)%nat ->
  skipn idx (map Some l ++ None :: skipn (S (length l)) pad) = skipn idx pad.
Proof.
  intros Hidx.
  rewrite skipn_app, length_map.
  rewrite (skipn_all2 (map Some l)) by (rewrite length_map; lia).
  cbn [app].
  replace (idx - length l)%nat with (S (idx - S (length l))) by lia.
  rewrite skipn_cons, skipn_skipn. f_equal. lia.
Qed.

Lemma lock_list_loop_all_skipped {OS} (M : os_ops OS) build cfg lock_list fuel
    t lt mwt ret ctx (st : state OS) : forall l,
  Forall (fun s => s = Some t) l ->
  lock_status ctx t = negb (lock_kind_eqb lt F_UNLCK) ->
  lock_list_loop M build cfg lock_list fuel l lt mwt ret ctx st = OutOfBounds.
Proof.
  induction l as [|s l IH]; intros HF Hst; [reflexivity|].
  inversion HF as [|? ? Hs HF']; subst.
  cbn [lock_list_loop]. rewrite Hst, Bool.eqb_reflx. apply IH; assumption.
Qed.

(** X13.  The probe of a stale dotlock starts at the index one past the
    highest ordinal of a lock type whose status is set; where that entry of
    the array is the terminator, the probe asks no backend and returns 0,
    which the callback takes for a lock that is really held: it refuses the
    override, sets [dotlock_last_stale] and leaves mailbox, system and log
    as they are. *)
Theorem X13_empty_probe_refuses_override :
  forall OS (M : os_ops OS) build cfg n secs_left stale ctx st,
    nth_error (select_locks cfg (lock_type ctx) (ibox st))
      (next_index (lock_status ctx) MBOX_LOCK_COUNT) = Some None ->
    stale <> 0 ->
    dotlock_last_stale ctx = 0 ->
    mbox_lock_list M build cfg (S n) ctx (lock_type ctx) 0
      (next_index (lock_status ctx) MBOX_LOCK_COUNT) st
    = Ok (0, ctx, st)
    /\ dotlock_callback (mbox_lock_list M build cfg (S n)) secs_left stale ctx st
       = Ok (0, set_last_stale ctx 1, st).
Proof.
  intros OS M build cfg n secs_left stale ctx st Hnth Hstale Hlast.
  assert (Hprobe : mbox_lock_list M build cfg (S n) ctx (lock_type ctx) 0
                     (next_index (lock_status ctx) MBOX_LOCK_COUNT) st
                   = Ok (0, ctx, st)).
  { cbn [mbox_lock_list]. unfold mbox_lock_list_body.
    rewrite (skipn_nth_error _ _ _ Hnth). cbn [lock_list_loop].
    destruct ctx; reflexivity. }
  split; [exact Hprobe|].
  unfold dotlock_callback.
  apply Z.eqb_neq in Hstale. rewrite Hstale, Hlast. cbn [negb Z.eqb andb].
  rewrite Hprobe. reflexivity.
Qed.

Lemma X13_empty_probe_refuses_override_witness :
  mbox_lock_list script_ops full_build (settings_before_dotlock MBOX_LOCK_FCNTL) 1
    (ctx_before_dotlock MBOX_LOCK_FCNTL 0) F_WRLCK 0 2 (start [])
  = Ok (0, ctx_before_dotlock MBOX_LOCK_FCNTL 0, start [])
  /\ dotlock_callback
       (mbox_lock_list script_ops full_build (settings_before_dotlock MBOX_LOCK_FCNTL) 1)
       10 1 (ctx_before_dotlock MBOX_LOCK_FCNTL 0) (start [])
     = Ok (0, ctx_before_dotlock MBOX_LOCK_FCNTL 1, start []).
Proof.
  apply (X13_empty_probe_refuses_override script script_ops full_build
           (settings_before_dotlock MBOX_LOCK_FCNTL) 0 10 1
           (ctx_before_dotlock MBOX_LOCK_FCNTL 0) (start [])).
  - reflexivity.
  - discriminate.
  - reflexivity.
Defined.

(** The same from the top, with the write list [fcntl dotlock]: the dotlock
    file goes stale, no other lock is held anywhere, and still the exclusive
    lock times out; the only backend calls are those of the walk and of its
    unwinding. *)
Example stale_dotlock_kept_behind_fcntl :
  exists g s,
    mbox_lock going_stale_ops full_build
      (env_of ["fcntl"%string] ["fcntl"%string; "dotlock"%string])
      2 globals_zero F_WRLCK (start [])
    = Ok (0, None, g, s)
    /\ lock_settings g = settings_before_dotlock MBOX_LOCK_FCNTL
    /\ backend_calls (log s)
       = [(MBOX_LOCK_FCNTL, F_WRLCK, 1600); (MBOX_LOCK_DOTLOCK, F_WRLCK, 1600);
          (MBOX_LOCK_FCNTL, F_UNLCK, 0); (MBOX_LOCK_DOTLOCK, F_UNLCK, 0)].
Proof. do 2 eexists. split; [vm_compute; reflexivity|]. split; reflexivity. Qed.

(** X14.  The arrays are static, so what [mbox_read_lock_methods] leaves
    behind the terminator is 0, which is [MBOX_LOCK_DOTLOCK].  A probe that
    starts behind the terminator while the status of the dotlock is set
    steps over these entries and reads past the end of the array. *)
Theorem X14_probe_behind_terminator :
  forall OS (M : os_ops OS) build cfg n secs_left stale ctx st toks env,
    Config.mbox_read_lock_methods build toks env zero_locks
    = Ok (select_locks cfg (lock_type ctx) (ibox st)) ->
    (length toks < next_index (lock_status ctx) MBOX_LOCK_COUNT)%nat ->
    lock_type ctx <> F_UNLCK ->
    lock_status ctx MBOX_LOCK_DOTLOCK = true ->
    stale <> 0 ->
    dotlock_last_stale ctx = 0 ->
    mbox_lock_list M build cfg (S n) ctx (lock_type ctx) 0
      (next_index (lock_status ctx) MBOX_LOCK_COUNT) st
    = OutOfBounds
    /\ dotlock_callback (mbox_lock_list M build cfg (S n)) secs_left stale ctx st
       = OutOfBounds.
Proof.
  intros OS M build cfg n secs_left stale ctx st toks env
    Hparse Hidx Hlt Hdot Hstale Hlast.
  assert (Hprobe : mbox_lock_list M build cfg (S n) ctx (lock_type ctx) 0
                     (next_index (lock_status ctx) MBOX_LOCK_COUNT) st
                   = OutOfBounds).
  { unfold Config.mbox_read_lock_methods in Hparse.
    apply (read_lock_methods_loop_shape build env toks [] zero_locks) in Hparse.
    destruct Hparse as (l & HF & Harr). cbn [app] in Harr.
    cbn [mbox_lock_list]. unfold mbox_lock_list_body.
    rewrite Harr, skipn_behind_terminator
      by (rewrite <- (Forall2_length HF); exact Hidx).
    apply (lock_list_loop_all_skipped _ _ _ _ _ MBOX_LOCK_DOTLOCK).
    - apply Forall_skipn_all. repeat constructor.
    - cbn [lock_status set_ctx_lock_type]. rewrite Hdot.
      destruct (lock_type ctx); [reflexivity|reflexivity|congruence]. }
  split; [exact Hprobe|].
  unfold dotlock_callback.
  apply Z.eqb_neq in Hstale. rewrite Hstale, Hlast. cbn [negb Z.eqb andb].
  rewrite Hprobe. reflexivity.
Qed.

Lemma X14_probe_behind_terminator_witness :
  mbox_lock_list script_ops full_build (settings_before_dotlock MBOX_LOCK_LOCKF) 1
    (ctx_before_dotlock MBOX_LOCK_LOCKF 0) F_WRLCK 0 4 (start [])
  = OutOfBounds
  /\ dotlock_callback
       (mbox_lock_list script_ops full_build (settings_before_dotlock MBOX_LOCK_LOCKF) 1)
       10 1 (ctx_before_dotlock MBOX_LOCK_LOCKF 0) (start [])
     = OutOfBounds.
Proof.
  apply (X14_probe_behind_terminator script script_ops full_build
           (settings_before_dotlock MBOX_LOCK_LOCKF) 0 10 1
           (ctx_before_dotlock MBOX_LOCK_LOCKF 0) (start [])
           ["lockf"%string; "dotlock"%string] "MBOX_WRITE_LOCKS"%string).
  - reflexivity.
  - cbn. lia.
  - discriminate.
  - reflexivity.
  - discriminate.
  - reflexivity.
Defined.

(** The same from the top, with the write list [lockf dotlock]. *)
Example stale_probe_behind_lockf :
  mbox_lock going_stale_ops full_build
    (env_of ["lockf"%string] ["lockf"%string; "dotlock"%string])
    2 globals_zero F_WRLCK (start [])
  = OutOfBounds.
Proof. vm_compute. reflexivity. Qed.

(** *** Where the assertions are *)

Lemma no_panic_bind {A B} (m : result A) (k : A -> result B) :
  no_panic m -> (forall x, no_panic (k x)) -> no_panic (bind m k).
Proof.
  intros Hm Hk a. destruct m as [x| |b| | |]; cbn [bind]; try discriminate.
  - apply Hk.
  - intros _. exact (Hm b eq_refl).
Qed.

Ltac no_panic_with tac :=
  repeat (cbv zeta;
          first [ solve [intros ? E; discriminate E]
                | solve [tac]
                | match goal with
                  | |- no_panic (bind _ _) => apply no_panic_bind; [|intros ?]
                  | |- no_panic (match ?x with _ => _ end) => destruct x
                  end ]).

Section NoPanic.

Context {OS : Type}.
Variable M : os_ops OS.
Variable build : Config.build.
Variable cfg : Config.settings.

Lemma flock_loop_no_panic n : forall op mwt st,
  no_panic (flock_loop M n op mwt st).
Proof.
  induction n as [|n IH]; intros op mwt st; cbn [flock_loop];
    no_panic_with ltac:(apply IH).
Qed.

Lemma lockf_loop_no_panic n : forall cmd mwt st,
  no_panic (lockf_loop M n cmd mwt st).
Proof.
  induction n as [|n IH]; intros cmd mwt st; cbn [lockf_loop];
    no_panic_with ltac:(apply IH).
Qed.

Lemma fcntl_loop_no_panic n : forall wt lt mwt st,
  no_panic (fcntl_loop M n wt lt mwt st).
Proof.
  induction n as [|n IH]; intros wt lt mwt st; cbn [fcntl_loop];
    no_panic_with ltac:(apply IH).
Qed.

Section NoPanicLevel.

Variable lock_list :
  mbox_lock_context -> lock_kind -> Z -> nat -> state OS ->
  result (Z * mbox_lock_context * state OS).
Variable fuel : nat.

Hypothesis lock_list_no_panic :
  forall ctx lt mwt idx st, no_panic (lock_list ctx lt mwt idx st).

Lemma dotlock_callback_no_panic secs stale ctx st :
  no_panic (dotlock_callback lock_list secs stale ctx st).
Proof.
  unfold dotlock_callback. no_panic_with ltac:(apply lock_list_no_panic).
Qed.

Lemma run_dotlock_no_panic t : forall ctx st,
  no_panic (run_dotlock lock_list t ctx st).
Proof.
  induction t as [ret ino o|secs stale o k IH]; intros ctx st;
    cbn [run_dotlock];
    no_panic_with ltac:(first [apply dotlock_callback_no_panic | apply IH]).
Qed.

Lemma lock_data_func_no_panic t ctx lt mwt st :
  no_panic (lock_data_func M build cfg lock_list fuel t ctx lt mwt st).
Proof.
  destruct t; cbn [lock_data_func];
    unfold mbox_lock_dotlock, mbox_lock_fcntl, mbox_lock_flock, mbox_lock_lockf;
    no_panic_with ltac:(first [ apply run_dotlock_no_panic
                              | apply flock_loop_no_panic
                              | apply lockf_loop_no_panic
                              | apply fcntl_loop_no_panic ]).
Qed.

Lemma lock_list_loop_no_panic l lt mwt : forall ret ctx st,
  no_panic (lock_list_loop M build cfg lock_list fuel l lt mwt ret ctx st).
Proof.
  induction l as [|s l IH]; intros ret ctx st; cbn [lock_list_loop];
    unfold invoke;
    no_panic_with ltac:(first [apply IH | apply lock_data_func_no_panic]).
Qed.

End NoPanicLevel.

Lemma mbox_lock_list_no_panic n : forall ctx lt mwt idx st,
  no_panic (mbox_lock_list M build cfg n ctx lt mwt idx st).
Proof.
  induction n as [|n IH]; intros ctx lt mwt idx st; cbn [mbox_lock_list].
  - intros a E. discriminate E.
  - unfold mbox_lock_list_body. apply lock_list_loop_no_panic. exact IH.
Qed.

Lemma mark_listed_no_panic l v : forall status, no_panic (mark_listed l v status).
Proof.
  induction l as [|s l IH]; intros status; cbn [mark_listed];
    no_panic_with ltac:(apply IH).
Qed.

Lemma mbox_unlock_files_no_panic n ctx st :
  no_panic (mbox_unlock_files M build cfg n ctx st).
Proof.
  unfold mbox_unlock_files. no_panic_with ltac:(apply mbox_lock_list_no_panic).
Qed.

Lemma update_locking_no_panic n lt st :
  no_panic (update_locking M build cfg n lt st).
Proof.
  unfold update_locking.
  no_panic_with ltac:(first [ apply mbox_lock_list_no_panic
                            | apply mark_listed_no_panic
                            | apply mbox_unlock_files_no_panic ]).
Qed.

End NoPanic.

Lemma read_lock_methods_loop_no_panic b env toks : forall locks dest,
  no_panic (Config.read_lock_methods_loop b env toks locks dest).
Proof.
  induction toks as [|tok rest IH]; intros locks dest;
    cbn [Config.read_lock_methods_loop];
    no_panic_with ltac:(apply IH).
Qed.

Lemma mbox_update_locking_no_panic {OS} (M : os_ops OS) build env n g lt st :
  no_panic (mbox_update_locking M build env n g lt st).
Proof.
  unfold mbox_update_locking, Config.mbox_init_lock_settings,
    Config.mbox_read_lock_methods.
  no_panic_with ltac:(first [ apply update_locking_no_panic
                            | apply read_lock_methods_loop_no_panic ]).
Qed.

(** X15.  The assertions of the file are those on the arguments of
    [mbox_lock] and [mbox_unlock]; nothing below them fails one.  So
    [mbox_lock] fails an assertion exactly when it is asked for [F_UNLCK],
    or for [F_WRLCK] on a mailbox that is locked [F_RDLCK]; [mbox_unlock]
    exactly when the lock id is not the current one, or no lock of the kind
    the id names is counted. *)
Theorem X15_assertions_guard_the_interface :
  forall OS (M : os_ops OS) build env n g st,
    (forall lt a,
       mbox_lock M build env n g lt st = Panic a <->
       (lt = F_UNLCK /\ a = AssertLockTypeArg)
       \/ (lt = F_WRLCK /\ mbox_lock_type (ibox st) = F_RDLCK
           /\ a = AssertNoUpgrade))
    /\ (forall lock_id a,
          mbox_unlock M build env n g lock_id st = Panic a <->
          (mbox_lock_id (ibox st) <> Z.land lock_id (uint (Z.lnot 1))
           /\ a = AssertLockId)
          \/ (mbox_lock_id (ibox st) = Z.land lock_id (uint (Z.lnot 1))
              /\ Z.land lock_id 1 <> 0
              /\ mbox_excl_locks (ibox st) <= 0 /\ a = AssertExclLocks)
          \/ (mbox_lock_id (ibox st) = Z.land lock_id (uint (Z.lnot 1))
              /\ Z.land lock_id 1 = 0
              /\ mbox_shared_locks (ibox st) <= 0 /\ a = AssertSharedLocks)).
Proof.
  intros OS M build env n g st. split.
  - intros lt a. unfold mbox_lock. split.
    + destruct lt, (mbox_lock_type (ibox st)) eqn:Hty;
        cbn [lock_kind_eqb orb negb i_assert bind];
        try (intros E; injection E as <-; auto; fail);
        intros E; exfalso; revert a E;
        match goal with
        | |- forall a, ?X = Panic a -> False => change (no_panic X)
        end;
        no_panic_with ltac:(apply mbox_update_locking_no_panic).
    + intros [[-> ->]|(-> & -> & ->)]; reflexivity.
  - intros lock_id a. unfold mbox_unlock, all_gone. split.
    + destruct (Z.eqb_spec (mbox_lock_id (ibox st))
                  (Z.land lock_id (uint (Z.lnot 1)))) as [Hid|Hid];
        cbn [i_assert bind]; [|intros E; injection E as <-; auto].
      destruct (Z.eqb_spec (Z.land lock_id 1) 0) as [Hbit|Hbit]; cbn [negb].
      * destruct (mbox_shared_locks (ibox st) >? 0) eqn:Hc; cbn [i_assert bind].
        -- intros E; exfalso; revert a E;
             match goal with
             | |- forall a, ?X = Panic a -> False => change (no_panic X)
             end;
             no_panic_with ltac:(first [ apply mbox_update_locking_no_panic
                                       | apply mbox_unlock_files_no_panic ]).
        -- intros E; injection E as <-. right. right.
           rewrite Z.gtb_ltb in Hc. apply Z.ltb_ge in Hc. auto.
      * destruct (mbox_excl_locks (ibox st) >? 0) eqn:Hc; cbn [i_assert bind].
        -- intros E; exfalso; revert a E;
             match goal with
             | |- forall a, ?X = Panic a -> False => change (no_panic X)
             end;
             no_panic_with ltac:(first [ apply mbox_update_locking_no_panic
                                       | apply mbox_unlock_files_no_panic ]).
        -- intros E; injection E as <-. right. left.
           rewrite Z.gtb_ltb in Hc. apply Z.ltb_ge in Hc. auto.
    + intros [(Hid & ->)|[(Hid & Hbit & Hc & ->)|(Hid & Hbit & Hc & ->)]].
      * apply Z.eqb_neq in Hid. rewrite Hid. reflexivity.
      * apply Z.eqb_eq in Hid. apply Z.eqb_neq in Hbit. rewrite Hid, Hbit.
        cbn [i_assert bind negb].
        assert (Hg : (mbox_excl_locks (ibox st) >? 0) = false)
          by (rewrite Z.gtb_ltb; apply Z.ltb_ge; exact Hc).
        rewrite Hg. reflexivity.
      * apply Z.eqb_eq in Hid. apply Z.eqb_eq in Hbit. rewrite Hid, Hbit.
        cbn [i_assert bind negb].
        assert (Hg : (mbox_shared_locks (ibox st) >? 0) = false)
          by (rewrite Z.gtb_ltb; apply Z.ltb_ge; exact Hc).
        rewrite Hg. reflexivity.
Qed.

(** *** The alarm of the fcntl backend *)

Lemma fcntl_loop_alarm {OS} (M : os_ops OS) n : forall wt lt mwt st r st',
  fcntl_loop M n wt lt mwt st = Ok (r, st') ->
  exists o, os st' = sys_alarm M 0 o.
Proof.
  induction n as [|n IH]; intros wt lt mwt st r st' E; cbn [fcntl_loop] in E;
    [discriminate E|].
  destruct (sys_fcntl M (mbox_fd (ibox st)) wt lt (os st)) as [[|errno] o].
  - injection E as <- <-. eexists. reflexivity.
  - destruct (negb (errno =? EINTR M)).
    + injection E as <- <-. eexists. reflexivity.
    + destruct (sys_time M (os (with_os st o))) as [now o2].
      destruct (negb (mwt =? 0) && (now >=? mwt))%bool.
      * injection E as <- <-. eexists. reflexivity.
      * apply IH in E. exact E.
Qed.

(** X16.  [mbox_lock_fcntl] either returns before it locks, with the
    mailbox as [mbox_file_open_latest] left it (the file could not be
    checked, or there is no file to unlock), or the last thing it does to
    the system is [alarm(0)]: it never returns with its alarm pending. *)
Theorem X16_fcntl_cancels_alarm :
  forall OS (M : os_ops OS) n ctx lt mwt st r ctx' st',
    mbox_lock_fcntl M n ctx lt mwt st = Ok (r, ctx', st') ->
    (mbox_file_open_latest M ctx lt st = (if r <? 0 then -1 else 0, ctx', st')
     /\ (r = -1 \/ (r = 1 /\ lt = F_UNLCK /\ mbox_fd (ibox st') = -1)))
    \/ exists o, os st' = sys_alarm M 0 o.
Proof.
  intros OS M n ctx lt mwt st r ctx' st' E. unfold mbox_lock_fcntl in E.
  destruct (mbox_file_open_latest M ctx lt st) as [[r0 c0] s0] eqn:Eo.
  pose proof (X := Eo).
  assert (Hr0 : r0 = 0 \/ r0 = -1).
  { revert X. unfold mbox_file_open_latest.
    repeat match goal with
           | |- context [match ?x with _ => _ end] => destruct x
           end; intros X; injection X as <- _ _; auto. }
  destruct (r0 <? 0) eqn:Er0.
  - injection E as <- <- <-. left. split; [|auto].
    destruct Hr0 as [->| ->]; [discriminate Er0|reflexivity].
  - destruct Hr0 as [->| ->]; [|discriminate Er0].
    destruct (lock_kind_eqb lt F_UNLCK && (mbox_fd (ibox s0) =? -1))%bool eqn:Eu.
    + injection E as <- <- <-. left. split; [reflexivity|]. right.
      apply Bool.andb_true_iff in Eu. destruct Eu as [Elt Efd].
      apply lock_kind_eqb_eq in Elt. apply Z.eqb_eq in Efd. auto.
    + right.
      destruct (mwt =? 0);
        apply bind_Ok in E; destruct E as ([r1 s1] & Ea & E);
        injection E as <- <- <-;
        apply fcntl_loop_alarm in Ea; exact Ea.
Qed.

Lemma X16_fcntl_cancels_alarm_witness :
  exists r c s,
    mbox_lock_fcntl script_ops 1 ctx_zero F_WRLCK 1600 (start [Failure 11])
    = Ok (r, c, s)
    /\ ((mbox_file_open_latest script_ops ctx_zero F_WRLCK (start [Failure 11])
         = (if r <? 0 then -1 else 0, c, s)
         /\ (r = -1 \/ (r = 1 /\ F_WRLCK = F_UNLCK /\ mbox_fd (ibox s) = -1)))
        \/ exists o, os s = sys_alarm script_ops 0 o).
Proof.
  do 3 eexists. split; [vm_compute; reflexivity|].
  apply (X16_fcntl_cancels_alarm script script_ops 1 ctx_zero F_WRLCK 1600
           (start [Failure 11])).
  vm_compute. reflexivity.
Defined.
